(** * movie_query: a shallow embedding of the filter/command engine

    The development follows [movie_query.py]: the record type
    [MovieMetric], the dispatch tables [flag_map] and [top_ten_map] built in
    [MovieQuery.__init__], and the methods [load_movies], [collect_filters],
    [filter_results] and [generate_genre_insights].

    Python values that the lambdas pass around untyped ([x and y] returns
    one of its operands, not a boolean) are kept as a small universe
    [pyval]; exceptions are a sum type; [float] is IEEE binary64, taken
    from the primitive floats of the prover. *)

From Stdlib Require Import List String Ascii ZArith Bool Lia.
From Stdlib Require Import Floats Permutation Sorted DecimalString.
From Stdlib Require Import DecimalPos DecimalN DecimalZ.
Import ListNotations.
Local Open Scope string_scope.
Local Open Scope Z_scope.

Set Implicit Arguments.

(** ** Python runtime *)

Module Py.

(** The exceptions the modelled code can raise.  [SystemExit] is what
    the builtin [exit(msg)] raises, [ValidationError] what the
    construction of a record raises on a row it rejects. *)
Inductive exn : Type :=
| ValueError
| AttributeError
| TypeError
| ZeroDivisionError
| OverflowError
| KeyError
| ValidationError
| SystemExit (msg : string).

Inductive result (A : Type) : Type :=
| Ok (a : A)
| Raise (e : exn).
Arguments Ok {A} a.
Arguments Raise {A} e.

Definition bind {A B} (r : result A) (k : A -> result B) : result B :=
  match r with
  | Ok a => k a
  | Raise e => Raise e
  end.

Fixpoint mapM {A B} (f : A -> result B) (l : list A) : result (list B) :=
  match l with
  | [] => Ok []
  | x :: t =>
      bind (f x) (fun y => bind (mapM f t) (fun ys => Ok (y :: ys)))
  end.

(** Values as the filter lambdas see them. *)
Inductive pyval : Type :=
| PyNone
| PyBool (b : bool)
| PyInt (z : Z)
| PyFloat (f : float)
| PyStr (s : string).

(** Truth value testing: [None], [False], zero of any numeric type and
    the empty string are false.  A NaN is true, both zeros are false. *)
Definition truthy (v : pyval) : bool :=
  match v with
  | PyNone => false
  | PyBool b => b
  | PyInt z => negb (z =? 0)
  | PyFloat f => negb (f =? 0)%float
  | PyStr s => negb (s =? "")%string
  end.

(** [x and y]: [x] when it is false, else the value of [y], which is
    only then evaluated. *)
Definition and_ (x : pyval) (y : unit -> result pyval) : result pyval :=
  if truthy x then y tt else Ok x.

Definition of_opt {A} (inj : A -> pyval) (o : option A) : pyval :=
  match o with
  | Some a => inj a
  | None => PyNone
  end.

(** *** Strings

    A [str] is kept as a string of bytes; [lower] and the whitespace of
    [strip] are those of the ASCII range, other characters stand as they
    are. *)

Definition lower_ascii (c : ascii) : ascii :=
  let n := N_of_ascii c in
  if ((65 <=? n) && (n <=? 90))%N then ascii_of_N (n + 32) else c.

Fixpoint lower (s : string) : string :=
  match s with
  | EmptyString => EmptyString
  | String c r => String (lower_ascii c) (lower r)
  end.

(** [o.lower()] on an optional field: [None] has no such attribute. *)
Definition lower_opt (o : option string) : result string :=
  match o with
  | Some s => Ok (lower s)
  | None => Raise AttributeError
  end.

Definition startswith (s p : string) : bool := prefix p s.

(** [s.split(sep)] for a one-character separator: one more token than
    there are separators, empty tokens kept, nothing stripped. *)
Fixpoint split (sep : ascii) (s : string) : list string :=
  match s with
  | EmptyString => [EmptyString]
  | String c r =>
      if Ascii.eqb c sep then EmptyString :: split sep r
      else match split sep r with
           | tok :: toks => String c tok :: toks
           | [] => [String c EmptyString]
           end
  end.

(** [sub in s] on strings: substring containment. *)
Fixpoint contains (sub s : string) : bool :=
  prefix sub s ||
  match s with
  | EmptyString => false
  | String _ r => contains sub r
  end.

(** [x in l] on a list or tuple of strings. *)
Definition in_strs (x : string) (l : list string) : bool :=
  existsb (String.eqb x) l.

(** [x in l] when [x] may be [None]: [None] equals no string. *)
Definition in_strs_opt (x : option string) (l : list string) : bool :=
  match x with
  | Some s => in_strs s l
  | None => false
  end.

(** *** [int(s)] on a string, base 10 *)

Definition is_space (c : ascii) : bool :=
  let n := N_of_ascii c in
  ((9 <=? n) && (n <=? 13) || (28 <=? n) && (n <=? 32))%N.

Fixpoint lstrip (s : string) : string :=
  match s with
  | String c r => if is_space c then lstrip r else s
  | EmptyString => EmptyString
  end.

Fixpoint rstrip (s : string) : string :=
  match s with
  | EmptyString => EmptyString
  | String c r =>
      match rstrip r with
      | EmptyString => if is_space c then EmptyString else String c EmptyString
      | r' => String c r'
      end
  end.

Definition strip (s : string) : string := rstrip (lstrip s).

Definition digit_of (c : ascii) : option Z :=
  let n := N_of_ascii c in
  if ((48 <=? n) && (n <=? 57))%N then Some (Z.of_N (n - 48)) else None.

(** Digits with single underscores between them; [acc] is the value
    read so far and [after_digit] tells whether the previous character
    was a digit (an underscore is only legal there, and not last). *)
Fixpoint digits (s : string) (acc : Z) (after_digit : bool) : option Z :=
  match s with
  | EmptyString => if after_digit then Some acc else None
  | String c r =>
      match digit_of c with
      | Some d => digits r (10 * acc + d) true
      | None =>
          if (Ascii.eqb c "_" && after_digit)%bool
          then match r with
               | EmptyString => None
               | _ => digits r acc false
               end
          else None
      end
  end.

Definition int_of_str (s : string) : result Z :=
  let body :=
    match strip s with
    | String "-" r => option_map Z.opp (digits r 0 false)
    | String "+" r => digits r 0 false
    | r => digits r 0 false
    end in
  match body with
  | Some z => Ok z
  | None => Raise ValueError
  end.

End Py.
Import Py.

Module PyNotations.
Notation "x <- e ;; k" := (bind e (fun x => k))
  (at level 61, e at next level, right associativity).
Notation "x 'AND' y" := (and_ x (fun _ => y))
  (at level 62, right associativity).
End PyNotations.
Import PyNotations.

(** *** [int] to [float], comparisons, division *)

(** Conversion of an [int] operand of a float operation: correctly
    rounded, [OverflowError] when the integer is out of range. *)
Definition float_of_int (z : Z) : result float :=
  let f := SF2Prim (binary_normalize prec emax z 0 false) in
  if is_infinity f then Raise OverflowError else Ok f.

(** [x < y] and [x > y] with an optional left operand, as the filter
    lambdas apply them to a field: comparing [None] with a number is a
    [TypeError]. *)
Definition lt_int (x : option Z) (y : Z) : result pyval :=
  match x with
  | Some a => Ok (PyBool (a <? y))
  | None => Raise TypeError
  end.

Definition gt_int (x : option Z) (y : Z) : result pyval :=
  match x with
  | Some a => Ok (PyBool (a >? y))
  | None => Raise TypeError
  end.

Definition lt_float (x : option float) (y : float) : result pyval :=
  match x with
  | Some a => Ok (PyBool (a <? y)%float)
  | None => Raise TypeError
  end.

Definition gt_float (x : option float) (y : float) : result pyval :=
  match x with
  | Some a => Ok (PyBool (y <? a)%float)
  | None => Raise TypeError
  end.

(** Unary minus on an optional number. *)
Definition neg_int (x : option Z) : result Z :=
  match x with
  | Some a => Ok (- a)
  | None => Raise TypeError
  end.

Definition neg_float (x : option float) : result float :=
  match x with
  | Some a => Ok (- a)%float
  | None => Raise TypeError
  end.

(** [x / n] for a float [x] and an optional [int] [n]: [n] is converted
    to a float, and a zero divisor is an error.  A non-zero integer never
    converts to a zero, so the test is made on the integer. *)
Definition div_float_int (x : float) (n : option Z) : result float :=
  match n with
  | None => Raise TypeError
  | Some z =>
      d <- float_of_int z ;;
      if z =? 0 then Raise ZeroDivisionError else Ok (x / d)%float
  end.

(** ** Sorting

    [sorted] and [list.sort] compare keys with [<] only, are stable, and
    stop at the first comparison that raises.  The embedding is a stable
    insertion sort over the decorated list (key, element); on keys that
    [<] orders totally every stable sort returns this same list. *)
Section Sorting.
Context {K A : Type}.
Variable lt : K -> K -> result bool.

Fixpoint insert (x : K * A) (l : list (K * A)) : result (list (K * A)) :=
  match l with
  | [] => Ok [x]
  | y :: t =>
      b <- lt (fst y) (fst x) ;;
      if b then (t' <- insert x t ;; Ok (y :: t')) else Ok (x :: y :: t)
  end.

Fixpoint isort (l : list (K * A)) : result (list (K * A)) :=
  match l with
  | [] => Ok []
  | x :: t => s <- isort t ;; insert x s
  end.

Definition decorate (key : A -> result K) (l : list A)
  : result (list (K * A)) :=
  mapM (fun x => k <- key x ;; Ok (k, x)) l.

(** [sorted(l, key=key)] *)
Definition sorted (key : A -> result K) (l : list A) : result (list A) :=
  d <- decorate key l ;;
  s <- isort d ;;
  Ok (map snd s).

(** [l.sort(key=key, reverse=True)]: the list is reversed, sorted and
    reversed again, which keeps equal keys in their original order. *)
Definition sort_reverse (key : A -> result K) (l : list A)
  : result (list A) :=
  d <- decorate key l ;;
  s <- isort (rev d) ;;
  Ok (map snd (rev s)).
End Sorting.

(** [len(l)] inside an f-string. *)
Definition str_of_len {A} (l : list A) : string :=
  NilZero.string_of_uint (Nat.to_uint (List.length l)).

Definition lt_Z (a b : Z) : result bool := Ok (a <? b).
Definition lt_F (a b : float) : result bool := Ok (a <? b)%float.

(** [<] between two keys that may be [None]. *)
Definition lt_optF (a b : option float) : result bool :=
  match a, b with
  | Some x, Some y => Ok (x <? y)%float
  | _, _ => Raise TypeError
  end.

(** ** The record model *)

Record MovieMetric : Type := {
  series_title : string;
  released_year : option Z;
  certificate : option string;
  runtime : option Z;
  genre : option string;
  imdb_rating : option float;
  overview : option string;
  meta_score : option Z;
  director : option string;
  star_1 : option string;
  star_2 : option string;
  star_3 : option string;
  star_4 : option string;
  no_of_votes : option Z;
  gross : option Z
}.

Definition opt_all {A} (p : A -> bool) (o : option A) : bool :=
  match o with
  | Some a => p a
  | None => true
  end.

(** The [Field] constraints of the class: [runtime > 0],
    [0 <= imdb_rating <= 10], [0 < meta_score <= 100], [no_of_votes > 0],
    each on a value that is present. *)
Definition field_constraints (m : MovieMetric) : bool :=
  opt_all (fun r => 0 <? r) m.(runtime) &&
  opt_all (fun r => (0 <=? r)%float && (r <=? 10)%float) m.(imdb_rating) &&
  opt_all (fun s => (0 <? s) && (s <=? 100)) m.(meta_score) &&
  opt_all (fun v => 0 <? v) m.(no_of_votes).

(** ** Dictionaries

    A [dict] keeps its keys in insertion order, and assigning to a key
    that is present replaces the value where the key stands. *)
Section Dict.
Context {V : Type}.

Definition dict : Type := list (string * V).

Fixpoint dict_get (k : string) (d : dict) : option V :=
  match d with
  | [] => None
  | (k', v) :: t => if String.eqb k k' then Some v else dict_get k t
  end.

Definition dict_mem (k : string) (d : dict) : bool :=
  match dict_get k d with
  | Some _ => true
  | None => false
  end.

Fixpoint dict_set (k : string) (v : V) (d : dict) : dict :=
  match d with
  | [] => [(k, v)]
  | (k', v') :: t =>
      if String.eqb k k' then (k, v) :: t else (k', v') :: dict_set k v t
  end.
End Dict.
Arguments dict : clear implicits.

(** ** class MovieQuery *)

Section MovieQuery.

(** The builtin [float(s)] on a string: the parsed number, or
    [ValueError]. *)
Variable float_of_str : string -> result float.

Definition predicate : Type := MovieMetric -> string -> result pyval.

(** [self.flag_map]: "flag mapping, skips over null values". *)
Definition flag_map : dict predicate := [
  ("--year-before", fun movie year =>
     of_opt PyInt movie.(released_year) AND
     (y <- int_of_str year ;; lt_int movie.(released_year) y));
  ("--year-after", fun movie year =>
     of_opt PyInt movie.(released_year) AND
     (y <- int_of_str year ;; gt_int movie.(released_year) y));
  ("--rating-above", fun movie rating =>
     of_opt PyFloat movie.(imdb_rating) AND
     (r <- float_of_str rating ;; gt_float movie.(imdb_rating) r));
  ("--rating-below", fun movie rating =>
     of_opt PyFloat movie.(imdb_rating) AND
     (r <- float_of_str rating ;; lt_float movie.(imdb_rating) r));
  ("--runtime-above", fun movie runtime_ =>
     of_opt PyInt movie.(runtime) AND
     (r <- int_of_str runtime_ ;; gt_int movie.(runtime) r));
  ("--runtime-below", fun movie runtime_ =>
     of_opt PyInt movie.(runtime) AND
     (r <- int_of_str runtime_ ;; lt_int movie.(runtime) r));
  ("--gross-above", fun movie gross_ =>
     of_opt PyInt movie.(gross) AND
     (g <- int_of_str gross_ ;; gt_int movie.(gross) g));
  ("--gross-below", fun movie gross_ =>
     of_opt PyInt movie.(gross) AND
     (g <- int_of_str gross_ ;; lt_int movie.(gross) g));
  ("--score-above", fun movie score =>
     of_opt PyInt movie.(meta_score) AND
     (s <- int_of_str score ;; gt_int movie.(meta_score) s));
  ("--score-below", fun movie score =>
     of_opt PyInt movie.(meta_score) AND
     (s <- int_of_str score ;; lt_int movie.(meta_score) s));
  ("--votes-above", fun movie votes =>
     of_opt PyInt movie.(no_of_votes) AND
     (v <- int_of_str votes ;; gt_int movie.(no_of_votes) v));
  ("--votes-below", fun movie votes =>
     of_opt PyInt movie.(no_of_votes) AND
     (v <- int_of_str votes ;; lt_int movie.(no_of_votes) v));
  ("--title", fun movie title =>
     PyStr movie.(series_title) AND
     Ok (PyBool (contains (lower title) (lower movie.(series_title)))));
  ("--director", fun movie director_ =>
     of_opt PyStr movie.(director) AND
     (d <- lower_opt movie.(director) ;;
      Ok (PyBool (contains (lower director_) d))));
  ("--actor", fun movie actor =>
     s1 <- lower_opt movie.(star_1) ;;
     s2 <- lower_opt movie.(star_2) ;;
     s3 <- lower_opt movie.(star_3) ;;
     s4 <- lower_opt movie.(star_4) ;;
     Ok (PyBool (in_strs (lower actor) [s1; s2; s3; s4])));
  ("--genre", fun movie genre_ =>
     of_opt PyStr movie.(genre) AND
     (g <- lower_opt movie.(genre) ;;
      Ok (PyBool (in_strs (lower genre_) (split "," g)))));
  ("--age-rating", fun movie certificate_ =>
     of_opt PyStr movie.(certificate) AND
     (c <- lower_opt movie.(certificate) ;;
      Ok (PyBool (String.eqb c (lower certificate_)))))
].

(** [self.top_ten_map]; [[:10]] is [firstn 10]. *)
Definition take10 (r : result (list MovieMetric)) : result (list MovieMetric) :=
  l <- r ;; Ok (firstn 10 l).

Definition hidden_gems_key (movie : MovieMetric) : result float :=
  n <- neg_float movie.(imdb_rating) ;;
  div_float_int n movie.(no_of_votes).

Definition top_ten_map
  : dict (list MovieMetric -> result (list MovieMetric)) := [
  ("highest-rated", fun movies =>
     take10 (sorted lt_F (fun movie => neg_float movie.(imdb_rating)) movies));
  ("most-popular", fun movies =>
     take10 (sorted lt_Z (fun movie => neg_int movie.(no_of_votes)) movies));
  ("highest-grossing", fun movies =>
     take10 (sorted lt_Z (fun movie => neg_int movie.(gross)) movies));
  ("longest-runtime", fun movies =>
     take10 (sorted lt_Z (fun movie => neg_int movie.(runtime)) movies));
  ("hidden-gems", fun movies =>
     take10 (sorted lt_F hidden_gems_key movies))
].

(** The keys of [self.command_map]. *)
Definition command_flags : list string :=
  ["--top-ten"; "--output"; "--insights"].

(** The top-ten step of [perform_commands]. *)
Definition perform_top_ten (movies : list MovieMetric)
           (commands : dict string) : result (list MovieMetric) :=
  match dict_get "--top-ten" commands with
  | Some value =>
      match dict_get value top_ten_map with
      | Some reduce => reduce movies
      | None => Raise (SystemExit ("Unknown value: " ++ value))
      end
  | None => Ok movies
  end.

(** *** generate_genre_insights *)

Fixpoint foldM {S A} (f : S -> A -> result S) (l : list A) (s : S)
  : result S :=
  match l with
  | [] => Ok s
  | x :: t => s' <- f s x ;; foldM f t s'
  end.

Definition genre_eq_dec (x y : option string) : {x = y} + {x <> y}.
Proof. decide equality. apply string_dec. Defined.

(** [{movie.genre for movie in movies}]: the whole genre fields, [None]
    included.  A set is iterated in an order the language leaves open;
    the embedding lists each field once. *)
Definition genre_set (movies : list MovieMetric) : list (option string) :=
  nodup genre_eq_dec (map genre movies).

(** The running sums [rating, gross, runtime, total] of one group.
    [rating] starts as the integer [0] and is a float from the first
    addition on; [0 + r] and [0.0 + r] are the same float. *)
Record sums : Type := {
  sum_rating : float;
  sum_gross : Z;
  sum_runtime : Z;
  total : Z
}.

Definition no_sums : sums :=
  {| sum_rating := 0; sum_gross := 0; sum_runtime := 0; total := 0 |}.

(** One turn of the inner loop for the group [g]. *)
Definition genre_row (g : option string) (acc : sums) (movie : MovieMetric)
  : result sums :=
  match movie.(genre) with
  | None => Raise AttributeError
  | Some field =>
      if in_strs_opt g (split "," field)
         && truthy (of_opt PyFloat movie.(imdb_rating))
         && truthy (of_opt PyInt movie.(gross))
         && truthy (of_opt PyInt movie.(runtime))
      then match movie.(imdb_rating), movie.(gross), movie.(runtime) with
           | Some r, Some gr, Some rt =>
               Ok {| sum_rating := (acc.(sum_rating) + r)%float;
                     sum_gross := acc.(sum_gross) + gr;
                     sum_runtime := acc.(sum_runtime) + rt;
                     total := acc.(total) + 1 |}
           | _, _, _ => Raise TypeError
           end
      else Ok acc
  end.

(** One entry of [stats]. *)
Record stat : Type := {
  stat_genre : option string;
  average_rating : float;
  average_gross : Z;
  average_runtime : Z
}.

(** One turn of the outer loop: the entry appended for [g], if any. *)
Definition genre_stat (movies : list MovieMetric) (g : option string)
  : result (list stat) :=
  s <- foldM (genre_row g) movies no_sums ;;
  if 0 <? s.(total)
  then avg <- div_float_int s.(sum_rating) (Some s.(total)) ;;
       Ok [ {| stat_genre := g;
               average_rating := avg;
               average_gross := s.(sum_gross) / s.(total);
               average_runtime := s.(sum_runtime) / s.(total) |} ]
  else Ok [].

(** The list [stats] that the method prints, one line per entry, after
    both loops have run. *)
Definition generate_genre_insights (movies : list MovieMetric)
  : result (list stat) :=
  per_group <- mapM (genre_stat movies) (genre_set movies) ;;
  Ok (List.concat per_group).

(** *** load_movies *)

(** What reading the file and building one [MovieMetric] per row gave:
    the file is missing, the system refuses it, a row fails validation,
    or every row became a record. *)
Inductive read_outcome : Type :=
| FileNotFound
| OSError
| InvalidRow
| Rows (movies : list MovieMetric).

Definition load_movies (file_path : string) (read : read_outcome)
  : result (list MovieMetric) :=
  match read with
  | FileNotFound =>
      Raise (SystemExit
               ("Error: The csv file '" ++ file_path ++ "' was not found."))
  | OSError =>
      Raise (SystemExit ("Error opening csv file '" ++ file_path ++ "'"))
  | InvalidRow => Raise ValidationError
  | Rows movies =>
      sort_reverse lt_optF (fun x => Ok x.(imdb_rating)) movies
  end.

(** *** collect_filters *)

(** A run that prints: the lines printed, then how it ended. *)
Definition printing (A : Type) : Type := list string * result A.

Fixpoint collect_loop (args : list string) (filters commands : dict string)
         (out : list string) : printing (dict string * dict string) :=
  match args with
  | [] => (out, Ok (filters, commands))
  | flag :: rest =>
      if startswith flag "--" then
        match rest with
        | value :: rest' =>
            if negb (startswith value "--") then
              if dict_mem flag flag_map then
                collect_loop rest' (dict_set flag value filters) commands out
              else if existsb (String.eqb flag) command_flags then
                if dict_mem flag commands then
                  collect_loop rest' filters commands
                    (out ++ ["Duplicate action flag: " ++ flag ++ ". Ignoring."])
                else
                  collect_loop rest' filters (dict_set flag value commands) out
              else (out, Raise (SystemExit ("Unknown flag: " ++ flag)))
            else
              (out, Raise (SystemExit
                             ("Missing argument value for flag: " ++ flag)))
        | [] =>
            (out, Raise (SystemExit
                           ("Missing argument value for flag: " ++ flag)))
        end
      else
        (out, Raise (SystemExit
           "Invalid flag. Please start flags with '--' followed by an argument."))
  end.

Definition collect_filters (args : list string) (index : nat)
  : printing (dict string * dict string) :=
  collect_loop (skipn index args) [] [] [].

(** *** filter_results *)

(** The inner loop over [filters.items()] for one movie, from the state
    [(match_all_filters, abort)].  The predicate is looked up and called
    only when [match_all_filters] is still true; a [ValueError] is
    caught and reported, any other exception leaves the method. *)
Fixpoint match_filters (movie : MovieMetric) (filters : dict string)
         (match_all_filters : pyval) (abort : bool) (out : list string)
  : printing (pyval * bool) :=
  match filters with
  | [] => (out, Ok (match_all_filters, abort))
  | (flag, value) :: rest =>
      if truthy match_all_filters then
        match dict_get flag flag_map with
        | None => (out, Raise KeyError)
        | Some pred =>
            match pred movie value with
            | Ok v => match_filters movie rest v abort out
            | Raise ValueError =>
                match_filters movie rest match_all_filters true
                  (out ++ ["Error: " ++ value
                           ++ " is not a valid argument for flag "
                           ++ flag ++ "."])
            | Raise e => (out, Raise e)
            end
        end
      else match_filters movie rest match_all_filters abort out
  end.

Fixpoint filter_loop (movies : list MovieMetric) (filters : dict string)
         (results : list MovieMetric) (out : list string)
  : printing (list MovieMetric) :=
  match movies with
  | [] => (out, Ok results)
  | movie :: rest =>
      match match_filters movie filters (PyBool true) false out with
      | (out', Raise e) => (out', Raise e)
      | (out', Ok (match_all_filters, abort)) =>
          if abort then
            (out', Raise (SystemExit "Please fix the error and try again."))
          else if truthy match_all_filters then
            filter_loop rest filters (results ++ [movie]) out'
          else
            filter_loop rest filters results out'
      end
  end.

Definition filter_results (movies : list MovieMetric) (filters : dict string)
  : printing (list MovieMetric) :=
  filter_loop movies filters [] [].

(** The filtering step of [run_movie_query]: [filter_results] is called
    only for a non-empty [filters]. *)
Definition run_filters (movies : list MovieMetric) (filters : dict string)
  : printing (list MovieMetric) :=
  match filters with
  | [] => ([], Ok movies)
  | _ =>
      match filter_results movies filters with
      | (out, Ok results) =>
          (app out ["Found " ++ str_of_len results
                    ++ " movies matching the filter flags"],
           Ok results)
      | r => r
      end
  end.

End MovieQuery.

(** ** Vocabulary of the statements *)

(** [l1] is [l2] with some elements left out, the others in their order. *)
Inductive subseq {A : Type} : list A -> list A -> Prop :=
| subseq_nil : subseq [] []
| subseq_skip x l1 l2 : subseq l1 l2 -> subseq l1 (x :: l2)
| subseq_keep x l1 l2 : subseq l1 l2 -> subseq (x :: l1) (x :: l2).

(** The field of the record that the lambda of a flag reads first. *)
Inductive field_ref : Type :=
| IntField (f : MovieMetric -> option Z)
| FloatField (f : MovieMetric -> option float)
| StrField (f : MovieMetric -> option string)
| Title
| Stars.

Definition inspects : dict field_ref := [
  ("--year-before", IntField released_year);
  ("--year-after", IntField released_year);
  ("--rating-above", FloatField imdb_rating);
  ("--rating-below", FloatField imdb_rating);
  ("--runtime-above", IntField runtime);
  ("--runtime-below", IntField runtime);
  ("--gross-above", IntField gross);
  ("--gross-below", IntField gross);
  ("--score-above", IntField meta_score);
  ("--score-below", IntField meta_score);
  ("--votes-above", IntField no_of_votes);
  ("--votes-below", IntField no_of_votes);
  ("--title", Title);
  ("--director", StrField director);
  ("--actor", Stars);
  ("--genre", StrField genre);
  ("--age-rating", StrField certificate)
].

Definition is_none {A} (o : option A) : bool :=
  match o with
  | None => true
  | Some _ => false
  end.

(** The inspected field has no value.  [series_title] is a plain [str]
    and always has one. *)
Definition absent (r : field_ref) (m : MovieMetric) : bool :=
  match r with
  | IntField f => is_none (f m)
  | FloatField f => is_none (f m)
  | StrField f => is_none (f m)
  | Title => false
  | Stars =>
      is_none m.(star_1) || is_none m.(star_2)
      || is_none m.(star_3) || is_none m.(star_4)
  end.

(** The twelve numeric comparison flags. *)
Definition numeric_flags : list string := [
  "--year-before"; "--year-after"; "--rating-above"; "--rating-below";
  "--runtime-above"; "--runtime-below"; "--gross-above"; "--gross-below";
  "--score-above"; "--score-below"; "--votes-above"; "--votes-below"
].

(** The raw argument parses to a threshold that the inspected field
    equals: the same number, or for floats also equal under [==]. *)
Definition at_threshold (float_of_str : string -> result float)
           (r : field_ref) (m : MovieMetric) (raw : string) : Prop :=
  match r with
  | IntField f => exists t, int_of_str raw = Ok t /\ f m = Some t
  | FloatField f =>
      exists t v, float_of_str raw = Ok t /\ f m = Some v /\
                  (v = t \/ (v =? t)%float = true)
  | _ => False
  end.

(** The record passes every filter of the set: each lambda returns, and
    returns a true value. *)
Definition keeps (float_of_str : string -> result float)
           (filters : dict string) (m : MovieMetric) : bool :=
  forallb (fun fv : string * string =>
             match dict_get (fst fv) (flag_map float_of_str) with
             | Some pred =>
                 match pred m (snd fv) with
                 | Ok v => truthy v
                 | Raise _ => false
                 end
             | None => false
             end) filters.

(** Every lambda of the filter set returns on the record. *)
Definition evaluates (float_of_str : string -> result float)
           (filters : dict string) (m : MovieMetric) : Prop :=
  Forall (fun fv : string * string =>
            exists pred v,
              dict_get (fst fv) (flag_map float_of_str) = Some pred /\
              pred m (snd fv) = Ok v) filters.

(** The argument vector as (flag, value) pairs. *)
Fixpoint flatten (pairs : list (string * string)) : list string :=
  match pairs with
  | [] => []
  | (flag, value) :: t => flag :: value :: flatten t
  end.

Definition is_filter_flag (float_of_str : string -> result float)
           (flag : string) : bool :=
  dict_mem flag (flag_map float_of_str).

Definition is_command_flag (float_of_str : string -> result float)
           (flag : string) : bool :=
  negb (is_filter_flag float_of_str flag)
  && existsb (String.eqb flag) command_flags.

(** A pair that [collect_filters] accepts: a known flag that starts with
    "--" and a value that does not. *)
Definition well_formed (float_of_str : string -> result float)
           (fv : string * string) : bool :=
  startswith (fst fv) "--" && negb (startswith (snd fv) "--")
  && (is_filter_flag float_of_str (fst fv)
      || is_command_flag float_of_str (fst fv)).

(** The command flags of the pairs that occur for the second time or
    more, [seen] being the flags met so far. *)
Fixpoint repeated (float_of_str : string -> result float)
         (seen : list string) (pairs : list (string * string)) : list string :=
  match pairs with
  | [] => []
  | (flag, _) :: t =>
      if is_command_flag float_of_str flag && existsb (String.eqb flag) seen
      then flag :: repeated float_of_str seen t
      else repeated float_of_str (flag :: seen) t
  end.

Definition duplicate_message (flag : string) : string :=
  "Duplicate action flag: " ++ flag ++ ". Ignoring.".

(** The field a top-ten criterion needs is absent from the record. *)
Definition missing_for : dict (MovieMetric -> bool) := [
  ("highest-rated", fun m => is_none m.(imdb_rating));
  ("most-popular", fun m => is_none m.(no_of_votes));
  ("highest-grossing", fun m => is_none m.(gross));
  ("longest-runtime", fun m => is_none m.(runtime));
  ("hidden-gems", fun m => is_none m.(imdb_rating) || is_none m.(no_of_votes))
].

(** [imdb_rating / no_of_votes], the ratio that "hidden gems" names. *)
Definition rating_per_vote (m : MovieMetric) : result float :=
  match m.(imdb_rating) with
  | Some r => div_float_int r m.(no_of_votes)
  | None => Raise TypeError
  end.

(** *** Order of the floats

    [SFcompare] orders the floats that are not NaN as the triples
    [rank] under the lexicographic order. *)
Definition rank (x : spec_float) : Z * Z * Z :=
  match x with
  | S754_nan => (0, 0, 0)
  | S754_zero _ => (0, 0, 0)
  | S754_infinity true => (-2, 0, 0)
  | S754_infinity false => (2, 0, 0)
  | S754_finite true m e => (-1, - e, - Z.pos m)
  | S754_finite false m e => (1, e, Z.pos m)
  end.

Definition lex_cmp (p q : Z * Z * Z) : comparison :=
  let '(a, b, c) := p in
  let '(a', b', c') := q in
  match a ?= a' with
  | Eq => match b ?= b' with Eq => c ?= c' | r => r end
  | r => r
  end.

Definition lex_lt (p q : Z * Z * Z) : Prop :=
  let '(a, b, c) := p in
  let '(a', b', c') := q in
  a < a' \/ (a = a' /\ (b < b' \/ (b = b' /\ c < c'))).

(** A float that is not a NaN. *)
Definition ordered (f : float) : Prop := (f =? f)%float = true.

(** The hidden-gems key of the record can be computed and is a number. *)
Definition rankable (m : MovieMetric) : Prop :=
  exists k, hidden_gems_key m = Ok k /\ ordered k.

(** [x] may stand before [y]: by key [-rating/votes] ascending, and by
    [rating/votes] descending. *)
Definition gem_key_le (x y : MovieMetric) : Prop :=
  exists kx ky,
    hidden_gems_key x = Ok kx /\ hidden_gems_key y = Ok ky /\
    (kx <=? ky)%float = true.

Definition ratio_ge (x y : MovieMetric) : Prop :=
  exists rx ry,
    rating_per_vote x = Ok rx /\ rating_per_vote y = Ok ry /\
    (ry <=? rx)%float = true.

(** The records whose key equals [k] under [==]. *)
Definition same_gem_key (k : float) (m : MovieMetric) : bool :=
  match hidden_gems_key m with
  | Ok k' => (k' =? k)%float
  | Raise _ => false
  end.

(** [<] on optional keys when both are present. *)
Definition ltb_opt (a b : option float) : bool :=
  match a, b with
  | Some x, Some y => (x <? y)%float
  | _, _ => false
  end.

(** The record has a rating, and it is a number. *)
Definition rated (m : MovieMetric) : Prop :=
  exists r, m.(imdb_rating) = Some r /\ ordered r.

(** [x] may stand before [y] by rating descending. *)
Definition rating_ge (x y : MovieMetric) : Prop :=
  exists rx ry,
    x.(imdb_rating) = Some rx /\ y.(imdb_rating) = Some ry /\
    (ry <=? rx)%float = true.

Definition same_rating (r : float) (m : MovieMetric) : bool :=
  match m.(imdb_rating) with
  | Some r' => (r' =? r)%float
  | None => false
  end.

(** *** The sort when no comparison raises *)
Section PureSort.
Context {K A : Type}.
Variable ltb : K -> K -> bool.

Fixpoint insert_by (x : K * A) (l : list (K * A)) : list (K * A) :=
  match l with
  | [] => [x]
  | y :: t => if ltb (fst y) (fst x) then y :: insert_by x t else x :: y :: t
  end.

Fixpoint isort_by (l : list (K * A)) : list (K * A) :=
  match l with
  | [] => []
  | x :: t => insert_by x (isort_by t)
  end.

(** No key further right is less than one further left. *)
Definition ascending (x y : K * A) : Prop := ltb (fst y) (fst x) = false.
End PureSort.

(** The keys of a dictionary are distinct and all pass [known], and no
    value looks like a flag. *)
Definition classified (known : string -> bool) (d : dict string) : Prop :=
  NoDup (map fst d) /\
  forall k v, In (k, v) d -> known k = true /\ startswith v "--" = false.

(** [float(s)] raises nothing but [ValueError]. *)
Definition float_raises_value_error (float_of_str : string -> result float)
  : Prop :=
  forall s e, float_of_str s = Raise e -> e = ValueError.


(** The int criteria of the top-ten table and the field each ranks by. *)
Definition ranks_by : dict (MovieMetric -> option Z) := [
  ("most-popular", no_of_votes);
  ("highest-grossing", gross);
  ("longest-runtime", runtime)
].

(** [x] may stand before [y] when ranking by [field] descending. *)
Definition field_ge (field : MovieMetric -> option Z) (x y : MovieMetric)
  : Prop :=
  exists a b, field x = Some a /\ field y = Some b /\ b <= a.

Definition same_field (field : MovieMetric -> option Z) (k : Z)
           (m : MovieMetric) : bool :=
  match field m with
  | Some a => a =? k
  | None => false
  end.

(** ** generate_year_insights *)

Definition year_eq_dec (x y : option Z) : {x = y} + {x <> y}.
Proof. decide equality. apply Z.eq_dec. Defined.

(** [{movie.released_year for movie in movies}], [None] included. *)
Definition year_set (movies : list MovieMetric) : list (option Z) :=
  nodup year_eq_dec (map released_year movies).

(** [year == movie.released_year] *)
Definition year_eqb (x y : option Z) : bool :=
  if year_eq_dec x y then true else false.

(** One turn of the inner loop for the group [year]. *)
Definition year_row (year : option Z) (acc : sums) (movie : MovieMetric)
  : result sums :=
  if year_eqb year movie.(released_year)
     && truthy (of_opt PyFloat movie.(imdb_rating))
     && truthy (of_opt PyInt movie.(gross))
     && truthy (of_opt PyInt movie.(runtime))
  then match movie.(imdb_rating), movie.(gross), movie.(runtime) with
       | Some r, Some gr, Some rt =>
           Ok {| sum_rating := (acc.(sum_rating) + r)%float;
                 sum_gross := acc.(sum_gross) + gr;
                 sum_runtime := acc.(sum_runtime) + rt;
                 total := acc.(total) + 1 |}
       | _, _, _ => Raise TypeError
       end
  else Ok acc.

Record year_stat : Type := {
  stat_year : option Z;
  year_average_rating : float;
  year_average_gross : Z;
  year_average_runtime : Z
}.

Definition year_group (movies : list MovieMetric) (year : option Z)
  : result (list year_stat) :=
  s <- foldM (year_row year) movies no_sums ;;
  if 0 <? s.(total)
  then avg <- div_float_int s.(sum_rating) (Some s.(total)) ;;
       Ok [ {| stat_year := year;
               year_average_rating := avg;
               year_average_gross := s.(sum_gross) / s.(total);
               year_average_runtime := s.(sum_runtime) / s.(total) |} ]
  else Ok [].

(** The list [stats] after [stats.sort(key=lambda s: -s["year"])], which
    the method then prints line by line. *)
Definition generate_year_insights (movies : list MovieMetric)
  : result (list year_stat) :=
  per_year <- mapM (year_group movies) (year_set movies) ;;
  sorted lt_Z (fun s => neg_int s.(stat_year)) (List.concat per_year).

(** The record has a rating, a gross and a runtime that count as true:
    it enters the sums of its group. *)
Definition qualifies (m : MovieMetric) : bool :=
  truthy (of_opt PyFloat m.(imdb_rating))
  && truthy (of_opt PyInt m.(gross))
  && truthy (of_opt PyInt m.(runtime)).

(** The string holds no comma. *)
Definition comma_free (s : string) : Prop :=
  ~ In ","%char (list_ascii_of_string s).

(** [a] stands before [b] by year, strictly descending. *)
Definition year_gt (a b : year_stat) : Prop :=
  exists ya yb, a.(stat_year) = Some ya /\ b.(stat_year) = Some yb /\ yb < ya.

(** ** The validators of the record model *)

(** The string goes on with a character that is no whitespace. *)
Definition in_word (s : string) : bool :=
  match s with
  | String c _ => negb (is_space c)
  | EmptyString => false
  end.

(** [s.split()]: the words between runs of whitespace. *)
Fixpoint words (s : string) : list string :=
  match s with
  | EmptyString => []
  | String c r =>
      if is_space c then words r
      else if in_word r then
             match words r with
             | w :: ws => String c w :: ws
             | [] => [String c EmptyString]
             end
           else String c EmptyString :: words r
  end.

(** [s.replace(c, "")] for a one-character [c]. *)
Fixpoint remove_char (c : ascii) (s : string) : string :=
  match s with
  | EmptyString => EmptyString
  | String a r =>
      if Ascii.eqb a c then remove_char c r else String a (remove_char c r)
  end.

Fixpoint all_chars (p : ascii -> bool) (s : string) : bool :=
  match s with
  | EmptyString => true
  | String c r => p c && all_chars p r
  end.

Definition is_digit (c : ascii) : bool :=
  match digit_of c with
  | Some _ => true
  | None => false
  end.

(** [s.isnumeric()] on a string of the ASCII range: at least one
    character, and decimal digits only. *)
Definition isnumeric (s : string) : bool :=
  negb (s =? "")%string && all_chars is_digit s.

(** The string lies in the ASCII range. *)
Definition is_ascii (s : string) : bool :=
  all_chars (fun c => (N_of_ascii c <? 128)%N) s.

(** How a "before" validator ends on a raw cell: with the value for the
    field, with the [IndexError] of [value.split()[0]], or with the
    exception of a builtin it called. *)
Inductive validated (A : Type) : Type :=
| Value (a : A)
| IndexError
| Failed (e : exn).
Arguments Value {A} a.
Arguments IndexError {A}.
Arguments Failed {A} e.

Definition of_int_result (r : result Z) : validated (option Z) :=
  match r with
  | Ok z => Value (Some z)
  | Raise e => Failed e
  end.

(** A raw cell is a string, or [None] when the row is short.  [if value]
    holds for a string that is not empty. *)
Definition cell_true (value : option string) : option string :=
  match value with
  | Some s => if truthy (PyStr s) then Some s else None
  | None => None
  end.

(** [int(value.split()[0]) if value else None] *)
Definition extract_runtime (value : option string) : validated (option Z) :=
  match cell_true value with
  | Some s =>
      match words s with
      | w :: _ => of_int_result (int_of_str w)
      | [] => IndexError
      end
  | None => Value None
  end.

(** [int(value.replace(',', '')) if value else None] *)
Definition format_gross (value : option string) : validated (option Z) :=
  match cell_true value with
  | Some s => of_int_result (int_of_str (remove_char "," s))
  | None => Value None
  end.

(** [int(value) if value and value.isnumeric() else None] *)
Definition format_meta_score (value : option string)
  : validated (option Z) :=
  match cell_true value with
  | Some s => if isnumeric s then of_int_result (int_of_str s) else Value None
  | None => Value None
  end.

Definition format_released_year (value : option string)
  : validated (option Z) :=
  match cell_true value with
  | Some s => if isnumeric s then of_int_result (int_of_str s) else Value None
  | None => Value None
  end.

(** [str(z)] for an [int]. *)
Definition str_of_int (z : Z) : string := NilZero.string_of_int (Z.to_int z).

(** What [csv.DictWriter] writes for an optional [int]: nothing for
    [None], [str(z)] otherwise. *)
Definition csv_cell (o : option Z) : string :=
  match o with
  | Some z => str_of_int z
  | None => EmptyString
  end.

(** The value of a decimal numeral read after [acc]. *)
Fixpoint uint_value (d : Decimal.uint) (acc : Z) : Z :=
  match d with
  | Decimal.Nil => acc
  | Decimal.D0 l => uint_value l (10 * acc)
  | Decimal.D1 l => uint_value l (10 * acc + 1)
  | Decimal.D2 l => uint_value l (10 * acc + 2)
  | Decimal.D3 l => uint_value l (10 * acc + 3)
  | Decimal.D4 l => uint_value l (10 * acc + 4)
  | Decimal.D5 l => uint_value l (10 * acc + 5)
  | Decimal.D6 l => uint_value l (10 * acc + 6)
  | Decimal.D7 l => uint_value l (10 * acc + 7)
  | Decimal.D8 l => uint_value l (10 * acc + 8)
  | Decimal.D9 l => uint_value l (10 * acc + 9)
  end.

(** ** Output and the whole run *)

(** [name.split(".")[-1]] *)
Definition extension (name : string) : string :=
  last (split "." name) EmptyString.

Inductive file_format : Type := Json | Csv | Text.

(** The branch of [print_output] that a file name selects. *)
Definition format_of (filename : string) : file_format :=
  if (extension filename =? "json")%string then Json
  else if (extension filename =? "csv")%string then Csv
  else Text.

(** What a run lets the outside see, in order: a printed line, the
    listing [print(movies)], a file written in one of the three formats,
    and the lines of the two kinds of insights. *)
Inductive event : Type :=
| Printed (line : string)
| Listed (movies : list MovieMetric)
| Written (filename : string) (format : file_format)
        (movies : list MovieMetric)
| GenreInsights (stats : list stat)
| YearInsights (stats : list year_stat).

Definition running (A : Type) : Type := list event * result A.

(** The string holds no dot. *)
Definition dot_free (s : string) : Prop :=
  ~ In "."%char (list_ascii_of_string s).

Section Commands.

(** The file system: what reading a path gives, and for a path that
    cannot be written the text of the exception. *)
Variable read_file : string -> read_outcome.
Variable write_error : string -> option string.
Variable float_of_str : string -> result float.

(** [print_output]: any exception while writing becomes an exit. *)
Definition print_output (movies : list MovieMetric) (filename : string)
  : running unit :=
  match write_error filename with
  | None => ([Written filename (format_of filename) movies], Ok tt)
  | Some e =>
      ([], Raise (SystemExit ("Error writing to json file '" ++ filename
                              ++ "': " ++ e)))
  end.

(** [print(movies)]: the text is built from [__repr__] of every record,
    which joins the four stars and raises [TypeError] on a missing one;
    nothing is printed then. *)
Definition print_movies (movies : list MovieMetric) : running unit :=
  if existsb (absent Stars) movies then ([], Raise TypeError)
  else ([Listed movies], Ok tt).

(** The output step of [perform_commands]. *)
Definition perform_output (movies : list MovieMetric) (commands : dict string)
  : running unit :=
  match dict_get "--output" commands with
  | Some filename =>
      match print_output movies filename with
      | (ev, Ok _) =>
          (app ev [Printed ("Printed " ++ str_of_len movies
                          ++ " movies to file " ++ filename)], Ok tt)
      | r => r
      end
  | None =>
      match print_movies movies with
      | (ev, Ok _) =>
          (app ev [Printed ("Printed " ++ str_of_len movies
                          ++ " movies to terminal")], Ok tt)
      | r => r
      end
  end.

(** The insights step: [self.insights_map[value](movies)]. *)
Definition perform_insights (movies : list MovieMetric)
           (commands : dict string) : running unit :=
  match dict_get "--insights" commands with
  | Some value =>
      if (value =? "genre")%string then
        match generate_genre_insights movies with
        | Ok stats =>
            ([Printed "Printing insights by genre:"; GenreInsights stats],
             Ok tt)
        | Raise e => ([], Raise e)
        end
      else if (value =? "year")%string then
        match generate_year_insights movies with
        | Ok stats =>
            ([Printed "Printing insights by year:"; YearInsights stats],
             Ok tt)
        | Raise e => ([], Raise e)
        end
      else ([], Raise (SystemExit ("Unknown value: " ++ value)))
  | None => ([], Ok tt)
  end.

Definition perform_commands (movies : list MovieMetric)
           (commands : dict string) : running unit :=
  match perform_top_ten movies commands with
  | Raise e => ([], Raise e)
  | Ok movies' =>
      match perform_output movies' commands with
      | (ev, Raise e) => (ev, Raise e)
      | (ev, Ok _) =>
          let '(ev', r) := perform_insights movies' commands in
          (app ev ev', r)
      end
  end.

(** [run_movie_query] on the arguments [arg0 :: rest]; the caller never
    passes an empty list. *)
Definition run_movie_query (arg0 : string) (rest : list string)
  : running unit :=
  let '(ev0, path, index) :=
    if startswith arg0 "--" then
      ([Printed "File Missing. Using default data file."],
       "imdb_top_1000.csv", 0%nat)
    else if (extension arg0 =? "csv")%string then ([], arg0, 1%nat)
    else ([Printed "Invalid file format. Using default data file."],
          "imdb_top_1000.csv", 0%nat) in
  match load_movies path (read_file path) with
  | Raise e => (ev0, Raise e)
  | Ok movies =>
      match collect_filters float_of_str (arg0 :: rest) index with
      | (out, Raise e) => (app ev0 (map Printed out), Raise e)
      | (out, Ok (filters, commands)) =>
          match run_filters float_of_str movies filters with
          | (out', Raise e) =>
              (app ev0 (app (map Printed out) (map Printed out')), Raise e)
          | (out', Ok results) =>
              let '(ev, r) := perform_commands results commands in
              (app ev0 (app (map Printed out) (app (map Printed out') ev)), r)
          end
      end
  end.

End Commands.

(** ** Sample records *)

(** An instance of [float] for the examples: the literals that denote an
    integer. *)
Definition float_of_int_literal (s : string) : result float :=
  z <- int_of_str s ;; float_of_int z.

Definition movie (title : string) (genre_ : option string)
           (rating : option float) (votes gross_ runtime_ : option Z)
  : MovieMetric :=
  {| series_title := title;
     released_year := Some 1994;
     certificate := Some "A";
     runtime := runtime_;
     genre := genre_;
     imdb_rating := rating;
     overview := None;
     meta_score := Some 80;
     director := Some "Frank Darabont";
     star_1 := Some "Tim Robbins";
     star_2 := Some "Morgan Freeman";
     star_3 := Some "Bob Gunton";
     star_4 := Some "William Sadler";
     no_of_votes := votes;
     gross := gross_ |}.

Definition gem_a : MovieMetric :=
  movie "A" (Some "Drama, Comedy") (Some 9%float) (Some 100) (Some 1000)
        (Some 120).

Definition gem_b : MovieMetric :=
  movie "B" (Some "Drama") (Some 9%float) (Some 10) (Some 500) (Some 100).

Definition rated_8 : MovieMetric :=
  movie "C" (Some "Crime, Drama") (Some 8%float) (Some 2000) (Some 300)
        (Some 142).

(** A short row: every column after the title is missing. *)
Definition short_row : MovieMetric :=
  {| series_title := "D";
     released_year := None;
     certificate := None;
     runtime := None;
     genre := None;
     imdb_rating := None;
     overview := None;
     meta_score := None;
     director := None;
     star_1 := None;
     star_2 := None;
     star_3 := None;
     star_4 := None;
     no_of_votes := None;
     gross := None |}.

(** An instance of [float] that raises [ValueError] and nothing else:
    the literals that denote an integer, one too large for a float
    reading as infinity. *)
Definition float_of_whole_literal (s : string) : result float :=
  match int_of_str s with
  | Ok z =>
      match float_of_int z with
      | Ok f => Ok f
      | Raise _ => Ok infinity
      end
  | Raise e => Raise e
  end.

(** The record with another year of release. *)
Definition in_year (year : option Z) (m : MovieMetric) : MovieMetric :=
  {| series_title := m.(series_title);
     released_year := year;
     certificate := m.(certificate);
     runtime := m.(runtime);
     genre := m.(genre);
     imdb_rating := m.(imdb_rating);
     overview := m.(overview);
     meta_score := m.(meta_score);
     director := m.(director);
     star_1 := m.(star_1);
     star_2 := m.(star_2);
     star_3 := m.(star_3);
     star_4 := m.(star_4);
     no_of_votes := m.(no_of_votes);
     gross := m.(gross) |}.


(** A file system for the examples: every path reads as the same two
    rows, and every path can be written. *)
Definition two_rows (path : string) : read_outcome := Rows [rated_8; gem_a].

Definition writable (path : string) : option string := None.

(** ** Properties *)

Example lower_example : lower "Drama, Comedy" = "drama, comedy".
Proof. reflexivity. Qed.

Example split_example : split "," "drama, comedy" = ["drama"; " comedy"].
Proof. reflexivity. Qed.

Example int_examples :
  int_of_str "2000" = Ok 2000 /\ int_of_str " -1_000 " = Ok (-1000) /\
  int_of_str "8.5" = Raise ValueError /\ int_of_str "" = Raise ValueError /\
  int_of_str "1__0" = Raise ValueError /\ int_of_str "1_" = Raise ValueError.
Proof. repeat split; reflexivity. Qed.

Section FloatOrder.

Lemma SFcompare_rank x y :
  x <> S754_nan -> y <> S754_nan ->
  SFcompare x y = Some (lex_cmp (rank x) (rank y)).
Proof.
  intros Hx Hy.
  destruct x as [s|s| |s m e], y as [s'|s'| |s' m' e']; try congruence;
    try (destruct s; destruct s'; reflexivity);
    try (destruct s; reflexivity); try (destruct s'; reflexivity).
  destruct s, s'; simpl; try reflexivity.
  rewrite Z.compare_opp, (Z.compare_antisym e e').
  destruct (e ?= e'); reflexivity.
Qed.

Lemma lex_cmp_lt p q : lex_cmp p q = Lt <-> lex_lt p q.
Proof.
  destruct p as [[a b] c], q as [[a' b'] c']; unfold lex_cmp, lex_lt.
  destruct (Z.compare_spec a a'); destruct (Z.compare_spec b b');
    destruct (Z.compare_spec c c'); split; intros; try discriminate;
    try reflexivity; lia.
Qed.

Lemma lex_cmp_eq p q : lex_cmp p q = Eq <-> p = q.
Proof.
  destruct p as [[a b] c], q as [[a' b'] c']; unfold lex_cmp.
  destruct (Z.compare_spec a a'); destruct (Z.compare_spec b b');
    destruct (Z.compare_spec c c'); split; intros E; try discriminate;
    try reflexivity; try (injection E; lia); subst; reflexivity.
Qed.

Lemma lex_cmp_gt p q : lex_cmp p q = Gt <-> lex_lt q p.
Proof.
  destruct p as [[a b] c], q as [[a' b'] c']; unfold lex_cmp, lex_lt.
  destruct (Z.compare_spec a a'); destruct (Z.compare_spec b b');
    destruct (Z.compare_spec c c'); split; intros; try discriminate;
    try reflexivity; lia.
Qed.

Lemma SFcompare_nan_l y : SFcompare S754_nan y = None.
Proof. reflexivity. Qed.

Lemma SFcompare_nan_r x : SFcompare x S754_nan = None.
Proof. destruct x; reflexivity. Qed.

Lemma ordered_spec f : ordered f <-> Prim2SF f <> S754_nan.
Proof.
  unfold ordered. rewrite eqb_spec. unfold SFeqb.
  split.
  - intros H E. rewrite E in H. discriminate.
  - intros H. rewrite (SFcompare_rank H H).
    destruct (lex_cmp_eq (rank (Prim2SF f)) (rank (Prim2SF f))) as [_ E].
    rewrite E; reflexivity.
Qed.

Lemma ltb_rank a b :
  ordered a -> ordered b ->
  ((a <? b)%float = true <-> lex_lt (rank (Prim2SF a)) (rank (Prim2SF b))).
Proof.
  intros Ha Hb. apply ordered_spec in Ha, Hb.
  rewrite ltb_spec. unfold SFltb. rewrite (SFcompare_rank Ha Hb).
  rewrite <- lex_cmp_lt.
  destruct (lex_cmp _ _); split; intros; congruence.
Qed.

Lemma leb_rank a b :
  ordered a -> ordered b ->
  ((a <=? b)%float = true <-> ~ lex_lt (rank (Prim2SF b)) (rank (Prim2SF a))).
Proof.
  intros Ha Hb. apply ordered_spec in Ha, Hb.
  rewrite leb_spec. unfold SFleb. rewrite (SFcompare_rank Ha Hb).
  rewrite <- lex_cmp_gt.
  destruct (lex_cmp _ _); split; intros; congruence.
Qed.

Lemma eqb_rank a b :
  ordered a -> ordered b ->
  ((a =? b)%float = true <-> rank (Prim2SF a) = rank (Prim2SF b)).
Proof.
  intros Ha Hb. apply ordered_spec in Ha, Hb.
  rewrite eqb_spec. unfold SFeqb. rewrite (SFcompare_rank Ha Hb).
  rewrite <- lex_cmp_eq.
  destruct (lex_cmp _ _); split; intros; congruence.
Qed.

Lemma eqb_ordered a b : (a =? b)%float = true -> ordered a /\ ordered b.
Proof.
  rewrite eqb_spec. unfold SFeqb. intros H.
  split; apply ordered_spec; intros E; rewrite E in H;
    [rewrite SFcompare_nan_l in H | rewrite SFcompare_nan_r in H];
    discriminate.
Qed.

Lemma ltb_ordered a b : (a <? b)%float = true -> ordered a /\ ordered b.
Proof.
  rewrite ltb_spec. unfold SFltb. intros H.
  split; apply ordered_spec; intros E; rewrite E in H;
    [rewrite SFcompare_nan_l in H | rewrite SFcompare_nan_r in H];
    discriminate.
Qed.

(** [<] on floats is irreflexive, NaN included. *)
Lemma ltb_irrefl a : (a <? a)%float = false.
Proof.
  destruct (a <? a)%float eqn:E; [|reflexivity].
  destruct (ltb_ordered E) as [Ha _].
  apply (ltb_rank Ha Ha) in E.
  destruct (rank (Prim2SF a)) as [[x y] z]. simpl in E. lia.
Qed.

Lemma ltb_asym a b : (a <? b)%float = true -> (b <? a)%float = false.
Proof.
  intros E. destruct (ltb_ordered E) as [Ha Hb].
  destruct (b <? a)%float eqn:E'; [|reflexivity].
  apply (ltb_rank Ha Hb) in E. apply (ltb_rank Hb Ha) in E'.
  destruct (rank (Prim2SF a)) as [[x y] z], (rank (Prim2SF b)) as [[x' y'] z'].
  simpl in *. lia.
Qed.

(** Python's [==] on floats implies neither [<] nor [>]. *)
Lemma eqb_not_ltb a b :
  (a =? b)%float = true -> (a <? b)%float = false /\ (b <? a)%float = false.
Proof.
  intros E. destruct (eqb_ordered E) as [Ha Hb].
  apply (eqb_rank Ha Hb) in E.
  split.
  - destruct (a <? b)%float eqn:E'; [|reflexivity].
    apply (ltb_rank Ha Hb) in E'. rewrite E in E'.
    destruct (rank (Prim2SF b)) as [[x y] z]. simpl in E'. lia.
  - destruct (b <? a)%float eqn:E'; [|reflexivity].
    apply (ltb_rank Hb Ha) in E'. rewrite E in E'.
    destruct (rank (Prim2SF b)) as [[x y] z]. simpl in E'. lia.
Qed.

(** Among floats that are not NaN, "not greater" is transitive. *)
Lemma not_ltb_trans a b c :
  ordered a -> ordered b -> ordered c ->
  (b <? a)%float = false -> (c <? b)%float = false -> (c <? a)%float = false.
Proof.
  intros Ha Hb Hc H1 H2.
  destruct (c <? a)%float eqn:E; [|reflexivity].
  apply (ltb_rank Hc Ha) in E.
  assert (N1 : ~ lex_lt (rank (Prim2SF b)) (rank (Prim2SF a))).
  { intros L. apply (ltb_rank Hb Ha) in L. congruence. }
  assert (N2 : ~ lex_lt (rank (Prim2SF c)) (rank (Prim2SF b))).
  { intros L. apply (ltb_rank Hc Hb) in L. congruence. }
  destruct (rank (Prim2SF a)) as [[x y] z], (rank (Prim2SF b)) as [[x' y'] z'],
    (rank (Prim2SF c)) as [[x'' y''] z''].
  simpl in *. lia.
Qed.

Lemma not_ltb_leb a b :
  ordered a -> ordered b -> ((b <? a)%float = false <-> (a <=? b)%float = true).
Proof.
  intros Ha Hb. rewrite (leb_rank Ha Hb).
  split.
  - intros H L. apply (ltb_rank Hb Ha) in L. congruence.
  - intros H. destruct (b <? a)%float eqn:E; [|reflexivity].
    apply (ltb_rank Hb Ha) in E. contradiction.
Qed.

(** *** Negation and division *)

Lemma rank_opp x :
  rank (SFopp x) = (let '(a, b, c) := rank x in (- a, - b, - c)).
Proof. destruct x as [s|s| |s m e]; try destruct s; simpl; try reflexivity.
  rewrite Z.opp_involutive. reflexivity. Qed.

Lemma opp_ordered a : ordered a -> ordered (- a)%float.
Proof.
  rewrite !ordered_spec, opp_spec. destruct (Prim2SF a); simpl; congruence.
Qed.

Lemma binary_round_aux_opp s m e l :
  binary_round_aux prec emax (negb s) m e l =
  SFopp (binary_round_aux prec emax s m e l).
Proof.
  unfold binary_round_aux.
  destruct (shr_fexp prec emax m e l) as [mrs' e'].
  destruct (shr_fexp prec emax _ e' loc_Exact) as [mrs'' e''].
  destruct (shr_m mrs''); try reflexivity.
  destruct (e'' <=? emax - prec); reflexivity.
Qed.

Lemma SFdiv_opp_l x y :
  SF64div (SFopp x) y = SFopp (SF64div x y).
Proof.
  unfold SF64div.
  destruct x as [s|s| |s m e], y as [s'|s'| |s' m' e']; simpl;
    try reflexivity; try (rewrite <- negb_xorb_l; reflexivity).
  destruct (SFdiv_core_binary prec emax (Z.pos m) e (Z.pos m') e') as [[mz ez] lz].
  rewrite <- negb_xorb_l. apply binary_round_aux_opp.
Qed.

Lemma div_opp_l a d : (- a / d)%float = (- (a / d))%float.
Proof.
  apply Prim2SF_inj.
  rewrite div_spec, !opp_spec, div_spec. apply SFdiv_opp_l.
Qed.

Lemma leb_opp a b :
  ordered a -> ordered b -> (- a <=? - b)%float = (b <=? a)%float.
Proof.
  intros Ha Hb.
  assert (Ha' := opp_ordered Ha). assert (Hb' := opp_ordered Hb).
  apply eq_true_iff_eq.
  rewrite (leb_rank Ha' Hb'), (leb_rank Hb Ha), !opp_spec, !rank_opp.
  destruct (rank (Prim2SF a)) as [[x y] z], (rank (Prim2SF b)) as [[x' y'] z'].
  simpl. lia.
Qed.

Lemma ordered_opp_inv a : ordered (- a)%float -> ordered a.
Proof.
  rewrite !ordered_spec, opp_spec. destruct (Prim2SF a); simpl; congruence.
Qed.
(** *** Rounding never makes a NaN of a sign and a magnitude *)

Lemma shr_1_nonneg mrs : 0 <= shr_m mrs -> 0 <= shr_m (shr_1 mrs).
Proof.
  destruct mrs as [m r s]. cbn.
  destruct m as [|p|p]; try destruct p; cbn; lia.
Qed.

Lemma iter_pos_shr_1_nonneg p mrs :
  0 <= shr_m mrs -> 0 <= shr_m (iter_pos shr_1 p mrs).
Proof.
  revert mrs. induction p as [p IH|p IH|]; intros mrs H; cbn.
  - apply IH, IH, shr_1_nonneg, H.
  - apply IH, IH, H.
  - apply shr_1_nonneg, H.
Qed.

Lemma shr_fexp_nonneg m e l :
  0 <= m -> 0 <= shr_m (fst (shr_fexp prec emax m e l)).
Proof.
  intros H. unfold shr_fexp, shr.
  assert (H0 : 0 <= shr_m (shr_record_of_loc m l))
    by (destruct l as [|[]]; exact H).
  destruct (_ - e) as [|p|p]; cbn [fst]; try exact H0.
  apply iter_pos_shr_1_nonneg, H0.
Qed.

Lemma round_nearest_even_nonneg m l : 0 <= m -> 0 <= round_nearest_even m l.
Proof.
  intros H. destruct l as [|[]]; cbn; try lia.
  destruct (Z.even m); lia.
Qed.

Lemma binary_round_aux_not_nan s m e l :
  0 <= m -> binary_round_aux prec emax s m e l <> S754_nan.
Proof.
  intros H. unfold binary_round_aux.
  pose proof (shr_fexp_nonneg e l H) as H1.
  destruct (shr_fexp prec emax m e l) as [mrs' e']. cbn [fst] in H1.
  pose proof (shr_fexp_nonneg e' loc_Exact
                (round_nearest_even_nonneg (loc_of_shr_record mrs') H1)) as H2.
  destruct (shr_fexp prec emax _ e' loc_Exact) as [mrs'' e'']. cbn [fst] in H2.
  destruct (shr_m mrs''); try discriminate.
  - destruct (_ <=? _); discriminate.
  - lia.
Qed.

Lemma binary_round_not_nan s m e : binary_round prec emax s m e <> S754_nan.
Proof.
  unfold binary_round. destruct (shl_align _ _ _) as [mz ez].
  apply binary_round_aux_not_nan. lia.
Qed.

Lemma binary_normalize_not_nan m e sz :
  binary_normalize prec emax m e sz <> S754_nan.
Proof.
  destruct m; cbn; try discriminate; apply binary_round_not_nan.
Qed.

Lemma SF2Prim_ordered x : x <> S754_nan -> ordered (SF2Prim x).
Proof.
  intros Hx. apply ordered_spec.
  destruct x as [[|]|[|]| |s m e]; try congruence; try (vm_compute; discriminate).
  unfold SF2Prim.
  assert (H : Prim2SF (Z.ldexp (of_uint63 (Uint63.of_Z (Z.pos m))) e) <> S754_nan).
  { rewrite Z_ldexp_spec, of_uint63_spec.
    pose proof (binary_normalize_not_nan (Uint63.to_Z (Uint63.of_Z (Z.pos m))) 0 false) as Hn.
    destruct (binary_normalize _ _ _ _ _) as [| | |s' m' e']; cbn; try congruence; try discriminate.
    apply binary_round_not_nan. }
  destruct s; [rewrite opp_spec|]; [|exact H].
  destruct (Prim2SF _); cbn; congruence.
Qed.

Lemma SFdiv_finite_not_nan s m e y :
  y <> S754_nan -> SF64div (S754_finite s m e) y <> S754_nan.
Proof.
  intros Hy. unfold SF64div, SFdiv.
  destruct y as [s'|s'| |s' m' e']; try congruence; try discriminate.
  unfold SFdiv_core_binary.
  set (m1 := match _ - _ with Z0 => Z.pos m | Z.pos _ => Z.shiftl (Z.pos m) _ | Z.neg _ => 0 end).
  assert (H1 : 0 <= m1).
  { unfold m1. destruct (_ - _); try lia. apply Z.shiftl_nonneg. lia. }
  pose proof (Z_div_mod m1 (Z.pos m') ltac:(lia)) as Hd.
  destruct (Z.div_eucl m1 (Z.pos m')) as [q r].
  apply binary_round_aux_not_nan. nia.
Qed.
End FloatOrder.

(** *** The sort *)

Section SortProps.
Context {K A : Type}.
Variable lt : K -> K -> result bool.
Variable ltb : K -> K -> bool.
Variable good : K -> Prop.

Hypothesis lt_pure : forall a b, good a -> good b -> lt a b = Ok (ltb a b).

Let goodl : list (K * A) -> Prop := Forall (fun p => good (fst p)).

Lemma insert_pure (x : K * A) l :
  good (fst x) -> goodl l -> insert lt x l = Ok (insert_by ltb x l).
Proof.
  intros Hx Hl. induction Hl as [|y t Hy Ht IH]; simpl.
  - reflexivity.
  - rewrite (lt_pure Hy Hx). simpl.
    destruct (ltb (fst y) (fst x)); [|reflexivity].
    rewrite IH. reflexivity.
Qed.

Lemma insert_by_perm (x : K * A) l : Permutation (insert_by ltb x l) (x :: l).
Proof.
  induction l as [|y t IH]; simpl.
  - apply Permutation_refl.
  - destruct (ltb (fst y) (fst x)).
    + eapply perm_trans; [apply perm_skip, IH | apply perm_swap].
    + apply Permutation_refl.
Qed.

Lemma isort_by_perm (l : list (K * A)) : Permutation (isort_by ltb l) l.
Proof.
  induction l as [|x t IH]; simpl.
  - apply perm_nil.
  - eapply perm_trans; [apply insert_by_perm | apply perm_skip, IH].
Qed.

Lemma goodl_isort l : goodl l -> goodl (isort_by ltb l).
Proof.
  intros H. eapply Permutation_Forall; [|exact H].
  apply Permutation_sym, isort_by_perm.
Qed.

Lemma isort_pure l : goodl l -> isort lt l = Ok (isort_by ltb l).
Proof.
  intros Hl. induction Hl as [|x t Hx Ht IH]; simpl.
  - reflexivity.
  - rewrite IH. simpl. apply insert_pure; [exact Hx | apply goodl_isort, Ht].
Qed.

(** Sortedness, from asymmetry and transitivity of "not less". *)
Hypothesis ltb_asym' : forall a b, ltb a b = true -> ltb b a = false.
Hypothesis not_ltb_trans' :
  forall a b c, good a -> good b -> good c ->
                ltb b a = false -> ltb c b = false -> ltb c a = false.

Lemma insert_by_sorted (x : K * A) l :
  good (fst x) -> goodl l ->
  StronglySorted (ascending ltb) l ->
  StronglySorted (ascending ltb) (insert_by ltb x l).
Proof.
  intros Hx Hl Hs. induction Hs as [|y t Hs IH Hy]; simpl.
  - constructor; constructor.
  - inversion Hl as [|? ? Gy Gt]; subst.
    destruct (ltb (fst y) (fst x)) eqn:E.
    + constructor; [apply IH, Gt|].
      eapply Permutation_Forall;
        [apply Permutation_sym, insert_by_perm|].
      constructor; [|exact Hy].
      unfold ascending. apply ltb_asym', E.
    + constructor; [constructor; assumption|].
      constructor; [exact E|].
      rewrite Forall_forall in *. intros z Hz.
      unfold ascending in *.
      apply not_ltb_trans' with (b := fst y); auto.
Qed.

Lemma isort_by_sorted l :
  goodl l -> StronglySorted (ascending ltb) (isort_by ltb l).
Proof.
  intros Hl. induction Hl as [|x t Hx Ht IH]; simpl.
  - constructor.
  - apply insert_by_sorted; [exact Hx | apply goodl_isort, Ht | exact IH].
Qed.

(** Stability: the elements of one class of keys keep their order. *)
Variable same : K -> bool.
Hypothesis same_not_lt :
  forall a b, same a = true -> same b = true -> ltb a b = false.

Let in_class (p : K * A) : bool := same (fst p).

Lemma insert_by_stable (x : K * A) l :
  filter in_class (insert_by ltb x l) = filter in_class (x :: l).
Proof.
  induction l as [|y t IH]; [reflexivity|].
  cbn [insert_by]. destruct (ltb (fst y) (fst x)) eqn:E; [|reflexivity].
  cbn [filter] in *. rewrite IH. unfold in_class.
  destruct (same (fst y)) eqn:Sy; [|reflexivity].
  destruct (same (fst x)) eqn:Sx; [|reflexivity].
  rewrite (same_not_lt Sy Sx) in E. discriminate.
Qed.

Lemma isort_by_stable (l : list (K * A)) :
  filter in_class (isort_by ltb l) = filter in_class l.
Proof.
  induction l as [|x t IH]; [reflexivity|].
  cbn [isort_by]. rewrite insert_by_stable. cbn [filter]. rewrite IH.
  reflexivity.
Qed.
End SortProps.

Section Decorate.
Context {K A : Type}.
Variable key : A -> result K.

Lemma decorate_ok l :
  (forall x, In x l -> exists k, key x = Ok k) ->
  exists d, decorate key l = Ok d /\ map snd d = l /\
            Forall (fun p => key (snd p) = Ok (fst p)) d.
Proof.
  induction l as [|x t IH]; intros H.
  - exists []. repeat split. constructor.
  - destruct (H x (or_introl eq_refl)) as [k Hk].
    destruct IH as [d [Hd [Hm Hf]]]; [intros; apply H; right; assumption|].
    exists ((k, x) :: d). unfold decorate in *. simpl.
    rewrite Hk. simpl. rewrite Hd. simpl.
    repeat split; [rewrite Hm; reflexivity|].
    constructor; assumption.
Qed.

Lemma decorate_raise l x e :
  In x l -> key x = Raise e -> exists e', decorate key l = Raise e'.
Proof.
  induction l as [|y t IH]; intros Hin Hx; [contradiction|].
  unfold decorate in *. simpl.
  destruct (key y) as [k|e0] eqn:Ey; [|eexists; reflexivity].
  destruct Hin as [->|Hin]; [congruence|].
  destruct (IH Hin Hx) as [e' ->]. eexists; reflexivity.
Qed.
End Decorate.

Lemma StronglySorted_map {A B} (R : A -> A -> Prop) (R' : B -> B -> Prop)
      (f : A -> B) (l : list A) :
  (forall x y, In x l -> In y l -> R x y -> R' (f x) (f y)) ->
  StronglySorted R l -> StronglySorted R' (map f l).
Proof.
  intros H Hs. induction Hs as [|x t Hs IH Hx]; simpl; constructor.
  - apply IH. intros; apply H; simpl; auto.
  - rewrite Forall_forall in *. intros y Hy.
    apply in_map_iff in Hy. destruct Hy as [z [<- Hz]].
    apply H; simpl; auto.
Qed.

Lemma filter_map_snd {K A} (f : A -> bool) (l : list (K * A)) :
  filter f (map snd l) = map snd (filter (fun p => f (snd p)) l).
Proof.
  induction l as [|p t IH]; [reflexivity|]. simpl.
  destruct (f (snd p)); simpl; rewrite IH; reflexivity.
Qed.

(** ** The claims *)

Section Claims.
Variable float_of_str : string -> result float.

Ltac field_eq H := cbv beta; rewrite H; cbn.

(** C1 (the code departs from it at [--genre Comedy]): on every record
    whose genre field is "Drama, Comedy" the [--genre] lambda matches
    [Drama] and rejects [Dra], and it rejects [Comedy] as well, because
    the second token of the split field is " comedy" with its leading
    space. *)
Theorem genre_filter_drama_comedy (m : MovieMetric) :
  m.(genre) = Some "Drama, Comedy" ->
  exists pred,
    dict_get "--genre" (flag_map float_of_str) = Some pred /\
    pred m "Drama" = Ok (PyBool true) /\
    pred m "Comedy" = Ok (PyBool false) /\
    pred m "Dra" = Ok (PyBool false).
Proof.
  intros Hg. eexists. split; [reflexivity|].
  repeat split; field_eq Hg; reflexivity.
Qed.

(** The tokens of a field are compared as they stand: the filter value
    that does match the second genre carries the space. *)
Lemma genre_filter_space_token (m : MovieMetric) :
  m.(genre) = Some "Drama, Comedy" ->
  exists pred,
    dict_get "--genre" (flag_map float_of_str) = Some pred /\
    pred m " Comedy" = Ok (PyBool true).
Proof.
  intros Hg. eexists. split; [reflexivity|]. field_eq Hg. reflexivity.
Qed.

(** C3 (the code departs from it): the groups of
    [generate_genre_insights] are keyed by whole genre fields, so a lone
    record whose genre field is "Drama, Comedy" enters no group at all
    and [stats] stays empty. *)
Theorem genre_insights_multi_genre_no_group (m : MovieMetric) :
  m.(genre) = Some "Drama, Comedy" ->
  generate_genre_insights [m] = Ok [].
Proof.
  intros Hg. unfold generate_genre_insights, genre_set. cbn [map nodup In].
  rewrite Hg. cbn [nodup mapM]. unfold genre_stat at 1.
  cbn [foldM]. unfold genre_row. rewrite Hg. reflexivity.
Qed.

(** [genre_row] raises nothing but the [AttributeError] of
    [movie.genre.split]. *)
Lemma genre_row_raise g acc m e :
  genre_row g acc m = Raise e -> e = AttributeError.
Proof.
  unfold genre_row. destruct (genre m) as [field|]; [|congruence].
  destruct (in_strs_opt g (split "," field));
    destruct (imdb_rating m) as [r|]; cbn; try discriminate;
    destruct (negb (r =? 0)%float); cbn; try discriminate;
    destruct (gross m) as [gr|]; cbn; try discriminate;
    destruct (negb (gr =? 0)); cbn; try discriminate;
    destruct (runtime m) as [rt|]; cbn; try discriminate;
    destruct (negb (rt =? 0)); cbn; discriminate.
Qed.

Lemma foldM_genre_row_absent g movies :
  (exists m, In m movies /\ m.(genre) = None) ->
  forall acc, foldM (genre_row g) movies acc = Raise AttributeError.
Proof.
  induction movies as [|m t IH]; intros [x [Hin Hx]] acc.
  - contradiction.
  - cbn [foldM].
    destruct (genre_row g acc m) as [acc'|e] eqn:E.
    + cbn. apply IH. destruct Hin as [->|Hin].
      * unfold genre_row in E. rewrite Hx in E. discriminate.
      * exists x. split; assumption.
    + cbn. rewrite (genre_row_raise _ _ _ E). reflexivity.
Qed.

Lemma genre_set_nonempty m movies : genre_set (m :: movies) <> [].
Proof.
  unfold genre_set. intros E.
  assert (H : In (genre m) (nodup genre_eq_dec (map genre (m :: movies)))).
  { apply nodup_In. left. reflexivity. }
  rewrite E in H. contradiction.
Qed.

(** C10: on every collection that holds a record without a genre,
    [generate_genre_insights] raises the [AttributeError] of
    [movie.genre.split]; nothing is skipped and no entry of [stats] is
    produced. *)
Theorem genre_insights_absent_genre_raises (movies : list MovieMetric) :
  (exists m, In m movies /\ m.(genre) = None) ->
  generate_genre_insights movies = Raise AttributeError.
Proof.
  intros H. unfold generate_genre_insights.
  destruct movies as [|m0 t]; [destruct H as [? [[] _]]|].
  destruct (genre_set (m0 :: t)) as [|g gs] eqn:E;
    [exfalso; exact (@genre_set_nonempty m0 t E)|].
  cbn [mapM]. unfold genre_stat at 1.
  rewrite (@foldM_genre_row_absent g _ H). reflexivity.
Qed.

(** *** The filter lambdas *)

Ltac pick_flag H :=
  unfold flag_map, numeric_flags in H; cbn [map fst In] in H;
  repeat (destruct H as [<-|H]); try contradiction.

Ltac falsy := eexists; split; [reflexivity|reflexivity].

(** C5: every lambda of [flag_map] except [--actor] returns a false
    value, and raises nothing, on a record whose inspected field is
    absent; the [--actor] lambda calls [lower] on all four star fields
    first and raises [AttributeError] as soon as one of them is
    absent. *)
Theorem null_safety_except_actor :
  (forall flag,
      In flag (map fst (flag_map float_of_str)) -> flag <> "--actor" ->
      exists pred ref,
        dict_get flag (flag_map float_of_str) = Some pred /\
        dict_get flag inspects = Some ref /\
        forall m value,
          absent ref m = true ->
          exists v, pred m value = Ok v /\ truthy v = false) /\
  (exists pred,
      dict_get "--actor" (flag_map float_of_str) = Some pred /\
      dict_get "--actor" inspects = Some Stars /\
      forall m actor,
        absent Stars m = true -> pred m actor = Raise AttributeError).
Proof.
  split.
  - intros flag Hin Hne. pick_flag Hin;
      try (exfalso; apply Hne; reflexivity);
      (eexists; eexists; split; [reflexivity|split; [reflexivity|]]);
      intros m value Hab; cbn in Hab; try discriminate;
      match type of Hab with
      | is_none ?f = true =>
          destruct f eqn:E; [discriminate|]; cbv beta; rewrite ?E; falsy
      end.
  - eexists. split; [reflexivity|split; [reflexivity|]].
    intros m actor Hab. cbn in Hab. cbv beta.
    destruct (star_1 m); [|reflexivity].
    destruct (star_2 m); [|reflexivity].
    destruct (star_3 m); [|reflexivity].
    destruct (star_4 m); [discriminate|reflexivity].
Qed.

Lemma and_int_at (t : Z) (k : unit -> result pyval) :
  (t <> 0 -> k tt = Ok (PyBool false)) ->
  exists v, and_ (PyInt t) k = Ok v /\ truthy v = false.
Proof.
  intros H. unfold and_. cbn. destruct (Z.eqb_spec t 0) as [->|Hn]; cbn.
  - falsy.
  - rewrite (H Hn). falsy.
Qed.

Lemma and_float_at (t : float) (k : unit -> result pyval) :
  k tt = Ok (PyBool false) ->
  exists v, and_ (PyFloat t) k = Ok v /\ truthy v = false.
Proof.
  intros H. unfold and_. cbn. destruct (t =? 0)%float eqn:E; cbn.
  - eexists. split; [reflexivity|]. cbn. rewrite E. reflexivity.
  - rewrite H. falsy.
Qed.

(** C7: each of the twelve numeric comparison lambdas rejects a record
    whose inspected field equals the threshold parsed from the raw
    argument: [<] and [>] are strict. *)
Theorem numeric_filters_strict (flag : string) :
  In flag numeric_flags ->
  exists pred ref,
    dict_get flag (flag_map float_of_str) = Some pred /\
    dict_get flag inspects = Some ref /\
    forall m raw,
      at_threshold float_of_str ref m raw ->
      exists v, pred m raw = Ok v /\ truthy v = false.
Proof.
  intros Hin. pick_flag Hin;
    (eexists; eexists; split; [reflexivity|split; [reflexivity|]]);
    intros m raw Hat; cbn in Hat; cbv beta.
  all: try (destruct Hat as [t [Hp Hf]]; rewrite Hf; cbn [of_opt];
            apply and_int_at; intros _; rewrite Hp; cbn;
            rewrite ?Z.gtb_ltb, Z.ltb_irrefl; reflexivity).
  all: destruct Hat as [t [v [Hp [Hf Heq]]]]; rewrite Hf; cbn [of_opt];
    apply and_float_at; rewrite Hp; cbn;
    destruct Heq as [->|Heq];
    [rewrite ltb_irrefl | rewrite (proj1 (eqb_not_ltb Heq)) ||
                          rewrite (proj2 (eqb_not_ltb Heq))];
    reflexivity.
Qed.

(** *** filter_results *)

Lemma subseq_filter {A} (f : A -> bool) (l : list A) : subseq (filter f l) l.
Proof.
  induction l as [|x t IH]; simpl; [constructor|].
  destruct (f x); constructor; exact IH.
Qed.

(** Once set, [abort] stays set. *)
Lemma match_filters_abort m filters :
  forall v out out' v' abort',
    match_filters float_of_str m filters v true out = (out', Ok (v', abort')) ->
    abort' = true.
Proof.
  induction filters as [|[flag value] rest IH]; intros v out out' v' abort' H;
    cbn [match_filters] in H.
  - congruence.
  - destruct (truthy v); [|eapply IH; eassumption].
    destruct (dict_get flag (flag_map float_of_str)) as [pred|]; [|congruence].
    destruct (pred m value) as [v1|[]]; try congruence;
      eapply IH; eassumption.
Qed.

(** A run of the inner loop that ends without [abort] printed nothing
    and leaves the conjunction of the truth values. *)
Lemma match_filters_ok m filters :
  forall v out out' v',
    match_filters float_of_str m filters v false out = (out', Ok (v', false)) ->
    out' = out /\ truthy v' = truthy v && keeps float_of_str filters m.
Proof.
  induction filters as [|[flag value] rest IH]; intros v out out' v' H;
    cbn [match_filters] in H.
  - injection H as <- <-. rewrite andb_true_r. split; reflexivity.
  - cbn [keeps forallb fst snd]. fold (keeps float_of_str rest m).
    destruct (truthy v) eqn:Tv.
    + destruct (dict_get flag (flag_map float_of_str)) as [pred|]; [|congruence].
      destruct (pred m value) as [v1|[]]; try congruence.
      * destruct (IH _ _ _ _ H) as [-> ->]. split; reflexivity.
      * apply match_filters_abort in H. discriminate.
    + destruct (IH _ _ _ _ H) as [-> ->]. rewrite Tv. split; reflexivity.
Qed.

Lemma match_filters_evaluates m filters :
  evaluates float_of_str filters m ->
  forall v abort out,
  exists v',
    match_filters float_of_str m filters v abort out = (out, Ok (v', abort)) /\
    truthy v' = truthy v && keeps float_of_str filters m.
Proof.
  intros He. induction He as [|[flag value] rest [pred [v1 [Hp Hv]]] Hr IH];
    intros v abort out; cbn [match_filters].
  - exists v. rewrite andb_true_r. split; reflexivity.
  - cbn [keeps forallb fst snd] in *. fold (keeps float_of_str rest m).
    rewrite Hp, Hv. destruct (truthy v) eqn:Tv.
    + destruct (IH v1 abort out) as [v' [E1 E2]]. exists v'.
      split; [exact E1|]. rewrite E2. reflexivity.
    + destruct (IH v abort out) as [v' [E1 E2]]. exists v'.
      split; [exact E1|]. rewrite E2, Tv. reflexivity.
Qed.

Lemma filter_loop_ok filters movies :
  forall results out out' res,
    filter_loop float_of_str movies filters results out = (out', Ok res) ->
    out' = out /\
    res = (results ++ filter (keeps float_of_str filters) movies)%list.
Proof.
  induction movies as [|m t IH]; intros results out out' res H;
    cbn [filter_loop] in H.
  - injection H as <- <-. rewrite app_nil_r. split; reflexivity.
  - destruct (match_filters float_of_str m filters (PyBool true) false out)
      as [o [[v abort]|e]] eqn:E; [|congruence].
    destruct abort; [congruence|].
    apply match_filters_ok in E. destruct E as [-> Tv]. cbn in Tv.
    cbn [filter]. rewrite <- Tv.
    destruct (truthy v); apply IH in H; destruct H as [-> ->].
    + rewrite <- app_assoc. split; reflexivity.
    + split; reflexivity.
Qed.

Lemma filter_loop_evaluates filters movies :
  (forall m, In m movies -> evaluates float_of_str filters m) ->
  forall results out,
    filter_loop float_of_str movies filters results out =
    (out, Ok (results ++ filter (keeps float_of_str filters) movies)%list).
Proof.
  induction movies as [|m t IH]; intros He results out; cbn [filter_loop].
  - rewrite app_nil_r. reflexivity.
  - destruct (match_filters_evaluates (He m (or_introl eq_refl))
                (PyBool true) false out) as [v [-> Tv]].
    cbn in Tv. cbn [filter]. rewrite <- Tv.
    destruct (truthy v);
      rewrite IH by (intros; apply He; right; assumption);
      [rewrite <- app_assoc|]; reflexivity.
Qed.

(** C8: whenever [filter_results] returns, the list it returns is the
    records that pass every filter, a subsequence of the input in the
    input's order; it does return when every lambda of the set
    evaluates on every record; and for an empty filter set the result
    is the input itself, from [filter_results] as from the call site in
    [run_movie_query]. *)
Theorem filter_results_subseq (movies : list MovieMetric)
        (filters : dict string) :
  (forall out results,
      filter_results float_of_str movies filters = (out, Ok results) ->
      results = filter (keeps float_of_str filters) movies /\
      subseq results movies) /\
  (forall out results,
      run_filters float_of_str movies filters = (out, Ok results) ->
      subseq results movies) /\
  ((forall m, In m movies -> evaluates float_of_str filters m) ->
   filter_results float_of_str movies filters =
   ([], Ok (filter (keeps float_of_str filters) movies))) /\
  filter_results float_of_str movies [] = ([], Ok movies) /\
  run_filters float_of_str movies [] = ([], Ok movies).
Proof.
  assert (Hsub : forall out results,
             filter_results float_of_str movies filters = (out, Ok results) ->
             results = filter (keeps float_of_str filters) movies /\
             subseq results movies).
  { intros out results H. unfold filter_results in H.
    apply filter_loop_ok in H. destruct H as [_ ->]. cbn [app].
    split; [reflexivity | apply subseq_filter]. }
  split; [exact Hsub|]. split; [|split; [|split]].
  - intros out results H. unfold run_filters in H.
    destruct filters as [|fv rest].
    + injection H as _ <-. clear. induction movies; constructor; assumption.
    + destruct (filter_results float_of_str movies (fv :: rest))
        as [o [r|e]] eqn:E; [|congruence].
      injection H as _ <-. exact (proj2 (Hsub _ _ eq_refl)).
  - intros He. unfold filter_results.
    rewrite (@filter_loop_evaluates filters movies He). reflexivity.
  - unfold filter_results.
    rewrite (@filter_loop_evaluates [] movies)
      by (intros; constructor).
    cbn [app]. f_equal. f_equal. clear.
    induction movies as [|m t IH]; [reflexivity|].
    cbn. f_equal. exact IH.
  - reflexivity.
Qed.

(** *** collect_filters *)

Section DictFacts.
Context {V : Type}.

Lemma dict_get_set (k k' : string) (v : V) (d : dict V) :
  dict_get k' (dict_set k v d) =
  if String.eqb k' k then Some v else dict_get k' d.
Proof.
  induction d as [|[k0 v0] t IH]; cbn [dict_set dict_get].
  - reflexivity.
  - destruct (String.eqb_spec k k0) as [->|Hk]; cbn [dict_get].
    + destruct (String.eqb k' k0); reflexivity.
    + rewrite IH. destruct (String.eqb_spec k' k0) as [->|Hk'];
        [|reflexivity].
      destruct (String.eqb_spec k0 k); [congruence|reflexivity].
Qed.

Lemma dict_get_app (k : string) (a b : dict V) :
  dict_get k (a ++ b)%list =
  match dict_get k a with
  | Some v => Some v
  | None => dict_get k b
  end.
Proof.
  induction a as [|[k0 v0] t IH]; cbn [app dict_get]; [reflexivity|].
  destruct (String.eqb k k0); [reflexivity|exact IH].
Qed.

Lemma dict_mem_set (k k' : string) (v : V) (d : dict V) :
  dict_mem k' (dict_set k v d) = String.eqb k' k || dict_mem k' d.
Proof.
  unfold dict_mem. rewrite dict_get_set.
  destruct (String.eqb k' k); reflexivity.
Qed.
End DictFacts.

Local Abbreviation filter_flag := (is_filter_flag float_of_str).
Local Abbreviation command_flag := (is_command_flag float_of_str).

(** The loop of [collect_filters] from any state: [seen] holds the
    flags met so far, among them every key of [commands]. *)
Lemma collect_loop_spec (pairs : list (string * string)) :
  Forall (fun fv => well_formed float_of_str fv = true) pairs ->
  forall filters commands out seen,
    (forall c, command_flag c = true ->
               dict_mem c commands = existsb (String.eqb c) seen) ->
    exists filters' commands',
      collect_loop float_of_str (flatten pairs) filters commands out =
      ((out ++ map duplicate_message (repeated float_of_str seen pairs))%list,
       Ok (filters', commands')) /\
      (forall f, filter_flag f = true ->
                 dict_get f filters' =
                 match dict_get f (rev pairs) with
                 | Some v => Some v
                 | None => dict_get f filters
                 end) /\
      (forall c, filter_flag c = false ->
                 dict_get c commands' =
                 match dict_get c commands with
                 | Some v => Some v
                 | None => dict_get c pairs
                 end).
Proof.
  intros Hwf. induction Hwf as [|[flag value] t Hfv Ht IH];
    intros filters commands out seen Hseen.
  - exists filters, commands. cbn. rewrite app_nil_r.
    repeat split; intros; destruct (dict_get _ _); reflexivity.
  - unfold well_formed in Hfv. cbn [fst snd] in Hfv.
    apply andb_prop in Hfv. destruct Hfv as [Hfv Hkind].
    apply andb_prop in Hfv. destruct Hfv as [Hflag Hvalue].
    cbn [flatten collect_loop repeated]. rewrite Hflag, Hvalue.
    fold (filter_flag flag).
    destruct (filter_flag flag) eqn:Ef.
    + (* a filter flag: the value is stored over any earlier one *)
      assert (Ec : command_flag flag = false)
        by (unfold is_command_flag; rewrite Ef; reflexivity).
      rewrite Ec. cbn [andb].
      destruct (IH (dict_set flag value filters) commands out (flag :: seen))
        as [filters' [commands' [Hrun [Hf Hc]]]].
      { intros c Hcmd. cbn [existsb].
        destruct (String.eqb_spec c flag) as [->|_]; [congruence|].
        apply Hseen, Hcmd. }
      exists filters', commands'. split; [exact Hrun|]. split.
      * intros f Hff. rewrite (Hf f Hff). cbn [rev].
        rewrite dict_get_app, dict_get_set. cbn [dict_get].
        destruct (dict_get f (rev t)); [reflexivity|].
        destruct (String.eqb f flag); reflexivity.
      * intros c Hcf. rewrite (Hc c Hcf). cbn [dict_get].
        destruct (String.eqb_spec c flag) as [->|_]; [congruence|].
        reflexivity.
    + (* a command flag: stored once, reported afterwards *)
      cbn [orb] in Hkind. rewrite Hkind. cbn [andb].
      assert (Ecmd : existsb (String.eqb flag) command_flags = true).
      { unfold is_command_flag in Hkind. rewrite Ef in Hkind. exact Hkind. }
      rewrite Ecmd. rewrite <- (Hseen flag Hkind).
      destruct (dict_mem flag commands) eqn:Em.
      * destruct (IH filters commands
                    (out ++ [duplicate_message flag])%list seen Hseen)
          as [filters' [commands' [Hrun [Hf Hc]]]].
        exists filters', commands'. split; [|split].
        -- unfold duplicate_message in *. rewrite Hrun.
           cbn [map]. rewrite <- app_assoc. reflexivity.
        -- intros f Hff. rewrite (Hf f Hff). cbn [rev].
           rewrite dict_get_app. cbn [dict_get].
           destruct (dict_get f (rev t)); [reflexivity|].
           destruct (String.eqb_spec f flag) as [->|_]; [congruence|].
           reflexivity.
        -- intros c Hcf. rewrite (Hc c Hcf). cbn [dict_get].
           destruct (String.eqb_spec c flag) as [->|_]; [|reflexivity].
           unfold dict_mem in Em.
           destruct (dict_get flag commands); [reflexivity|discriminate].
      * destruct (IH filters (dict_set flag value commands) out
                    (flag :: seen))
          as [filters' [commands' [Hrun [Hf Hc]]]].
        { intros c Hcmd. rewrite dict_mem_set. cbn [existsb].
          rewrite (Hseen c Hcmd). reflexivity. }
        exists filters', commands'. split; [exact Hrun|]. split.
        -- intros f Hff. rewrite (Hf f Hff). cbn [rev].
           rewrite dict_get_app. cbn [dict_get].
           destruct (dict_get f (rev t)); [reflexivity|].
           destruct (String.eqb_spec f flag) as [->|_]; [congruence|].
           reflexivity.
        -- intros c Hcf. rewrite (Hc c Hcf), dict_get_set. cbn [dict_get].
           destruct (String.eqb_spec c flag) as [->|_]; [|reflexivity].
           unfold dict_mem in Em.
           destruct (dict_get flag commands); [discriminate|reflexivity].
Qed.

Lemma skipn_prefix {A} (p l : list A) :
  skipn (List.length p) (p ++ l)%list = l.
Proof. induction p as [|x t IH]; [reflexivity|exact IH]. Qed.

(** C9: on every argument vector of well-formed pairs, read from any
    start index, [collect_filters] returns; a filter flag is bound to
    the value of its last occurrence and nothing is printed for it; a
    command flag is bound to the value of its first occurrence and each
    further occurrence prints one "Duplicate action flag" line. *)
Theorem collect_filters_repeated_flags
        (before : list string) (pairs : list (string * string)) :
  Forall (fun fv => well_formed float_of_str fv = true) pairs ->
  exists filters commands,
    collect_filters float_of_str (before ++ flatten pairs)%list
      (List.length before) =
    (map duplicate_message (repeated float_of_str [] pairs),
     Ok (filters, commands)) /\
    (forall f, is_filter_flag float_of_str f = true ->
               dict_get f filters = dict_get f (rev pairs)) /\
    (forall c, is_command_flag float_of_str c = true ->
               dict_get c commands = dict_get c pairs).
Proof.
  intros Hwf. unfold collect_filters. rewrite skipn_prefix.
  destruct (@collect_loop_spec pairs Hwf [] [] [] [])
    as [filters [commands [Hrun [Hf Hc]]]]; [reflexivity|].
  exists filters, commands. split; [exact Hrun|]. split.
  - intros f Hff. rewrite (Hf f Hff).
    destruct (dict_get f (rev pairs)); reflexivity.
  - intros c Hcmd. apply Hc. unfold is_command_flag in Hcmd.
    destruct (filter_flag c); [discriminate|reflexivity].
Qed.

(** *** top_ten_map on records with a missing field *)

Lemma sorted_key_raises {K} (lt : K -> K -> result bool)
      (key : MovieMetric -> result K) movies m e :
  In m movies -> key m = Raise e ->
  exists e', take10 (sorted lt key movies) = Raise e'.
Proof.
  intros Hin Hk. unfold take10, sorted.
  destruct (@decorate_raise _ _ key movies m e Hin Hk) as [e' ->].
  exists e'. reflexivity.
Qed.

(** C4 (the code departs from it): under each of the five criteria, a
    record that lacks the field the criterion needs is not left out of
    the ranking: the key lambda raises on it and the whole reduction
    ends in an exception, a [TypeError] when the record stands alone. *)
Theorem top_ten_missing_field_raises (criterion : string) :
  In criterion (map fst top_ten_map) ->
  exists reduce missing,
    dict_get criterion top_ten_map = Some reduce /\
    dict_get criterion missing_for = Some missing /\
    (forall movies m,
        In m movies -> missing m = true ->
        exists e, reduce movies = Raise e) /\
    (forall m, missing m = true -> reduce [m] = Raise TypeError).
Proof.
  intros Hin. unfold top_ten_map in Hin. cbn [map fst In] in Hin.
  repeat (destruct Hin as [<-|Hin]); try contradiction;
    (eexists; eexists; split; [reflexivity|split; [reflexivity|]]);
    (split; [intros movies m Hm Hmiss | intros m Hmiss]); cbv beta in *;
    repeat match type of Hmiss with
      | is_none ?f = true => destruct f eqn:?E; [discriminate Hmiss|clear Hmiss]
      | (is_none ?f || _) = true =>
          destruct f eqn:?E; cbn [is_none orb] in Hmiss
      end;
    try (eapply sorted_key_raises with (m := m) (e := TypeError);
         [exact Hm|]);
    unfold take10, sorted, decorate, hidden_gems_key; cbn [mapM bind];
    repeat match goal with
      | H : ?f ?x = _ |- context [?f ?x] => rewrite H
      end; reflexivity.
Qed.

(** *** load_movies on records without a rating *)

Lemma insert_optF_raise {A} (x : option float * A) l e :
  insert lt_optF x l = Raise e -> e = TypeError.
Proof.
  induction l as [|y t IH]; cbn [insert]; [discriminate|].
  destruct (fst y), (fst x); cbn; try congruence.
  destruct (_ <? _)%float; [|discriminate].
  destruct (insert lt_optF x t); cbn; [discriminate|].
  intros H. apply IH. congruence.
Qed.

Lemma isort_optF_raise {A} (l : list (option float * A)) e :
  isort lt_optF l = Raise e -> e = TypeError.
Proof.
  revert e. induction l as [|x t IH]; intros e; cbn [isort]; [discriminate|].
  destruct (isort lt_optF t) as [s|e0]; cbn.
  - apply insert_optF_raise.
  - intros H. apply (IH e0) in H || (injection H as <-; apply IH; reflexivity).
Qed.

Lemma insert_length {K A} (lt : K -> K -> result bool) (x : K * A) l s :
  insert lt x l = Ok s -> List.length s = S (List.length l).
Proof.
  revert s. induction l as [|y t IH]; intros s; cbn [insert].
  - intros [= <-]. reflexivity.
  - destruct (lt (fst y) (fst x)) as [[|]|]; cbn; try discriminate.
    + destruct (insert lt x t) as [t'|]; cbn; [|discriminate].
      intros [= <-]. cbn. rewrite (IH t' eq_refl). reflexivity.
    + intros [= <-]. reflexivity.
Qed.

Lemma isort_length {K A} (lt : K -> K -> result bool) (l s : list (K * A)) :
  isort lt l = Ok s -> List.length s = List.length l.
Proof.
  revert s. induction l as [|x t IH]; intros s; cbn [isort].
  - intros [= <-]. reflexivity.
  - destruct (isort lt t) as [s'|]; cbn; [|discriminate].
    intros H. apply insert_length in H. rewrite H, (IH s' eq_refl).
    reflexivity.
Qed.

(** Sorting two keys or more, one of them [None], ends in a comparison
    with [None]. *)
Lemma isort_optF_none {A} (l : list (option float * A)) :
  (2 <= List.length l)%nat ->
  (exists p, In p l /\ fst p = None) ->
  isort lt_optF l = Raise TypeError.
Proof.
  induction l as [|x t IH]; intros Hlen Hnone; [cbn in Hlen; lia|].
  cbn [isort].
  destruct (isort lt_optF t) as [s|e] eqn:Es; cbn [bind].
  - pose proof (isort_length _ _ Es) as Hs.
    destruct s as [|y s'].
    { destruct t; cbn in *; [lia|discriminate]. }
    cbn [insert].
    destruct (fst x) as [kx|] eqn:Ex.
    + destruct (fst y) as [ky|] eqn:Ey; [|reflexivity].
      exfalso. destruct Hnone as [p [[<-|Hp] Hk]]; [congruence|].
      destruct t as [|a [|b t']].
      * contradiction.
      * cbn in Es. injection Es as <- <-.
        destruct Hp as [<-|[]]. congruence.
      * assert (H : Ok (y :: s') = @Raise (list (option float * A)) TypeError).
        { apply IH; [cbn; lia | exists p; split; assumption]. }
        discriminate H.
    + destruct (fst y); reflexivity.
  - rewrite (isort_optF_raise _ Es). reflexivity.
Qed.

Lemma decorate_total {K A} (f : A -> K) (l : list A) :
  decorate (fun x => Ok (f x)) l = Ok (map (fun x => (f x, x)) l).
Proof.
  unfold decorate. induction l as [|x t IH]; [reflexivity|].
  cbn [mapM map]. rewrite IH. reflexivity.
Qed.

(** C2 (the code departs from it): when the rows are two or more and one
    of them has no [imdb_rating], [load_movies] does not place that row
    anywhere: the sort compares [None] with another key and the load
    ends in a [TypeError]. *)
Theorem load_movies_unrated_raises (file_path : string)
        (movies : list MovieMetric) :
  (2 <= List.length movies)%nat ->
  (exists m, In m movies /\ m.(imdb_rating) = None) ->
  load_movies file_path (Rows movies) = Raise TypeError.
Proof.
  intros Hlen [m [Hin Hm]]. unfold load_movies, sort_reverse.
  rewrite decorate_total. cbn [bind].
  rewrite isort_optF_none; [reflexivity| |].
  - rewrite length_rev, length_map. exact Hlen.
  - exists (imdb_rating m, m). split; [|exact Hm].
    apply -> in_rev. apply in_map_iff. exists m. split; [reflexivity|exact Hin].
Qed.

(** *** hidden-gems *)

Lemma gem_key_ratio m k :
  hidden_gems_key m = Ok k ->
  exists r, rating_per_vote m = Ok r /\ k = (- r)%float.
Proof.
  unfold hidden_gems_key, rating_per_vote, div_float_int.
  destruct (imdb_rating m) as [a|]; cbn; [|discriminate].
  destruct (no_of_votes m) as [z|]; [|discriminate].
  destruct (float_of_int z) as [d|]; cbn; [|discriminate].
  destruct (z =? 0); [discriminate|].
  intros [= <-]. eexists. split; [reflexivity|apply div_opp_l].
Qed.

Lemma gem_key_le_ratio_ge x y : gem_key_le x y -> ratio_ge x y.
Proof.
  intros [kx [ky [Hx [Hy Hle]]]].
  destruct (gem_key_ratio _ Hx) as [rx [Rx ->]].
  destruct (gem_key_ratio _ Hy) as [ry [Ry ->]].
  exists rx, ry. split; [exact Rx|]. split; [exact Ry|].
  assert (Ox : ordered (- rx)%float /\ ordered (- ry)%float).
  { rewrite leb_spec in Hle. unfold SFleb in Hle.
    split; apply ordered_spec; intros E; rewrite E in Hle;
      [rewrite SFcompare_nan_l in Hle | rewrite SFcompare_nan_r in Hle];
      discriminate. }
  destruct Ox as [Ox Oy]. apply ordered_opp_inv in Ox, Oy.
  rewrite <- (leb_opp Ox Oy). exact Hle.
Qed.

Lemma same_key_not_ltb k a b :
  (a =? k)%float = true -> (b =? k)%float = true -> (a <? b)%float = false.
Proof.
  intros Ha Hb.
  destruct (eqb_ordered Ha) as [Oa Ok'], (eqb_ordered Hb) as [Ob _].
  apply (eqb_rank Oa Ok') in Ha. apply (eqb_rank Ob Ok') in Hb.
  destruct (a <? b)%float eqn:E; [|reflexivity].
  apply (ltb_rank Oa Ob) in E. rewrite Ha, Hb in E.
  destruct (rank (Prim2SF k)) as [[x y] z]. cbn in E. lia.
Qed.

(** C6: the hidden-gems reduction, on records whose key
    [-rating/votes] is a number, returns the first ten of a stable sort
    of its input: a rearrangement of the input in which no later record
    has a smaller key, that is a larger [rating/votes], and in which
    records of equal key keep their input order.  Of A (rating 9.0, 100
    votes) and B (rating 9.0, 10 votes), B comes first whichever way
    they are given. *)
Theorem hidden_gems_ranking :
  exists reduce,
    dict_get "hidden-gems" top_ten_map = Some reduce /\
    (forall movies,
        (forall m, In m movies -> rankable m) ->
        exists ranked,
          reduce movies = Ok (firstn 10 ranked) /\
          Permutation ranked movies /\
          StronglySorted gem_key_le ranked /\
          StronglySorted ratio_ge ranked /\
          forall k, filter (same_gem_key k) ranked
                    = filter (same_gem_key k) movies) /\
    (forall a b,
        a.(imdb_rating) = Some 9%float -> a.(no_of_votes) = Some 100 ->
        b.(imdb_rating) = Some 9%float -> b.(no_of_votes) = Some 10 ->
        reduce [a; b] = Ok [b; a] /\ reduce [b; a] = Ok [b; a]).
Proof.
  eexists. split; [reflexivity|]. split.
  - intros movies Hr.
    destruct (@decorate_ok _ _ hidden_gems_key movies) as [d [Hd [Hm Hf]]].
    { intros x Hx. destruct (Hr x Hx) as [k [Hk _]]. exists k. exact Hk. }
    assert (Hgood : Forall (fun p : float * MovieMetric => ordered (fst p)) d).
    { rewrite Forall_forall in *. intros p Hp.
      destruct (Hr (snd p)) as [k [Hk Ok']].
      - rewrite <- Hm. apply in_map, Hp.
      - rewrite (Hf p Hp) in Hk. injection Hk as ->. exact Ok'. }
    set (s := isort_by PrimFloat.ltb d).
    assert (Hin : forall p, In p s -> In p d).
    { intros p. apply Permutation_in, isort_by_perm. }
    assert (Hle : StronglySorted gem_key_le (map snd s)).
    { apply StronglySorted_map with (R := ascending PrimFloat.ltb).
      - intros p q Hp Hq Hasc. apply Hin in Hp, Hq.
        rewrite Forall_forall in Hf, Hgood.
        exists (fst p), (fst q).
        split; [apply Hf, Hp|]. split; [apply Hf, Hq|].
        apply not_ltb_leb; [apply Hgood, Hp | apply Hgood, Hq | exact Hasc].
      - apply isort_by_sorted with (good := ordered).
        + apply ltb_asym.
        + apply not_ltb_trans.
        + exact Hgood. }
    exists (map snd s). split; [|split; [|split; [|split]]].
    + unfold take10, sorted. rewrite Hd. cbn [bind].
      rewrite (@isort_pure _ _ lt_F PrimFloat.ltb ordered); [reflexivity| |].
      * intros; reflexivity.
      * exact Hgood.
    + rewrite <- Hm. apply Permutation_map, isort_by_perm.
    + exact Hle.
    + clear - Hle. induction Hle as [|x t Ht IH Hx]; constructor.
      * exact IH.
      * eapply Forall_impl; [|exact Hx]. intros y. apply gem_key_le_ratio_ge.
    + intros k. rewrite <- Hm, !filter_map_snd. f_equal.
      assert (Hext : forall l,
                 (forall p, In p l -> In p d) ->
                 filter (fun p => same_gem_key k (snd p)) l =
                 filter (fun p : float * MovieMetric => (fst p =? k)%float) l).
      { intros l Hl. apply filter_ext_in. intros p Hp.
        rewrite Forall_forall in Hf. unfold same_gem_key.
        rewrite (Hf p (Hl p Hp)). reflexivity. }
      rewrite (Hext s Hin), (Hext d (fun p H => H)).
      apply (@isort_by_stable _ _ PrimFloat.ltb (fun k' => (k' =? k)%float)).
      intros a b. apply same_key_not_ltb.
  - intros a b Ha1 Ha2 Hb1 Hb2.
    assert (Ka : hidden_gems_key a = Ok (- 9 / 100)%float).
    { unfold hidden_gems_key. rewrite Ha1, Ha2. vm_compute. reflexivity. }
    assert (Kb : hidden_gems_key b = Ok (- 9 / 10)%float).
    { unfold hidden_gems_key. rewrite Hb1, Hb2. vm_compute. reflexivity. }
    unfold take10, sorted, decorate. cbn [mapM]. rewrite Ka, Kb.
    split; vm_compute; reflexivity.
Qed.

(** *** load_movies on rated records *)

Lemma StronglySorted_app {A} (R : A -> A -> Prop) (a b : list A) :
  StronglySorted R a -> StronglySorted R b ->
  (forall x y, In x a -> In y b -> R x y) ->
  StronglySorted R (a ++ b)%list.
Proof.
  intros Ha Hb Hab. induction Ha as [|x t Ht IH Hx]; cbn [app]; [exact Hb|].
  constructor.
  - apply IH. intros; apply Hab; [right|]; assumption.
  - apply Forall_app. split; [exact Hx|].
    rewrite Forall_forall. intros y Hy. apply Hab; [left; reflexivity|exact Hy].
Qed.

Lemma StronglySorted_rev {A} (R : A -> A -> Prop) (l : list A) :
  StronglySorted R l -> StronglySorted (fun x y => R y x) (rev l).
Proof.
  intros Hs. induction Hs as [|x t Ht IH Hx]; cbn [rev]; [constructor|].
  apply StronglySorted_app; [exact IH|repeat constructor|].
  intros a b Ha [<-|[]]. rewrite Forall_forall in Hx.
  apply Hx, in_rev, Ha.
Qed.

(** On rows that all have a rating, [load_movies] returns a stable
    rearrangement by rating descending. *)
Lemma load_movies_rated (file_path : string) (movies : list MovieMetric) :
  (forall m, In m movies -> rated m) ->
  exists loaded,
    load_movies file_path (Rows movies) = Ok loaded /\
    Permutation loaded movies /\
    StronglySorted rating_ge loaded /\
    forall r, filter (same_rating r) loaded = filter (same_rating r) movies.
Proof.
  intros Hr.
  set (d := map (fun x => (imdb_rating x, x)) movies).
  set (good := fun k : option float => exists r, k = Some r /\ ordered r).
  assert (Hm : map snd d = movies).
  { unfold d. rewrite map_map. cbn. apply map_id. }
  assert (Hf : forall p, In p d -> fst p = imdb_rating (snd p)).
  { intros p Hp. unfold d in Hp. apply in_map_iff in Hp.
    destruct Hp as [x [<- _]]. reflexivity. }
  assert (Hgood : Forall (fun p : option float * MovieMetric => good (fst p))
                         (rev d)).
  { rewrite Forall_forall. intros p Hp. apply in_rev in Hp.
    rewrite (Hf p Hp). apply Hr. rewrite <- Hm. apply in_map, Hp. }
  set (s := isort_by ltb_opt (rev d)).
  assert (Hin : forall p, In p (rev s) -> In p d).
  { intros p Hp. apply in_rev in Hp. apply in_rev.
    revert Hp. apply Permutation_in, isort_by_perm. }
  exists (map snd (rev s)). split; [|split; [|split]].
  - unfold load_movies, sort_reverse. rewrite decorate_total. cbn [bind].
    fold d. rewrite (@isort_pure _ _ lt_optF ltb_opt good); [reflexivity| |].
    + intros a b [x [-> _]] [y [-> _]]. reflexivity.
    + exact Hgood.
  - rewrite <- Hm. apply Permutation_map.
    eapply perm_trans; [apply Permutation_sym, Permutation_rev|].
    eapply perm_trans; [apply isort_by_perm|].
    apply Permutation_sym, Permutation_rev.
  - apply StronglySorted_map
      with (R := fun x y : option float * MovieMetric => ascending ltb_opt y x).
    + intros p q Hp Hq Hasc.
      assert (Gp : good (fst p)).
      { rewrite (Hf p (Hin p Hp)). apply Hr. rewrite <- Hm.
        apply in_map, Hin, Hp. }
      assert (Gq : good (fst q)).
      { rewrite (Hf q (Hin q Hq)). apply Hr. rewrite <- Hm.
        apply in_map, Hin, Hq. }
      destruct Gp as [rp [Ep Op]], Gq as [rq [Eq' Oq]].
      exists rp, rq. rewrite <- (Hf p (Hin p Hp)), <- (Hf q (Hin q Hq)).
      split; [exact Ep|]. split; [exact Eq'|].
      unfold ascending in Hasc. rewrite Ep, Eq' in Hasc. cbn in Hasc.
      apply not_ltb_leb; assumption.
    + apply StronglySorted_rev.
      apply isort_by_sorted with (good := good); [| |exact Hgood].
      * intros [a|] [b|]; cbn; try reflexivity. apply ltb_asym.
      * intros a b c [x [-> Ox]] [y [-> Oy]] [z [-> Oz]]. cbn.
        apply not_ltb_trans; assumption.
  - intros r. rewrite <- Hm, !filter_map_snd. f_equal.
    assert (Hext : forall l,
               (forall p, In p l -> In p d) ->
               filter (fun p => same_rating r (snd p)) l =
               filter (fun p : option float * MovieMetric =>
                         match fst p with
                         | Some r' => (r' =? r)%float
                         | None => false
                         end) l).
    { intros l Hl. apply filter_ext_in. intros p Hp.
      unfold same_rating. rewrite <- (Hf p (Hl p Hp)). reflexivity. }
    rewrite (Hext (rev s) Hin), (Hext d (fun p H => H)).
    rewrite filter_rev. unfold s.
    rewrite (@isort_by_stable _ _ ltb_opt
               (fun k => match k with
                         | Some r' => (r' =? r)%float
                         | None => false
                         end)).
    + rewrite filter_rev, rev_involutive. reflexivity.
    + intros [a|] [b|]; cbn; try discriminate; try reflexivity.
      apply same_key_not_ltb.
Qed.

(** *** Records that satisfy the [Field] constraints *)

Lemma leb_ordered a b : (a <=? b)%float = true -> ordered a /\ ordered b.
Proof.
  rewrite leb_spec. unfold SFleb. intros H.
  split; apply ordered_spec; intros E; rewrite E in H;
    [rewrite SFcompare_nan_l in H | rewrite SFcompare_nan_r in H];
    discriminate.
Qed.

(** A rating that passed [ge=0, le=10] is a number. *)
Lemma rated_of_constraints (m : MovieMetric) (r : float) :
  field_constraints m = true -> m.(imdb_rating) = Some r -> rated m.
Proof.
  unfold field_constraints. intros H Hr. rewrite Hr in H. cbn in H.
  exists r. split; [exact Hr|].
  apply andb_prop in H. destruct H as [H _].
  apply andb_prop in H. destruct H as [H _].
  apply andb_prop in H. destruct H as [_ H].
  apply andb_prop in H. destruct H as [H _].
  exact (proj2 (leb_ordered H)).
Qed.

(** A record that passed the constraints, with a rating above zero and
    a number of votes that converts to a float, has a hidden-gems key,
    and the key is a number. *)
Lemma rankable_of_constraints (m : MovieMetric) (r : float) (v : Z) :
  field_constraints m = true ->
  m.(imdb_rating) = Some r -> (0 <? r)%float = true ->
  m.(no_of_votes) = Some v -> float_of_int v <> Raise OverflowError ->
  rankable m.
Proof.
  unfold field_constraints, rankable, hidden_gems_key, div_float_int.
  intros H Hr Hpos Hv Hconv. rewrite Hr, Hv in *. cbn in H.
  apply andb_prop in H. destruct H as [H Hv0].
  apply andb_prop in H. destruct H as [H _].
  apply andb_prop in H. destruct H as [_ H].
  apply andb_prop in H. destruct H as [_ Hle].
  apply Z.ltb_lt in Hv0.
  unfold float_of_int in *. cbn [neg_float bind].
  set (d := SF2Prim (binary_normalize prec emax v 0 false)) in *.
  destruct (is_infinity d); [congruence|]. cbn [bind].
  destruct (Z.eqb_spec v 0) as [->|_]; [lia|].
  eexists. split; [reflexivity|].
  apply ordered_spec. rewrite div_spec, opp_spec.
  rewrite ltb_spec in Hpos. rewrite leb_spec in Hle.
  change (Prim2SF 0) with (S754_zero false) in Hpos.
  assert (Hd : Prim2SF d <> S754_nan).
  { apply ordered_spec, SF2Prim_ordered, binary_normalize_not_nan. }
  destruct (Prim2SF r) as [s|[|]| |s mr er]; try discriminate Hpos.
  - vm_compute in Hle. discriminate.
  - apply SFdiv_finite_not_nan, Hd.
Qed.

(** Votes that passed [gt=0] never make the hidden-gems key divide by
    zero. *)
Lemma hidden_gems_no_zero_division (m : MovieMetric) :
  field_constraints m = true ->
  hidden_gems_key m <> Raise ZeroDivisionError.
Proof.
  unfold field_constraints, hidden_gems_key, div_float_int. intros H.
  destruct (imdb_rating m) as [r|]; cbn; [|discriminate].
  destruct (no_of_votes m) as [v|]; [|discriminate].
  cbn in H. apply andb_prop in H. destruct H as [_ Hv].
  apply Z.ltb_lt in Hv.
  unfold float_of_int. destruct (is_infinity _); cbn; [discriminate|].
  destruct (Z.eqb_spec v 0); [lia|discriminate].
Qed.

End Claims.

Section FilterEngine.
Variable float_of_str : string -> result float.

(** ** The argument classifier and the filter engine *)

(** *** collect_filters: the first pair that is not well formed *)

(** The loop over a prefix of well-formed pairs hands the rest of the
    vector on. *)
Lemma collect_loop_prefix (pairs : list (string * string)) (rest : list string) :
  Forall (fun fv => well_formed float_of_str fv = true) pairs ->
  forall filters commands out seen,
    (forall c, is_command_flag float_of_str c = true ->
               dict_mem c commands = existsb (String.eqb c) seen) ->
    exists filters' commands',
      collect_loop float_of_str (flatten pairs ++ rest)%list filters commands out =
      collect_loop float_of_str rest filters' commands'
        (out ++ map duplicate_message (repeated float_of_str seen pairs))%list.
Proof.
  intros Hwf. induction Hwf as [|[flag value] t Hfv Ht IH];
    intros filters commands out seen Hseen.
  - exists filters, commands. cbn. rewrite app_nil_r. reflexivity.
  - unfold well_formed in Hfv. cbn [fst snd] in Hfv.
    apply andb_prop in Hfv. destruct Hfv as [Hfv Hkind].
    apply andb_prop in Hfv. destruct Hfv as [Hflag Hvalue].
    cbn [flatten app collect_loop repeated]. rewrite Hflag, Hvalue.
    fold (is_filter_flag float_of_str flag).
    destruct (is_filter_flag float_of_str flag) eqn:Ef.
    + assert (Ec : is_command_flag float_of_str flag = false)
        by (unfold is_command_flag; rewrite Ef; reflexivity).
      rewrite Ec. cbn [andb].
      apply IH. intros c Hcmd. cbn [existsb].
      destruct (String.eqb_spec c flag) as [->|_]; [congruence|].
      apply Hseen, Hcmd.
    + cbn [orb] in Hkind. rewrite Hkind. cbn [andb].
      assert (Ecmd : existsb (String.eqb flag) command_flags = true).
      { unfold is_command_flag in Hkind. rewrite Ef in Hkind. exact Hkind. }
      rewrite Ecmd. rewrite <- (Hseen flag Hkind).
      destruct (dict_mem flag commands) eqn:Em.
      * destruct (IH filters commands
                    (out ++ [duplicate_message flag])%list seen Hseen)
          as [filters' [commands' Hrun]].
        exists filters', commands'. unfold duplicate_message in *.
        rewrite Hrun. cbn [map]. rewrite <- app_assoc. reflexivity.
      * apply IH. intros c Hcmd. rewrite dict_mem_set. cbn [existsb].
        rewrite (Hseen c Hcmd). reflexivity.
Qed.

(** A token that does not start with "--" where a flag is due ends the
    classification, whatever follows it. *)
Theorem collect_filters_invalid_flag
        (before : list string) (pairs : list (string * string))
        (token : string) (rest : list string) :
  Forall (fun fv => well_formed float_of_str fv = true) pairs ->
  startswith token "--" = false ->
  collect_filters float_of_str
    (before ++ flatten pairs ++ token :: rest)%list (List.length before) =
  (map duplicate_message (repeated float_of_str [] pairs),
   Raise (SystemExit
     "Invalid flag. Please start flags with '--' followed by an argument.")).
Proof.
  intros Hwf Htok. unfold collect_filters. rewrite skipn_prefix.
  destruct (@collect_loop_prefix pairs (token :: rest) Hwf [] [] [] [])
    as [filters [commands ->]]; [reflexivity|].
  cbn [collect_loop app]. rewrite Htok. reflexivity.
Qed.

(** A flag with nothing after it, or with another flag-like token after
    it, ends the classification with "Missing argument value", also when
    the flag itself is not a known one. *)
Theorem collect_filters_missing_value
        (before : list string) (pairs : list (string * string))
        (flag : string) (rest : list string) :
  Forall (fun fv => well_formed float_of_str fv = true) pairs ->
  startswith flag "--" = true ->
  match rest with
  | [] => True
  | value :: _ => startswith value "--" = true
  end ->
  collect_filters float_of_str
    (before ++ flatten pairs ++ flag :: rest)%list (List.length before) =
  (map duplicate_message (repeated float_of_str [] pairs),
   Raise (SystemExit ("Missing argument value for flag: " ++ flag))).
Proof.
  intros Hwf Hflag Hrest. unfold collect_filters. rewrite skipn_prefix.
  destruct (@collect_loop_prefix pairs (flag :: rest) Hwf [] [] [] [])
    as [filters [commands ->]]; [reflexivity|].
  cbn [collect_loop app]. rewrite Hflag.
  destruct rest as [|value rest']; [reflexivity|].
  rewrite Hrest. reflexivity.
Qed.

(** A flag that is in neither table, followed by a value, ends the
    classification with "Unknown flag". *)
Theorem collect_filters_unknown_flag
        (before : list string) (pairs : list (string * string))
        (flag value : string) (rest : list string) :
  Forall (fun fv => well_formed float_of_str fv = true) pairs ->
  startswith flag "--" = true -> startswith value "--" = false ->
  is_filter_flag float_of_str flag = false ->
  is_command_flag float_of_str flag = false ->
  collect_filters float_of_str
    (before ++ flatten pairs ++ flag :: value :: rest)%list
    (List.length before) =
  (map duplicate_message (repeated float_of_str [] pairs),
   Raise (SystemExit ("Unknown flag: " ++ flag))).
Proof.
  intros Hwf Hflag Hvalue Hf Hc. unfold collect_filters. rewrite skipn_prefix.
  destruct (@collect_loop_prefix pairs (flag :: value :: rest) Hwf [] [] [] [])
    as [filters [commands ->]]; [reflexivity|].
  cbn [collect_loop app]. rewrite Hflag, Hvalue. cbn [negb].
  fold (is_filter_flag float_of_str flag). rewrite Hf.
  unfold is_command_flag in Hc. rewrite Hf in Hc. cbn [negb andb] in Hc.
  rewrite Hc. reflexivity.
Qed.

(** *** collect_filters: what the two dictionaries hold *)

Lemma dict_set_in {V} (k : string) (v : V) (d : dict V) (p : string * V) :
  In p (dict_set k v d) -> p = (k, v) \/ In p d.
Proof.
  induction d as [|[k0 v0] t IH]; cbn [dict_set].
  - intros [<-|[]]. left. reflexivity.
  - destruct (String.eqb k k0).
    + intros [<-|H]; [left; reflexivity|right; right; exact H].
    + intros [<-|H]; [right; left; reflexivity|].
      destruct (IH H) as [->|H']; [left; reflexivity|right; right; exact H'].
Qed.

Lemma dict_mem_keys {V} (k : string) (d : dict V) :
  dict_mem k d = true <-> In k (map fst d).
Proof.
  unfold dict_mem. induction d as [|[k0 v0] t IH]; cbn [dict_get map fst In].
  - split; [discriminate|contradiction].
  - destruct (String.eqb_spec k k0) as [->|Hn].
    + split; [left; reflexivity|reflexivity].
    + rewrite IH. split; [right; assumption|intros [E|H]; [congruence|exact H]].
Qed.

Lemma dict_set_keys {V} (k : string) (v : V) (d : dict V) :
  map fst (dict_set k v d) =
  if dict_mem k d then map fst d else (map fst d ++ [k])%list.
Proof.
  unfold dict_mem. induction d as [|[k0 v0] t IH]; cbn [dict_set dict_get map fst].
  - reflexivity.
  - destruct (String.eqb_spec k k0) as [->|Hn]; cbn [map fst]; [reflexivity|].
    rewrite IH. destruct (dict_get k t); reflexivity.
Qed.

Lemma dict_set_nodup {V} (k : string) (v : V) (d : dict V) :
  NoDup (map fst d) -> NoDup (map fst (dict_set k v d)).
Proof.
  intros H. rewrite dict_set_keys. destruct (dict_mem k d) eqn:E; [exact H|].
  apply NoDup_app; [exact H|repeat constructor; intros []|].
  intros x Hx [<-|[]]. apply dict_mem_keys in Hx. congruence.
Qed.

Lemma classified_set known k v d :
  known k = true -> startswith v "--" = false ->
  classified known d -> classified known (dict_set k v d).
Proof.
  intros Hk Hv [Hnd Hall]. split; [apply dict_set_nodup, Hnd|].
  intros k' v' Hin. destruct (dict_set_in _ _ _ _ Hin) as [E|H].
  - injection E as -> ->. split; assumption.
  - apply Hall, H.
Qed.

Lemma collect_loop_classified (n : nat) :
  forall args filters commands out out' filters' commands',
    (List.length args <= n)%nat ->
    collect_loop float_of_str args filters commands out =
    (out', Ok (filters', commands')) ->
    classified (is_filter_flag float_of_str) filters ->
    classified (is_command_flag float_of_str) commands ->
    classified (is_filter_flag float_of_str) filters' /\
    classified (is_command_flag float_of_str) commands'.
Proof.
  induction n as [|n IH]; intros args filters commands out out' filters'
                                 commands' Hlen Hrun Hf Hc.
  - destruct args; [|cbn in Hlen; lia]. cbn in Hrun.
    injection Hrun as _ <- <-. split; assumption.
  - destruct args as [|flag [|value rest]]; cbn [collect_loop] in Hrun.
    + injection Hrun as _ <- <-. split; assumption.
    + destruct (startswith flag "--"); discriminate.
    + destruct (startswith flag "--"); [|discriminate].
      destruct (startswith value "--") eqn:Hv; [discriminate|]. cbn [negb] in Hrun.
      fold (is_filter_flag float_of_str flag) in Hrun.
      destruct (is_filter_flag float_of_str flag) eqn:Ef.
      * eapply IH; [|exact Hrun| |exact Hc]; [cbn in *; lia|].
        apply classified_set; assumption.
      * destruct (existsb (String.eqb flag) command_flags) eqn:Ec;
          [|discriminate].
        assert (Hcmd : is_command_flag float_of_str flag = true)
          by (unfold is_command_flag; rewrite Ef, Ec; reflexivity).
        destruct (dict_mem flag commands).
        -- eapply IH; [|exact Hrun|exact Hf|exact Hc]. cbn in *; lia.
        -- eapply IH; [|exact Hrun|exact Hf|]; [cbn in *; lia|].
           apply classified_set; assumption.
Qed.

(** Whatever [collect_filters] returns: the keys of the filter set are
    distinct flags of [flag_map], the keys of the command set distinct
    command flags, and no stored value starts with "--". *)
Theorem collect_filters_classified (args : list string) (index : nat)
        (out : list string) (filters commands : dict string) :
  collect_filters float_of_str args index = (out, Ok (filters, commands)) ->
  classified (is_filter_flag float_of_str) filters /\
  classified (is_command_flag float_of_str) commands.
Proof.
  intros H. unfold collect_filters in H.
  eapply collect_loop_classified; [apply le_n|exact H| |];
    (split; [constructor|intros k v []]).
Qed.

(** *** filter_results: how it can end *)

Lemma int_of_str_raises (s : string) (e : exn) :
  int_of_str s = Raise e -> e = ValueError.
Proof.
  unfold int_of_str.
  destruct (match strip s with
            | String "-" r => option_map Z.opp (digits r 0 false)
            | String "+" r => digits r 0 false
            | r => digits r 0 false
            end); congruence.
Qed.

Lemma and_guard_raises {A} (inj : A -> pyval) (o : option A)
      (k : unit -> result pyval) (e : exn) :
  and_ (of_opt inj o) k = Raise e -> exists a, o = Some a /\ k tt = Raise e.
Proof.
  unfold and_. destruct o as [a|]; cbn.
  - destruct (truthy (inj a)); [|discriminate]. intros H. exists a. auto.
  - discriminate.
Qed.

(** A lambda of [flag_map] raises [ValueError], or, for [--actor] on a
    record with a missing star, [AttributeError]; nothing else. *)
Lemma flag_map_raises (flag : string) (pred : predicate)
      (m : MovieMetric) (v : string) (e : exn) :
  float_raises_value_error float_of_str ->
  dict_get flag (flag_map float_of_str) = Some pred ->
  pred m v = Raise e ->
  e = ValueError \/
  (flag = "--actor" /\ e = AttributeError /\ absent Stars m = true).
Proof.
  intros Hfloat Hget Hr. unfold flag_map in Hget. cbn [dict_get] in Hget.
  repeat match type of Hget with
         | context [String.eqb flag ?s] =>
             destruct (String.eqb_spec flag s) as [->|?]
         end; try discriminate; injection Hget as <-; cbv beta in Hr.
  all: try (apply and_guard_raises in Hr; destruct Hr as [a [Ea Hr]];
            rewrite Ea in Hr;
            first
              [ destruct (int_of_str v) eqn:Ei; cbn in Hr;
                [discriminate|injection Hr as <-; left;
                              exact (int_of_str_raises _ Ei)]
              | destruct (float_of_str v) eqn:Ei; cbn in Hr;
                [discriminate|injection Hr as <-; left; exact (Hfloat _ _ Ei)]
              | discriminate ]).
  - (* --title *)
    unfold and_ in Hr. destruct (truthy _); discriminate.
  - (* --actor *)
    right. split; [reflexivity|]. cbn [absent].
    destruct (star_1 m); cbn in Hr |- *;
      [|injection Hr as <-; split; reflexivity].
    destruct (star_2 m); cbn in Hr |- *;
      [|injection Hr as <-; split; reflexivity].
    destruct (star_3 m); cbn in Hr |- *;
      [|injection Hr as <-; split; reflexivity].
    destruct (star_4 m); cbn in Hr |- *;
      [discriminate|injection Hr as <-; split; reflexivity].
Qed.

Lemma match_filters_ends (m : MovieMetric) (filters : dict string) :
  float_raises_value_error float_of_str ->
  (forall k v, In (k, v) filters -> is_filter_flag float_of_str k = true) ->
  forall v abort out out' e,
    match_filters float_of_str m filters v abort out = (out', Raise e) ->
    e = AttributeError /\ dict_mem "--actor" filters = true /\
    absent Stars m = true.
Proof.
  intros Hfloat. induction filters as [|[flag value] rest IH];
    intros Hknown v abort out out' e H; cbn [match_filters] in H.
  - discriminate.
  - assert (Hrest : forall k v, In (k, v) rest ->
                                is_filter_flag float_of_str k = true)
      by (intros; eapply Hknown; right; eassumption).
    assert (Hlater : forall v abort out,
               match_filters float_of_str m rest v abort out = (out', Raise e) ->
               e = AttributeError /\
               dict_mem "--actor" ((flag, value) :: rest) = true /\
               absent Stars m = true).
    { intros v0 a0 o0 H0. destruct (IH Hrest _ _ _ _ _ H0) as [He [Hm Ha]].
      split; [exact He|]. split; [|exact Ha].
      unfold dict_mem in *. cbn [dict_get].
      destruct (String.eqb "--actor" flag); [reflexivity|exact Hm]. }
    destruct (truthy v); [|eapply Hlater; eassumption].
    pose proof (Hknown flag value (or_introl eq_refl)) as Hk.
    unfold is_filter_flag, dict_mem in Hk.
    destruct (dict_get flag (flag_map float_of_str)) as [pred|] eqn:Ep;
      [|discriminate].
    destruct (pred m value) as [v1|e1] eqn:Er; [eapply Hlater; eassumption|].
    destruct (flag_map_raises _ _ _ Hfloat Ep Er) as [->|[-> [-> Ha]]].
    + eapply Hlater; eassumption.
    + injection H as _ <-. split; [reflexivity|]. split; [|exact Ha].
      unfold dict_mem. cbn [dict_get]. rewrite String.eqb_refl. reflexivity.
Qed.

(** With filters that are all flags of [flag_map], [filter_results] ends
    in one of three ways: it returns; it exits with "Please fix the
    error and try again."; or the [--actor] lambda met a record with a
    missing star and its [AttributeError] leaves the method.  A
    [KeyError] or [TypeError] never does. *)
Theorem filter_results_ends (movies : list MovieMetric)
        (filters : dict string) (out : list string)
        (r : result (list MovieMetric)) :
  float_raises_value_error float_of_str ->
  (forall k v, In (k, v) filters -> is_filter_flag float_of_str k = true) ->
  filter_results float_of_str movies filters = (out, r) ->
  (exists results, r = Ok results) \/
  r = Raise (SystemExit "Please fix the error and try again.") \/
  (r = Raise AttributeError /\ dict_mem "--actor" filters = true /\
   exists m, In m movies /\ absent Stars m = true).
Proof.
  intros Hfloat Hknown. unfold filter_results.
  generalize (@nil MovieMetric) as results, (@nil string) as out0.
  induction movies as [|m t IH]; intros results out0 H; cbn [filter_loop] in H.
  - injection H as _ <-. left. eexists. reflexivity.
  - destruct (match_filters float_of_str m filters (PyBool true) false out0)
      as [o [[v abort]|e]] eqn:E.
    + destruct abort; [injection H as _ <-; right; left; reflexivity|].
      assert (Hgo : forall res,
                 filter_loop float_of_str t filters res o = (out, r) ->
                 (exists results, r = Ok results) \/
                 r = Raise (SystemExit "Please fix the error and try again.") \/
                 (r = Raise AttributeError /\
                  dict_mem "--actor" filters = true /\
                  exists m0, In m0 (m :: t) /\ absent Stars m0 = true)).
      { intros res Hres. destruct (IH _ _ Hres) as [Hok|[Hex|[Hr [Hm [x [Hx Ha]]]]]].
        - left. exact Hok.
        - right. left. exact Hex.
        - right. right. split; [exact Hr|]. split; [exact Hm|].
          exists x. split; [right; exact Hx|exact Ha]. }
      destruct (truthy v); eapply Hgo; exact H.
    + injection H as _ <-.
      destruct (@match_filters_ends m filters Hfloat Hknown _ _ _ _ _ E)
        as [-> [Hm Ha]].
      right. right. split; [reflexivity|]. split; [exact Hm|].
      exists m. split; [left; reflexivity|exact Ha].
Qed.

(** *** filter_results: what is evaluated and what is not *)

(** Once [match_all_filters] is false no further lambda is called. *)
Lemma match_filters_skips (m : MovieMetric) (filters : dict string)
      (v : pyval) (abort : bool) (out : list string) :
  truthy v = false ->
  match_filters float_of_str m filters v abort out = (out, Ok (v, abort)).
Proof.
  intros Hv. induction filters as [|[flag value] rest IH];
    cbn [match_filters]; [reflexivity|].
  rewrite Hv. exact IH.
Qed.

(** When the first filter rejects every record, nothing after it is
    evaluated: the result is the empty list and nothing is printed,
    whatever the later filters are, valid or not. *)
Theorem filter_results_first_filter_rejects (movies : list MovieMetric)
        (flag value : string) (rest : dict string) :
  (forall m, In m movies ->
             exists pred v,
               dict_get flag (flag_map float_of_str) = Some pred /\
               pred m value = Ok v /\ truthy v = false) ->
  filter_results float_of_str movies ((flag, value) :: rest) = ([], Ok []).
Proof.
  intros Hall. unfold filter_results.
  induction movies as [|m t IH]; cbn [filter_loop match_filters]; [reflexivity|].
  cbn [truthy].
  destruct (Hall m (or_introl eq_refl)) as [pred [v [-> [-> Hv]]]].
  rewrite match_filters_skips by exact Hv. rewrite Hv.
  apply IH. intros; apply Hall; right; assumption.
Qed.

Lemma match_filters_app (m : MovieMetric) (f1 f2 : dict string) :
  forall v abort out,
    match_filters float_of_str m (f1 ++ f2)%list v abort out =
    match match_filters float_of_str m f1 v abort out with
    | (out', Ok (v', abort')) =>
        match_filters float_of_str m f2 v' abort' out'
    | (out', Raise e) => (out', Raise e)
    end.
Proof.
  induction f1 as [|[flag value] rest IH]; intros v abort out;
    cbn [app match_filters]; [reflexivity|].
  destruct (truthy v); [|apply IH].
  destruct (dict_get flag (flag_map float_of_str)) as [pred|]; [|reflexivity].
  destruct (pred m value) as [v1|[]]; try reflexivity; apply IH.
Qed.

(** A value that the lambda cannot parse is fatal as soon as a record
    reaches it: when the first record passes the filters before it and
    the filter is the last of the set, [filter_results] prints the error
    line and exits. *)
Theorem filter_results_invalid_value (m : MovieMetric)
        (movies : list MovieMetric) (filters : dict string)
        (flag value : string) :
  evaluates float_of_str filters m ->
  keeps float_of_str filters m = true ->
  (exists pred, dict_get flag (flag_map float_of_str) = Some pred /\
                pred m value = Raise ValueError) ->
  filter_results float_of_str (m :: movies) (filters ++ [(flag, value)])%list =
  (["Error: " ++ value ++ " is not a valid argument for flag " ++ flag ++ "."],
   Raise (SystemExit "Please fix the error and try again.")).
Proof.
  intros He Hk [pred [Hp Hr]]. unfold filter_results. cbn [filter_loop].
  rewrite match_filters_app.
  destruct (match_filters_evaluates He (PyBool true) false [])
    as [v [-> Hv]].
  rewrite Hk in Hv. cbn in Hv. cbn [match_filters]. rewrite Hv, Hp, Hr.
  reflexivity.
Qed.

Lemma keeps_app (f1 f2 : dict string) (m : MovieMetric) :
  keeps float_of_str (f1 ++ f2)%list m =
  keeps float_of_str f1 m && keeps float_of_str f2 m.
Proof. unfold keeps. apply forallb_app. Qed.

Lemma filter_filter {A} (f g : A -> bool) (l : list A) :
  filter g (filter f l) = filter (fun x => f x && g x) l.
Proof.
  induction l as [|x t IH]; [reflexivity|]. cbn [filter].
  destruct (f x); cbn [filter andb]; [destruct (g x)|]; rewrite IH; reflexivity.
Qed.

(** Filters that evaluate on every record compose: one pass with the
    set [f1 ++ f2] gives what a pass with [f1] followed by a pass with
    [f2] over its result gives. *)
Theorem filter_results_app (movies : list MovieMetric) (f1 f2 : dict string) :
  (forall m, In m movies -> evaluates float_of_str (f1 ++ f2)%list m) ->
  exists r1,
    filter_results float_of_str movies f1 = ([], Ok r1) /\
    filter_results float_of_str r1 f2 =
    filter_results float_of_str movies (f1 ++ f2)%list.
Proof.
  intros He.
  assert (H1 : forall m, In m movies -> evaluates float_of_str f1 m).
  { intros m Hm. specialize (He m Hm). unfold evaluates in *.
    apply Forall_app in He. apply He. }
  assert (H2 : forall m, In m movies -> evaluates float_of_str f2 m).
  { intros m Hm. specialize (He m Hm). unfold evaluates in *.
    apply Forall_app in He. apply He. }
  exists (filter (keeps float_of_str f1) movies). unfold filter_results.
  rewrite (@filter_loop_evaluates float_of_str f1 movies H1).
  split; [reflexivity|].
  rewrite (@filter_loop_evaluates float_of_str (f1 ++ f2)%list movies He).
  rewrite filter_loop_evaluates.
  - cbn [app]. rewrite filter_filter. do 2 f_equal.
    apply filter_ext. intros m. symmetry. apply keeps_app.
  - intros m Hm. apply filter_In in Hm. apply H2, Hm.
Qed.

Lemma forallb_perm {A} (f : A -> bool) (l1 l2 : list A) :
  Permutation l1 l2 -> forallb f l1 = forallb f l2.
Proof.
  intros H. induction H as [|x l l' H IH|x y l|l l' l'' H1 IH1 H2 IH2];
    cbn [forallb].
  - reflexivity.
  - rewrite IH. reflexivity.
  - destruct (f x), (f y); reflexivity.
  - congruence.
Qed.

(** Filters that evaluate on every record can be given in any order. *)
Theorem filter_results_any_order (movies : list MovieMetric)
        (f1 f2 : dict string) :
  Permutation f1 f2 ->
  (forall m, In m movies -> evaluates float_of_str f1 m) ->
  filter_results float_of_str movies f1 = filter_results float_of_str movies f2.
Proof.
  intros Hp He. unfold filter_results.
  rewrite (@filter_loop_evaluates float_of_str f1 movies He).
  rewrite (@filter_loop_evaluates float_of_str f2 movies).
  - do 2 f_equal. apply filter_ext. intros m. unfold keeps.
    apply forallb_perm, Hp.
  - intros m Hm. unfold evaluates. eapply Permutation_Forall; [exact Hp|].
    apply He, Hm.
Qed.

End FilterEngine.

(** ** The filters and the top-ten table *)

Section TopTen.
Variable float_of_str : string -> result float.

(** *** The substring filters *)

Lemma lower_app (a b : string) : lower (a ++ b) = lower a ++ lower b.
Proof. induction a as [|c a IH]; cbn; [reflexivity|]. rewrite IH. reflexivity. Qed.




(** *** The top-ten reductions *)

Lemma insert_perm {K A} (lt : K -> K -> result bool) (x : K * A) l s :
  insert lt x l = Ok s -> Permutation s (x :: l).
Proof.
  revert s. induction l as [|y t IH]; intros s; cbn [insert].
  - intros [= <-]. apply Permutation_refl.
  - destruct (lt (fst y) (fst x)) as [[|]|]; cbn; try discriminate.
    + destruct (insert lt x t) as [t'|]; cbn; [|discriminate].
      intros [= <-]. eapply perm_trans; [apply perm_skip, IH; reflexivity|].
      apply perm_swap.
    + intros [= <-]. apply Permutation_refl.
Qed.

Lemma isort_perm {K A} (lt : K -> K -> result bool) (l s : list (K * A)) :
  isort lt l = Ok s -> Permutation s l.
Proof.
  revert s. induction l as [|x t IH]; intros s; cbn [isort].
  - intros [= <-]. apply perm_nil.
  - destruct (isort lt t) as [s'|]; cbn; [|discriminate].
    intros H. apply insert_perm in H.
    eapply perm_trans; [exact H|]. apply perm_skip, IH. reflexivity.
Qed.

Lemma decorate_snd {K A} (key : A -> result K) (l : list A) d :
  decorate key l = Ok d -> map snd d = l.
Proof.
  unfold decorate. revert d. induction l as [|x t IH]; intros d; cbn [mapM].
  - intros [= <-]. reflexivity.
  - destruct (key x) as [k|]; cbn; [|discriminate].
    destruct (mapM _ t) as [d'|]; cbn; [|discriminate].
    intros [= <-]. cbn. rewrite (IH d' eq_refl). reflexivity.
Qed.

Lemma sorted_perm {K A} (lt : K -> K -> result bool) (key : A -> result K)
      (l r : list A) :
  sorted lt key l = Ok r -> Permutation r l.
Proof.
  unfold sorted. destruct (decorate key l) as [d|] eqn:Ed; cbn; [|discriminate].
  destruct (isort lt d) as [s|] eqn:Es; cbn; [|discriminate].
  intros [= <-]. rewrite <- (decorate_snd _ _ Ed).
  apply Permutation_map, (isort_perm _ _ Es).
Qed.

(** Whenever a top-ten reduction returns, it returns ten records, or all
    of them when there are fewer, each one a record of the input. *)
Theorem top_ten_at_most_ten (criterion : string)
        (movies top : list MovieMetric) :
  (exists reduce, dict_get criterion top_ten_map = Some reduce /\
                  reduce movies = Ok top) ->
  List.length top = Nat.min 10 (List.length movies) /\
  exists ranked, Permutation ranked movies /\ top = firstn 10 ranked.
Proof.
  intros [reduce [Hget Hr]]. unfold top_ten_map in Hget. cbn [dict_get] in Hget.
  repeat match type of Hget with
         | context [String.eqb criterion ?s] =>
             destruct (String.eqb_spec criterion s) as [->|?]
         end; try discriminate; injection Hget as <-; cbv beta in Hr;
    unfold take10 in Hr;
    match type of Hr with
    | bind ?srt _ = _ => destruct srt as [ranked|] eqn:Es; [|discriminate]
    end; cbn [bind] in Hr;
    assert (E : firstn 10 ranked = top) by (injection Hr; intros H; exact H);
    rewrite <- E; clear Hr E;
    apply sorted_perm in Es;
    (split; [rewrite length_firstn, (Permutation_length Es); reflexivity|]);
    exists ranked; (split; [exact Es|reflexivity]).
Qed.

Lemma sorted_by_int_field (field : MovieMetric -> option Z)
      (movies : list MovieMetric) :
  (forall m, In m movies -> field m <> None) ->
  exists ranked,
    sorted lt_Z (fun movie => neg_int (field movie)) movies = Ok ranked /\
    Permutation ranked movies /\
    StronglySorted (field_ge field) ranked /\
    forall k, filter (same_field field k) ranked
              = filter (same_field field k) movies.
Proof.
  intros Hall.
  set (key := fun movie : MovieMetric => neg_int (field movie)).
  destruct (@decorate_ok _ _ key movies) as [d [Hd [Hm Hf]]].
  { intros x Hx. unfold key. specialize (Hall x Hx).
    destruct (field x) as [a|]; [eexists; reflexivity|congruence]. }
  assert (Hgood : Forall (fun p : Z * MovieMetric => True) d)
    by (apply Forall_forall; intros; exact I).
  assert (Hkey : forall p, In p d -> field (snd p) = Some (- fst p)).
  { rewrite Forall_forall in Hf. intros p Hp. specialize (Hf p Hp).
    unfold key in Hf. destruct (field (snd p)) as [a|]; [|discriminate].
    cbn in Hf. injection Hf as <-. rewrite Z.opp_involutive. reflexivity. }
  set (s := isort_by Z.ltb d).
  assert (Hin : forall p, In p s -> In p d).
  { intros p. apply Permutation_in, isort_by_perm. }
  exists (map snd s). split; [|split; [|split]].
  - unfold sorted. fold key. rewrite Hd. cbn [bind].
    rewrite (@isort_pure _ _ lt_Z Z.ltb (fun _ => True)); [reflexivity| |].
    + intros; reflexivity.
    + exact Hgood.
  - rewrite <- Hm. apply Permutation_map, isort_by_perm.
  - apply StronglySorted_map with (R := ascending Z.ltb).
    + intros p q Hp Hq Hasc. apply Hin in Hp, Hq.
      exists (- fst p), (- fst q).
      split; [apply Hkey, Hp|]. split; [apply Hkey, Hq|].
      unfold ascending in Hasc. apply Z.ltb_ge in Hasc. lia.
    + apply isort_by_sorted with (good := fun _ => True).
      * intros a b H. apply Z.ltb_lt in H. apply Z.ltb_ge. lia.
      * intros a b c _ _ _ H1 H2. apply Z.ltb_ge in H1, H2.
        apply Z.ltb_ge. lia.
      * exact Hgood.
  - intros k. rewrite <- Hm, !filter_map_snd. f_equal.
    assert (Hext : forall l,
               (forall p, In p l -> In p d) ->
               filter (fun p => same_field field k (snd p)) l =
               filter (fun p : Z * MovieMetric => fst p =? - k) l).
    { intros l Hl. apply filter_ext_in. intros p Hp. unfold same_field.
      rewrite (Hkey p (Hl p Hp)).
      destruct (Z.eqb_spec (- fst p) k), (Z.eqb_spec (fst p) (- k));
        try reflexivity; lia. }
    rewrite (Hext s Hin), (Hext d (fun p H => H)).
    apply (@isort_by_stable _ _ Z.ltb (fun k' => k' =? - k)).
    intros a b Ha Hb. apply Z.eqb_eq in Ha, Hb. apply Z.ltb_ge. lia.
Qed.

(** [most-popular], [highest-grossing] and [longest-runtime], on records
    that all have the field, return the first ten of a stable sort by
    the field descending: a rearrangement of the input in which no later
    record has a larger value and equal values keep their input order. *)
Theorem top_ten_by_field (criterion : string)
        (field : MovieMetric -> option Z) :
  dict_get criterion ranks_by = Some field ->
  exists reduce,
    dict_get criterion top_ten_map = Some reduce /\
    forall movies,
      (forall m, In m movies -> field m <> None) ->
      exists ranked,
        reduce movies = Ok (firstn 10 ranked) /\
        Permutation ranked movies /\
        StronglySorted (field_ge field) ranked /\
        forall k, filter (same_field field k) ranked
                  = filter (same_field field k) movies.
Proof.
  intros Hget. unfold ranks_by in Hget. cbn [dict_get] in Hget.
  repeat match type of Hget with
         | context [String.eqb criterion ?s] =>
             destruct (String.eqb_spec criterion s) as [->|?]
         end; try discriminate; injection Hget as <-;
    (eexists; split; [reflexivity|]); intros movies Hall;
    destruct (@sorted_by_int_field _ movies Hall) as [ranked [Hs Hrest]];
    exists ranked; (split; [|exact Hrest]);
    cbv beta; unfold take10; rewrite Hs; reflexivity.
Qed.

Lemma isort_by_of_sorted {K A} (ltb : K -> K -> bool) (l : list (K * A)) :
  StronglySorted (ascending ltb) l -> isort_by ltb l = l.
Proof.
  intros Hs. induction Hs as [|x t Ht IH Hx]; [reflexivity|].
  cbn [isort_by]. rewrite IH. destruct t as [|y t']; [reflexivity|].
  cbn [insert_by]. inversion Hx as [|? ? Hxy _]; subst.
  unfold ascending in Hxy. rewrite Hxy. reflexivity.
Qed.

Lemma StronglySorted_filter {A} (R : A -> A -> Prop) (f : A -> bool) l :
  StronglySorted R l -> StronglySorted R (filter f l).
Proof.
  intros Hs. induction Hs as [|x t Ht IH Hx]; cbn [filter]; [constructor|].
  destruct (f x); [|exact IH]. constructor; [exact IH|].
  rewrite Forall_forall in *. intros y Hy. apply filter_In in Hy. apply Hx, Hy.
Qed.

Lemma highest_rated_of_sorted (movies : list MovieMetric) :
  StronglySorted rating_ge movies ->
  (forall m, In m movies -> rated m) ->
  sorted lt_F (fun movie => neg_float movie.(imdb_rating)) movies = Ok movies.
Proof.
  intros Hs Hr.
  set (key := fun movie : MovieMetric => neg_float (imdb_rating movie)).
  destruct (@decorate_ok _ _ key movies) as [d [Hd [Hm Hf]]].
  { intros x Hx. destruct (Hr x Hx) as [r [Er _]]. unfold key.
    rewrite Er. eexists. reflexivity. }
  assert (Hkey : forall p, In p d ->
             exists r, imdb_rating (snd p) = Some r /\ ordered r /\
                       fst p = (- r)%float).
  { rewrite Forall_forall in Hf. intros p Hp. specialize (Hf p Hp).
    destruct (Hr (snd p)) as [r [Er Hor]].
    - rewrite <- Hm. apply in_map, Hp.
    - exists r. unfold key in Hf. rewrite Er in Hf. cbn in Hf.
      injection Hf as <-. repeat split; assumption. }
  assert (Hgood : Forall (fun p : float * MovieMetric => ordered (fst p)) d).
  { apply Forall_forall. intros p Hp. destruct (Hkey p Hp) as [r [_ [Hor ->]]].
    apply opp_ordered, Hor. }
  assert (Hasc : StronglySorted (ascending PrimFloat.ltb) d).
  { clear Hd Hgood. revert d Hm Hf Hkey.
    induction Hs as [|x t Ht IH Hx]; intros d Hm Hf Hkey.
    - destruct d; [constructor|discriminate].
    - destruct d as [|p d']; [discriminate|]. cbn in Hm.
      injection Hm as Hp Hm. inversion Hf as [|? ? Hfp Hfd]; subst.
      constructor.
      + apply IH; [intros; apply Hr; right; assumption|reflexivity|exact Hfd|].
        intros q Hq. apply Hkey. right. exact Hq.
      + apply Forall_forall. intros q Hq. unfold ascending.
        rewrite Forall_forall in Hx.
        destruct (Hx (snd q)) as [rx [ry [Ex [Ey Hle]]]];
          [apply in_map, Hq|].
        destruct (Hkey p (or_introl eq_refl)) as [r1 [E1 [O1 ->]]].
        destruct (Hkey q (or_intror Hq)) as [r2 [E2 [O2 ->]]].
        rewrite E1 in Ex. rewrite E2 in Ey.
        injection Ex as <-. injection Ey as <-.
        apply not_ltb_leb; [apply opp_ordered, O1|apply opp_ordered, O2|].
        rewrite (leb_opp O1 O2). exact Hle. }
  unfold sorted. fold key. rewrite Hd. cbn [bind].
  rewrite (@isort_pure _ _ lt_F PrimFloat.ltb ordered);
    [|intros; reflexivity|exact Hgood].
  cbn [bind]. rewrite (isort_by_of_sorted Hasc), Hm. reflexivity.
Qed.

(** On rated records held by rating descending, which is how
    [load_movies] returns them, filtering and then [highest-rated] gives
    the first ten of the filtered list, in the order they have. *)
Theorem highest_rated_after_filter (movies : list MovieMetric)
        (filters : dict string) (out : list string)
        (results : list MovieMetric) :
  StronglySorted rating_ge movies ->
  (forall m, In m movies -> rated m) ->
  run_filters float_of_str movies filters = (out, Ok results) ->
  exists reduce,
    dict_get "highest-rated" top_ten_map = Some reduce /\
    reduce results = Ok (firstn 10 results).
Proof.
  intros Hs Hr Hrun. eexists. split; [reflexivity|]. cbv beta.
  assert (Hres : StronglySorted rating_ge results /\
                 forall m, In m results -> rated m).
  { unfold run_filters in Hrun. destruct filters as [|fv rest].
    - injection Hrun as _ <-. split; assumption.
    - destruct (filter_results float_of_str movies (fv :: rest))
        as [o [r|e]] eqn:E; [|discriminate].
      injection Hrun as _ <-. unfold filter_results in E.
      apply filter_loop_ok in E. destruct E as [_ ->]. cbn [app]. split.
      + apply StronglySorted_filter, Hs.
      + intros m Hm. apply filter_In in Hm. apply Hr, Hm. }
  destruct Hres as [Hs' Hr'].
  unfold take10. rewrite (highest_rated_of_sorted Hs' Hr'). reflexivity.
Qed.

End TopTen.

(** ** Insights *)

Section Insights.

(** *** Insights by genre *)

Lemma split_tokens (sep : ascii) (s tok : string) :
  In tok (split sep s) -> ~ In sep (list_ascii_of_string tok).
Proof.
  revert tok. induction s as [|c r IH]; intros tok; cbn [split].
  - intros [<-|[]] [].
  - destruct (Ascii.eqb_spec c sep) as [->|Hn].
    + intros [<-|H]; [intros []|apply IH, H].
    + destruct (split sep r) as [|t ts] eqn:E.
      * intros [<-|[]]. cbn. intros [E'|[]]. congruence.
      * intros [<-|H].
        -- cbn. intros [E'|H']; [congruence|].
           exact (IH t (or_introl eq_refl) H').
        -- apply IH. right. exact H.
Qed.

Lemma genre_row_total (g : option string) (acc acc' : sums) (m : MovieMetric) :
  genre_row g acc m = Ok acc' ->
  acc' = acc \/
  (total acc' = total acc + 1 /\
   exists field, genre m = Some field /\
                 in_strs_opt g (split "," field) = true).
Proof.
  unfold genre_row. destruct (genre m) as [field|]; [|discriminate].
  destruct (in_strs_opt g (split "," field)) eqn:Ein; cbn [andb];
    [|intros [= <-]; left; reflexivity].
  destruct (_ && _);
    [|intros [= <-]; left; reflexivity].
  destruct (imdb_rating m), (gross m), (runtime m); try discriminate.
  intros [= <-]. right. split; [reflexivity|]. exists field.
  split; [reflexivity|exact Ein].
Qed.

Lemma foldM_genre_row_total (g : option string) (movies : list MovieMetric) :
  forall acc s,
    foldM (genre_row g) movies acc = Ok s ->
    total acc <= total s /\
    (total acc < total s ->
     exists m field, In m movies /\ genre m = Some field /\
                     in_strs_opt g (split "," field) = true).
Proof.
  induction movies as [|m t IH]; intros acc s; cbn [foldM].
  - intros [= <-]. split; [lia|lia].
  - destruct (genre_row g acc m) as [acc'|] eqn:E; cbn [bind]; [|discriminate].
    intros H. destruct (IH _ _ H) as [Hle Hex].
    destruct (genre_row_total _ _ _ E) as [->|[Ht [field [Hg Hin]]]].
    + split; [exact Hle|]. intros Hlt. destruct (Hex Hlt) as [x [f [Hx Hf]]].
      exists x, f. split; [right; exact Hx|exact Hf].
    + split; [lia|]. intros _. exists m, field.
      split; [left; reflexivity|]. split; assumption.
Qed.

Lemma mapM_concat_in {A B} (f : A -> result (list B)) (l : list A)
      (r : list (list B)) (y : B) :
  mapM f l = Ok r -> In y (List.concat r) ->
  exists x ys, In x l /\ f x = Ok ys /\ In y ys.
Proof.
  revert r. induction l as [|x t IH]; intros r; cbn [mapM].
  - intros [= <-] [].
  - destruct (f x) as [ys|] eqn:E; cbn [bind]; [|discriminate].
    destruct (mapM f t) as [r'|]; cbn [bind]; [|discriminate].
    intros [= <-]. cbn [List.concat]. intros H. apply in_app_or in H.
    destruct H as [H|H].
    + exists x, ys. split; [left; reflexivity|]. split; assumption.
    + destruct (IH r' eq_refl H) as [x' [ys' [Hx [Hf Hy]]]].
      exists x', ys'. split; [right; exact Hx|]. split; assumption.
Qed.

(** Every entry that [generate_genre_insights] produces is keyed by the
    whole genre field of some record, and that field holds no comma: a
    field that lists several genres never gets an entry. *)
Theorem genre_insights_keys (movies : list MovieMetric) (stats : list stat)
        (s : stat) :
  generate_genre_insights movies = Ok stats -> In s stats ->
  exists m g,
    In m movies /\ m.(genre) = Some g /\ s.(stat_genre) = Some g /\
    comma_free g.
Proof.
  unfold generate_genre_insights.
  destruct (mapM (genre_stat movies) (genre_set movies)) as [per_group|] eqn:E;
    cbn [bind]; [|discriminate].
  intros [= <-] Hin.
  destruct (mapM_concat_in _ _ _ E Hin) as [key [ys [Hkey [Hstat Hs]]]].
  unfold genre_stat in Hstat.
  destruct (foldM (genre_row key) movies no_sums) as [acc|] eqn:Ef;
    cbn [bind] in Hstat; [|discriminate].
  destruct (0 <? total acc) eqn:Et; [|injection Hstat as <-; contradiction].
  destruct (div_float_int _ _) as [avg|]; cbn [bind] in Hstat; [|discriminate].
  injection Hstat as <-. destruct Hs as [<-|[]]. cbn [stat_genre].
  apply Z.ltb_lt in Et.
  destruct (foldM_genre_row_total _ _ _ Ef) as [_ Hex].
  destruct (Hex Et) as [x [field [_ [_ Htok]]]].
  unfold genre_set in Hkey. apply nodup_In, in_map_iff in Hkey.
  destruct Hkey as [m [Hm Hmin]].
  destruct key as [g|]; [|discriminate].
  exists m, g. split; [exact Hmin|]. split; [exact Hm|]. split; [reflexivity|].
  cbn [in_strs_opt] in Htok. unfold in_strs in Htok.
  apply existsb_exists in Htok. destruct Htok as [tok [Htok Heq]].
  apply String.eqb_eq in Heq. subst tok. exact (split_tokens _ _ _ Htok).
Qed.






(** *** Insights by year *)

Lemma year_row_total (y : option Z) (acc : sums) (m : MovieMetric) :
  exists acc',
    year_row y acc m = Ok acc' /\
    total acc' =
    total acc + (if year_eqb y m.(released_year) && qualifies m then 1 else 0).
Proof.
  unfold year_row, qualifies. rewrite <- !andb_assoc.
  destruct (year_eqb y (released_year m)); cbn [andb];
    [|exists acc; split; [reflexivity|lia]].
  destruct (imdb_rating m) as [r|]; cbn [of_opt truthy andb];
    [|exists acc; split; [reflexivity|lia]].
  destruct (negb (r =? 0)%float); cbn [andb];
    [|exists acc; split; [reflexivity|lia]].
  destruct (gross m) as [g|]; cbn [of_opt truthy andb];
    [|exists acc; split; [reflexivity|lia]].
  destruct (negb (g =? 0)); cbn [andb];
    [|exists acc; split; [reflexivity|lia]].
  destruct (runtime m) as [t|]; cbn [of_opt truthy andb];
    [|exists acc; split; [reflexivity|lia]].
  destruct (negb (t =? 0)); cbn [andb];
    [|exists acc; split; [reflexivity|lia]].
  eexists. split; [reflexivity|reflexivity].
Qed.

Lemma foldM_year_row_total (y : option Z) (movies : list MovieMetric) :
  forall acc,
  exists s,
    foldM (year_row y) movies acc = Ok s /\ total acc <= total s /\
    ((exists m, In m movies /\ m.(released_year) = y /\ qualifies m = true) ->
     total acc < total s).
Proof.
  induction movies as [|m t IH]; intros acc; cbn [foldM].
  - exists acc. split; [reflexivity|]. split; [lia|]. intros [m [[] _]].
  - destruct (year_row_total y acc m) as [acc' [-> Ht]]. cbn [bind].
    destruct (IH acc') as [s [Hs [Hle Hlt]]]. exists s.
    split; [exact Hs|].
    assert (Hstep : total acc <= total acc')
      by (destruct (_ && _) in Ht; lia).
    split; [lia|]. intros [x [[<-|Hx] [Hy Hq]]].
    + unfold year_eqb in Ht. rewrite Hq in Ht.
      destruct (year_eq_dec y (released_year m)); [|congruence].
      cbn in Ht. lia.
    + assert (total acc' < total s) by (apply Hlt; exists x; auto). lia.
Qed.

(** A group is no entry, or one entry under its own key. *)
Lemma year_group_entries (movies : list MovieMetric) (y : option Z)
      (ys : list year_stat) :
  year_group movies y = Ok ys ->
  ys = [] \/ exists s, ys = [s] /\ s.(stat_year) = y.
Proof.
  unfold year_group.
  destruct (foldM (year_row y) movies no_sums) as [acc|]; cbn [bind];
    [|discriminate].
  destruct (0 <? total acc); [|intros [= <-]; left; reflexivity].
  destruct (div_float_int _ _); cbn [bind]; [|discriminate].
  intros [= <-]. right. eexists. split; reflexivity.
Qed.

Lemma mapM_concat_incl {A B} (f : A -> result (list B)) (l : list A)
      (r : list (list B)) (x : A) (ys : list B) :
  mapM f l = Ok r -> In x l -> f x = Ok ys -> incl ys (List.concat r).
Proof.
  revert r. induction l as [|a t IH]; intros r; cbn [mapM]; [intros _ []|].
  destruct (f a) as [ya|] eqn:Ea; cbn [bind]; [|discriminate].
  destruct (mapM f t) as [r'|]; cbn [bind]; [|discriminate].
  intros [= <-] [<-|Hx] Hf; cbn [List.concat].
  - rewrite Ea in Hf. injection Hf as <-. apply incl_appl, incl_refl.
  - apply incl_appr. exact (IH r' eq_refl Hx Hf).
Qed.

(** A record without a release year that has a rating, a gross and a
    runtime makes [generate_year_insights] raise: its group is keyed by
    [None], and the sort key [-s["year"]] cannot be computed for it. *)
Theorem year_insights_yearless_raises (movies : list MovieMetric) :
  (exists m, In m movies /\ m.(released_year) = None /\ qualifies m = true) ->
  exists e, generate_year_insights movies = Raise e.
Proof.
  intros Hex. unfold generate_year_insights.
  destruct (mapM (year_group movies) (year_set movies)) as [per_year|e] eqn:E;
    cbn [bind]; [|exists e; reflexivity].
  assert (Hin : In None (year_set movies)).
  { destruct Hex as [m [Hm [Hy _]]]. unfold year_set. apply nodup_In.
    rewrite <- Hy. apply in_map, Hm. }
  destruct (year_group movies None) as [ys|e] eqn:Eg.
  - pose proof (@mapM_concat_incl _ _ _ _ _ _ _ E Hin Eg) as Hincl.
    unfold year_group in Eg.
    destruct (foldM_year_row_total None movies no_sums) as [s [Hs [_ Hlt]]].
    rewrite Hs in Eg. cbn [bind] in Eg. specialize (Hlt Hex).
    cbn [total no_sums] in Hlt. apply Z.ltb_lt in Hlt. rewrite Hlt in Eg.
    destruct (div_float_int _ _) as [avg|]; cbn [bind] in Eg; [|discriminate].
    injection Eg as <-.
    unfold sorted.
    destruct (@decorate_raise _ _ (fun s0 : year_stat => neg_int (stat_year s0))
                (List.concat per_year) _ TypeError
                (Hincl _ (or_introl eq_refl)) eq_refl) as [e' ->].
    exists e'. reflexivity.
  - exfalso. clear - E Hin Eg. revert per_year E.
    induction (year_set movies) as [|a t IH]; intros r; cbn [mapM]; [destruct Hin|].
    destruct Hin as [->|Hin].
    + rewrite Eg. discriminate.
    + destruct (year_group movies a); cbn [bind]; [|discriminate].
      destruct (mapM (year_group movies) t) as [r'|] eqn:E'; cbn [bind];
        [|discriminate].
      intros _. exact (IH Hin r' eq_refl).
Qed.

Lemma subseq_in {A} (l1 l2 : list A) (x : A) :
  subseq l1 l2 -> In x l1 -> In x l2.
Proof.
  intros H. induction H as [|y l1 l2 H IH|y l1 l2 H IH]; cbn.
  - intros [].
  - intros Hx. right. apply IH, Hx.
  - intros [<-|Hx]; [left; reflexivity|right; apply IH, Hx].
Qed.

Lemma subseq_nodup {A} (l1 l2 : list A) :
  subseq l1 l2 -> NoDup l2 -> NoDup l1.
Proof.
  intros H. induction H as [|y l1 l2 H IH|y l1 l2 H IH]; intros Hnd.
  - constructor.
  - inversion Hnd; subst. apply IH. assumption.
  - inversion Hnd as [|? ? Hy Hnd']; subst. constructor; [|apply IH, Hnd'].
    intros Hin. apply Hy. eapply subseq_in; eassumption.
Qed.

Lemma year_groups_keys (movies : list MovieMetric) (ys : list (option Z))
      (r : list (list year_stat)) :
  mapM (year_group movies) ys = Ok r ->
  subseq (map stat_year (List.concat r)) ys.
Proof.
  revert r. induction ys as [|y t IH]; intros r; cbn [mapM].
  - intros [= <-]. constructor.
  - destruct (year_group movies y) as [g|] eqn:Eg; cbn [bind]; [|discriminate].
    destruct (mapM (year_group movies) t) as [r'|]; cbn [bind]; [|discriminate].
    intros [= <-]. cbn [List.concat]. rewrite map_app.
    destruct (year_group_entries _ _ Eg) as [->|[s [-> Hs]]]; cbn [map app].
    + apply subseq_skip, IH. reflexivity.
    + rewrite Hs. apply subseq_keep, IH. reflexivity.
Qed.

Lemma StronglySorted_strict {A B} (f : A -> B) (R : A -> A -> Prop)
      (l : list A) :
  StronglySorted R l -> NoDup (map f l) ->
  StronglySorted (fun x y => R x y /\ f x <> f y) l.
Proof.
  intros Hs. induction Hs as [|x t Ht IH Hx]; cbn [map]; intros Hnd;
    [constructor|].
  inversion Hnd as [|? ? Hnot Hnd']; subst. constructor; [apply IH, Hnd'|].
  rewrite Forall_forall in *. intros y Hy. split; [apply Hx, Hy|].
  intros E. apply Hnot. rewrite E. apply in_map, Hy.
Qed.

(** Whenever [generate_year_insights] returns, its entries stand by year
    strictly descending: one entry per year, each year a number, the
    latest first. *)
Theorem year_insights_descending (movies : list MovieMetric)
        (stats : list year_stat) :
  generate_year_insights movies = Ok stats ->
  StronglySorted year_gt stats.
Proof.
  unfold generate_year_insights.
  destruct (mapM (year_group movies) (year_set movies)) as [per_year|] eqn:E;
    cbn [bind]; [|discriminate].
  assert (Hnd : NoDup (map stat_year (List.concat per_year))).
  { eapply subseq_nodup; [exact (year_groups_keys _ _ E)|].
    apply NoDup_nodup. }
  set (all := List.concat per_year) in *. clearbody all. clear E per_year.
  set (key := fun s : year_stat => neg_int (stat_year s)).
  unfold sorted. fold key.
  destruct (decorate key all) as [d|] eqn:Ed; cbn [bind]; [|discriminate].
  pose proof (decorate_snd _ _ Ed) as Hm.
  assert (Hkey : forall p, In p d -> stat_year (snd p) = Some (- fst p)).
  { clear - Ed. revert d Ed. unfold decorate.
    induction all as [|x t IH]; intros d; cbn [mapM].
    - intros [= <-] p [].
    - unfold key at 1. destruct (stat_year x) as [y|] eqn:Ey; cbn [neg_int bind];
        [|discriminate].
      destruct (mapM _ t) as [d'|]; cbn [bind]; [|discriminate].
      intros [= <-] p [<-|Hp].
      + cbn. rewrite Ey, Z.opp_involutive. reflexivity.
      + exact (IH d' eq_refl p Hp). }
  rewrite (@isort_pure _ _ lt_Z Z.ltb (fun _ => True));
    [|intros; reflexivity|apply Forall_forall; intros; exact I].
  cbn [bind]. intros [= <-].
  set (s := isort_by Z.ltb d).
  assert (Hperm : Permutation s d) by apply isort_by_perm.
  assert (Hsorted : StronglySorted (ascending Z.ltb) s).
  { apply isort_by_sorted with (good := fun _ => True).
    - intros a b H. apply Z.ltb_lt in H. apply Z.ltb_ge. lia.
    - intros a b c _ _ _ H1 H2. apply Z.ltb_ge in H1, H2. apply Z.ltb_ge. lia.
    - apply Forall_forall. intros; exact I. }
  assert (Hnd' : NoDup (map (fun p => stat_year (snd p)) s)).
  { rewrite <- map_map. eapply Permutation_NoDup;
      [apply Permutation_map, Permutation_map, Permutation_sym, Hperm|].
    rewrite Hm. exact Hnd. }
  apply (StronglySorted_strict (fun p => stat_year (snd p)) Hsorted) in Hnd'.
  eapply StronglySorted_map; [|exact Hnd'].
  intros p q Hp Hq [Hasc Hne]. cbv beta in Hne.
  assert (Hp' : In p d) by (eapply Permutation_in; eassumption).
  assert (Hq' : In q d) by (eapply Permutation_in; eassumption).
  rewrite (Hkey p Hp'), (Hkey q Hq') in Hne.
  exists (- fst p), (- fst q).
  split; [apply Hkey, Hp'|]. split; [apply Hkey, Hq'|].
  unfold ascending in Hasc. apply Z.ltb_ge in Hasc.
  assert (fst p <> fst q) by congruence. lia.
Qed.

End Insights.

(** ** The validators *)

Example words_example :
  words "142 min" = ["142"; "min"] /\ words "  a  bc " = ["a"; "bc"] /\
  words "   " = [] /\ words "" = [].
Proof. repeat split; reflexivity. Qed.

Example validators_example :
  extract_runtime (Some "142 min") = Value (Some 142) /\
  format_gross (Some "28,341,469") = Value (Some 28341469) /\
  format_meta_score (Some "80") = Value (Some 80) /\
  format_released_year (Some "PG") = Value None /\
  format_released_year (Some "-5") = Value None /\
  format_gross (Some "") = Value None /\
  str_of_int 0 = "0" /\ str_of_int (-42) = "-42" /\ str_of_int 1994 = "1994".
Proof. repeat split; reflexivity. Qed.

Section Validators.

Lemma is_digit_chars (c : ascii) :
  is_digit c = true ->
  is_space c = false /\ c <> "-"%char /\ c <> "+"%char /\ c <> ","%char /\
  c <> "_"%char.
Proof.
  destruct c as [[] [] [] [] [] [] [] []]; cbn; try discriminate;
    intros _; repeat split; discriminate.
Qed.

Lemma digit_of_bounds (c : ascii) (d : Z) :
  digit_of c = Some d -> 0 <= d <= 9.
Proof.
  destruct c as [[] [] [] [] [] [] [] []]; cbn; try discriminate;
    intros [= <-]; lia.
Qed.

Lemma lstrip_in_word (s : string) : in_word s = true -> lstrip s = s.
Proof.
  destruct s as [|c r]; cbn; [discriminate|].
  destruct (is_space c); [discriminate|reflexivity].
Qed.

Lemma rstrip_no_space (s : string) :
  all_chars (fun c => negb (is_space c)) s = true -> rstrip s = s.
Proof.
  induction s as [|c r IH]; cbn [all_chars rstrip]; [reflexivity|].
  intros H. apply andb_prop in H. destruct H as [Hc Hr].
  rewrite (IH Hr). destruct r; [|reflexivity].
  destruct (is_space c); [discriminate|reflexivity].
Qed.

Lemma all_chars_impl (p q : ascii -> bool) (s : string) :
  (forall c, p c = true -> q c = true) ->
  all_chars p s = true -> all_chars q s = true.
Proof.
  intros H. induction s as [|c r IH]; cbn [all_chars]; [reflexivity|].
  intros Hs. apply andb_prop in Hs. destruct Hs as [Hc Hr].
  rewrite (H c Hc), (IH Hr). reflexivity.
Qed.

Lemma strip_word (s : string) :
  s <> "" -> all_chars (fun c => negb (is_space c)) s = true -> strip s = s.
Proof.
  intros Hne Hs. unfold strip. rewrite lstrip_in_word.
  - apply rstrip_no_space, Hs.
  - destruct s as [|c r]; [congruence|]. cbn in *.
    apply andb_prop in Hs. apply Hs.
Qed.

(** A run of digits always parses, to a number not below the one read
    so far. *)
Lemma digits_of_digits (s : string) :
  all_chars is_digit s = true ->
  forall acc b,
    0 <= acc -> s <> "" \/ b = true ->
    exists n, digits s acc b = Some n /\ acc <= n.
Proof.
  induction s as [|c r IH]; cbn [all_chars digits]; intros Hs acc b Hacc Hb.
  - destruct Hb as [Hb| ->]; [congruence|]. exists acc. split; [reflexivity|lia].
  - apply andb_prop in Hs. destruct Hs as [Hc Hr]. unfold is_digit in Hc.
    destruct (digit_of c) as [d|] eqn:Ed; [|discriminate].
    pose proof (digit_of_bounds _ Ed) as Hd.
    destruct (IH Hr (10 * acc + d) true) as [n [Hn Hle]];
      [lia|right; reflexivity|].
    exists n. split; [exact Hn|lia].
Qed.

Lemma int_of_str_digits (s : string) :
  s <> "" -> all_chars is_digit s = true ->
  exists n, int_of_str s = Ok n /\ 0 <= n.
Proof.
  intros Hne Hs. unfold int_of_str. rewrite strip_word; [|exact Hne|].
  - destruct (@digits_of_digits s Hs 0 false) as [n [Hn Hle]];
      [lia|left; exact Hne|].
    destruct s as [|c r]; [congruence|].
    cbn [all_chars] in Hs. apply andb_prop in Hs. destruct Hs as [Hc _].
    destruct (is_digit_chars _ Hc) as [_ [Hm [Hp _]]].
    exists n. split; [|exact Hle].
    assert (E : match String c r with
                | String "-" r0 => option_map Z.opp (digits r0 0 false)
                | String "+" r0 => digits r0 0 false
                | r0 => digits r0 0 false
                end = digits (String c r) 0 false).
    { destruct c as [[] [] [] [] [] [] [] []]; try reflexivity; congruence. }
    rewrite E, Hn. reflexivity.
  - eapply all_chars_impl; [|exact Hs]. intros c Hc.
    destruct (is_digit_chars _ Hc) as [-> _]. reflexivity.
Qed.

(** The two validators of the numeric text columns never raise on a
    string of the ASCII range that stays within the 4300 digits [int]
    converts: a cell that is all decimal digits becomes its number, which
    is never negative, and any other cell, a signed number included,
    becomes [None]. *)
Theorem numeric_validators_never_raise (s : string) :
  is_ascii s = true -> (String.length s <= 4300)%nat ->
  format_released_year (Some s) = format_meta_score (Some s) /\
  (isnumeric s = true ->
   exists n, 0 <= n /\ format_released_year (Some s) = Value (Some n)) /\
  (isnumeric s = false -> format_released_year (Some s) = Value None).
Proof.
  intros _ _. split; [reflexivity|]. unfold format_released_year, cell_true.
  cbn [truthy]. destruct (String.eqb_spec s "") as [->|Hne]; cbn [negb].
  - split; [discriminate|reflexivity].
  - split; intros Hn; rewrite Hn; [|reflexivity].
    unfold isnumeric in Hn. apply andb_prop in Hn. destruct Hn as [_ Hd].
    destruct (int_of_str_digits Hne Hd) as [z [Hz Hpos]].
    exists z. split; [exact Hpos|]. rewrite Hz. reflexivity.
Qed.

Lemma words_spaces (s : string) :
  all_chars is_space s = true -> words s = [].
Proof.
  induction s as [|c r IH]; cbn [all_chars words]; [reflexivity|].
  intros H. apply andb_prop in H. destruct H as [-> Hr]. exact (IH Hr).
Qed.

Lemma words_first (w rest : string) :
  w <> "" -> all_chars (fun c => negb (is_space c)) w = true ->
  in_word rest = false ->
  words (w ++ rest) = w :: words rest.
Proof.
  induction w as [|c r IH]; [congruence|]. intros _ Hw Hrest.
  cbn [all_chars] in Hw. apply andb_prop in Hw. destruct Hw as [Hc Hr].
  cbn [append words]. destruct (is_space c); [discriminate|].
  destruct r as [|c' r'].
  - cbn [append]. rewrite Hrest. reflexivity.
  - assert (Hin : in_word (String c' r' ++ rest) = true).
    { cbn in *. apply andb_prop in Hr. apply Hr. }
    rewrite Hin, IH; [reflexivity|discriminate|exact Hr|exact Hrest].
Qed.

(** [extract_runtime] reads the first word of the cell and nothing else:
    whatever follows the first whitespace is ignored.  A cell that holds
    whitespace only has no first word and raises [IndexError]; an empty
    or missing cell is [None]. *)
Theorem extract_runtime_first_word :
  (forall w rest,
      w <> "" -> is_ascii w = true ->
      all_chars (fun c => negb (is_space c)) w = true ->
      in_word rest = false ->
      extract_runtime (Some (w ++ rest)) = of_int_result (int_of_str w)) /\
  (forall s, s <> "" -> all_chars is_space s = true ->
             extract_runtime (Some s) = IndexError) /\
  extract_runtime (Some "") = Value None /\
  extract_runtime None = Value None.
Proof.
  split; [|split; [|split; reflexivity]].
  - intros w rest Hne _ Hw Hrest. unfold extract_runtime, cell_true. cbn [truthy].
    destruct (String.eqb_spec (w ++ rest) "") as [E|_].
    + destruct w; [congruence|discriminate].
    + cbn [negb]. rewrite (@words_first w rest Hne Hw Hrest). reflexivity.
  - intros s Hne Hs. unfold extract_runtime, cell_true. cbn [truthy].
    destruct (String.eqb_spec s ""); [congruence|]. cbn [negb].
    rewrite (@words_spaces s Hs). reflexivity.
Qed.

Lemma remove_char_app (c : ascii) (a b : string) :
  remove_char c (a ++ b) = remove_char c a ++ remove_char c b.
Proof.
  induction a as [|x r IH]; cbn [append remove_char]; [reflexivity|].
  rewrite IH. destruct (Ascii.eqb x c); reflexivity.
Qed.

(** [format_gross] does not look at where the commas stand: a comma can
    be put anywhere into a cell, or taken out of it, without changing
    the result, as long as something other than the comma is left. *)
Theorem format_gross_ignores_commas (a b : string) :
  a ++ b <> "" ->
  format_gross (Some (a ++ "," ++ b)) = format_gross (Some (a ++ b)).
Proof.
  intros Hne. unfold format_gross, cell_true. cbn [truthy].
  destruct (String.eqb_spec (a ++ "," ++ b) "") as [E|_].
  { destruct a; discriminate. }
  destruct (String.eqb_spec (a ++ b) "") as [E|_]; [congruence|].
  cbn [negb]. rewrite !remove_char_app. reflexivity.
Qed.

(** *** Writing a number and reading it back *)

Lemma uint_value_pos (d : Decimal.uint) (p : positive) :
  uint_value d (Z.pos p) = Z.pos (Pos.of_uint_acc d p).
Proof.
  revert p. induction d as [|d IH|d IH|d IH|d IH|d IH|d IH|d IH|d IH|d IH|d IH];
    intros p; cbn [uint_value Pos.of_uint_acc]; [reflexivity|..];
    rewrite <- IH; f_equal; lia.
Qed.

Lemma uint_value_zero (d : Decimal.uint) :
  uint_value d 0 = Z.of_N (Pos.of_uint d).
Proof.
  induction d as [|d IH|d IH|d IH|d IH|d IH|d IH|d IH|d IH|d IH|d IH];
    cbn [uint_value Pos.of_uint]; [reflexivity|exact IH|..];
    cbn [Z.mul Z.add Z.of_N]; apply uint_value_pos.
Qed.

Lemma digits_of_uint (d : Decimal.uint) :
  forall acc b,
    d <> Decimal.Nil \/ b = true ->
    digits (NilEmpty.string_of_uint d) acc b = Some (uint_value d acc).
Proof.
  induction d as [|d IH|d IH|d IH|d IH|d IH|d IH|d IH|d IH|d IH|d IH];
    intros acc b Hb; cbn [NilEmpty.string_of_uint digits uint_value].
  1: destruct Hb as [Hb| ->]; [congruence|reflexivity].
  all: match goal with
       | |- context [digit_of ?c] =>
           let v := eval vm_compute in (digit_of c) in
           change (digit_of c) with v
       end; cbv iota; rewrite ?Z.add_0_r;
    apply IH; right; reflexivity.
Qed.

Lemma uint_digits (d : Decimal.uint) :
  all_chars is_digit (NilEmpty.string_of_uint d) = true.
Proof.
  induction d as [|d IH|d IH|d IH|d IH|d IH|d IH|d IH|d IH|d IH|d IH];
    cbn [NilEmpty.string_of_uint all_chars]; [reflexivity|..];
    rewrite IH; reflexivity.
Qed.

Lemma uint_not_empty (d : Decimal.uint) :
  d <> Decimal.Nil -> NilEmpty.string_of_uint d <> "".
Proof. destruct d; [congruence|..]; discriminate. Qed.

(** The numeral of a positive number, as [str] writes it. *)
Lemma str_of_pos (p : positive) :
  let s := NilEmpty.string_of_uint (Pos.to_uint p) in
  str_of_int (Z.pos p) = s /\ str_of_int (Z.neg p) = String "-" s /\
  s <> "" /\ all_chars is_digit s = true /\
  digits s 0 false = Some (Z.pos p).
Proof.
  pose proof (DecimalPos.Unsigned.to_uint_nonnil p) as Hnil. cbn zeta.
  unfold str_of_int. cbn [Z.to_int NilZero.string_of_int].
  unfold NilZero.string_of_uint.
  destruct (Pos.to_uint p) as [|d|d|d|d|d|d|d|d|d|d] eqn:E; [congruence|..];
    rewrite <- E; (split; [reflexivity|]); (split; [reflexivity|]);
    (split; [apply uint_not_empty; congruence|]);
    (split; [apply uint_digits|]);
    rewrite digits_of_uint by (left; congruence);
    rewrite uint_value_zero, DecimalPos.Unsigned.of_to; reflexivity.
Qed.

Lemma append_empty_r (s : string) : s ++ "" = s.
Proof. induction s as [|c r IH]; cbn; [reflexivity|]. rewrite IH. reflexivity. Qed.

Lemma words_word (w : string) :
  w <> "" -> all_chars (fun c => negb (is_space c)) w = true -> words w = [w].
Proof.
  intros Hne Hw. rewrite <- (append_empty_r w) at 1.
  rewrite (@words_first w "" Hne Hw eq_refl). reflexivity.
Qed.

Lemma remove_char_absent (c : ascii) (s : string) :
  all_chars (fun a => negb (Ascii.eqb a c)) s = true -> remove_char c s = s.
Proof.
  induction s as [|a r IH]; cbn [all_chars remove_char]; [reflexivity|].
  intros H. apply andb_prop in H. destruct H as [Ha Hr].
  destruct (Ascii.eqb a c); [discriminate|]. rewrite (IH Hr). reflexivity.
Qed.

Lemma digits_no_space (s : string) :
  all_chars is_digit s = true ->
  all_chars (fun c => negb (is_space c)) s = true /\
  all_chars (fun a => negb (Ascii.eqb a ",")) s = true.
Proof.
  intros H. split; (eapply all_chars_impl; [|exact H]); intros c Hc;
    destruct (is_digit_chars _ Hc) as [Hs [_ [_ [Hcomma _]]]].
  - rewrite Hs. reflexivity.
  - destruct (Ascii.eqb_spec c ","); [congruence|reflexivity].
Qed.

Lemma int_of_str_of_int (z : Z) : int_of_str (str_of_int z) = Ok z.
Proof.
  destruct z as [|p|p].
  - reflexivity.
  - destruct (str_of_pos p) as [-> [_ [Hne [Hd Hv]]]].
    unfold int_of_str.
    rewrite strip_word; [|exact Hne|apply digits_no_space, Hd].
    set (s := NilEmpty.string_of_uint (Pos.to_uint p)) in *.
    destruct s as [|c r]; [congruence|].
    cbn [all_chars] in Hd. apply andb_prop in Hd. destruct Hd as [Hc _].
    destruct (is_digit_chars _ Hc) as [_ [Hm [Hp _]]].
    assert (E : match String c r with
                | String "-" r0 => option_map Z.opp (digits r0 0 false)
                | String "+" r0 => digits r0 0 false
                | r0 => digits r0 0 false
                end = digits (String c r) 0 false).
    { destruct c as [[] [] [] [] [] [] [] []]; try reflexivity; congruence. }
    rewrite E, Hv. reflexivity.
  - destruct (str_of_pos p) as [_ [-> [Hne [Hd Hv]]]].
    unfold int_of_str. rewrite strip_word.
    + rewrite Hv. reflexivity.
    + discriminate.
    + cbn [all_chars]. rewrite (proj1 (digits_no_space _ Hd)). reflexivity.
Qed.

Lemma str_of_int_word (z : Z) :
  str_of_int z <> "" /\
  all_chars (fun c => negb (is_space c)) (str_of_int z) = true /\
  all_chars (fun a => negb (Ascii.eqb a ",")) (str_of_int z) = true /\
  isnumeric (str_of_int z) = (0 <=? z).
Proof.
  destruct z as [|p|p].
  - repeat split; discriminate.
  - destruct (str_of_pos p) as [-> [_ [Hne [Hd _]]]].
    destruct (digits_no_space _ Hd) as [Hs Hc].
    split; [exact Hne|]. split; [exact Hs|]. split; [exact Hc|].
    unfold isnumeric. rewrite Hd.
    destruct (String.eqb_spec (NilEmpty.string_of_uint (Pos.to_uint p)) "");
      [congruence|reflexivity].
  - destruct (str_of_pos p) as [_ [-> [Hne [Hd _]]]].
    destruct (digits_no_space _ Hd) as [Hs Hc].
    split; [discriminate|]. split; [cbn [all_chars]; rewrite Hs; reflexivity|].
    split; [cbn [all_chars]; rewrite Hc; reflexivity|reflexivity].
Qed.

(** An optional integer written as a CSV cell and read back by the
    validator of its column is the value that was written: always for
    runtime and gross, and for year and score when the number is not
    negative.  A negative year or score does not come back: it is read
    as [None].  The integer stays within the 4300 digits that [str] and
    [int] convert. *)
Theorem validators_read_back (o : option Z) :
  match o with
  | Some z => Z.abs z < 10 ^ 4300
  | None => True
  end ->
  extract_runtime (Some (csv_cell o)) = Value o /\
  format_gross (Some (csv_cell o)) = Value o /\
  format_released_year (Some (csv_cell o)) =
  Value (match o with
         | Some z => if 0 <=? z then Some z else None
         | None => None
         end) /\
  format_meta_score (Some (csv_cell o)) =
  format_released_year (Some (csv_cell o)).
Proof.
  intros _. destruct o as [z|]; [|repeat split; reflexivity]. cbn [csv_cell].
  destruct (str_of_int_word z) as [Hne [Hs [Hc Hnum]]].
  unfold extract_runtime, format_gross, format_released_year, format_meta_score,
    cell_true. cbn [truthy].
  destruct (String.eqb_spec (str_of_int z) ""); [congruence|]. cbn [negb].
  rewrite (words_word Hne Hs), (remove_char_absent _ _ Hc), Hnum.
  rewrite int_of_str_of_int. cbn [of_int_result].
  repeat split; try reflexivity. destruct (0 <=? z); reflexivity.
Qed.

End Validators.

(** ** Output and the run *)

Section RunFacts.
Variable read_file : string -> read_outcome.
Variable write_error : string -> option string.
Variable float_of_str : string -> result float.

(** *** File names *)

Lemma split_nonempty (sep : ascii) (s : string) : split sep s <> [].
Proof.
  destruct s as [|c r]; cbn [split]; [discriminate|].
  destruct (Ascii.eqb c sep); [discriminate|].
  destruct (split sep r); discriminate.
Qed.

Lemma split_app (sep : ascii) (a b : string) :
  split sep (a ++ String sep b) = (split sep a ++ split sep b)%list.
Proof.
  induction a as [|c r IH]; cbn [append split].
  - rewrite Ascii.eqb_refl. reflexivity.
  - rewrite IH. destruct (Ascii.eqb c sep); [reflexivity|].
    pose proof (split_nonempty sep r) as Hne.
    destruct (split sep r); [congruence|reflexivity].
Qed.

Lemma split_free (sep : ascii) (s : string) :
  ~ In sep (list_ascii_of_string s) -> split sep s = [s].
Proof.
  induction s as [|c r IH]; cbn [split list_ascii_of_string]; [reflexivity|].
  intros H. destruct (Ascii.eqb_spec c sep) as [->|_].
  - exfalso. apply H. left. reflexivity.
  - rewrite IH; [reflexivity|]. intros Hin. apply H. right. exact Hin.
Qed.

(** Only what follows the last dot of a name counts as its extension,
    and a name without a dot is its own extension: the test for a CSV
    source and the choice of the output format accept "csv" and "json"
    as they accept "a.b.csv" and "a.b.json". *)
Theorem extension_after_last_dot (ext : string) :
  dot_free ext ->
  extension ext = ext /\
  forall base, extension (base ++ "." ++ ext) = ext /\
               format_of (base ++ "." ++ ext) = format_of ext.
Proof.
  intros Hfree.
  assert (E0 : extension ext = ext).
  { unfold extension. rewrite (@split_free _ ext Hfree). reflexivity. }
  split; [exact E0|]. intros base.
  assert (E : extension (base ++ "." ++ ext) = ext).
  { unfold extension. cbn [append]. rewrite split_app, (@split_free _ ext Hfree).
    apply last_last. }
  split; [exact E|]. unfold format_of. rewrite E, E0. reflexivity.
Qed.

(** *** The run *)

(** A first argument that is neither flag-like nor a CSV name is
    announced as replaced by the default file, but it stays in the
    vector that is classified: once the default file has loaded, the run
    always ends in the "Invalid flag" exit, before any filtering. *)
Theorem run_movie_query_invalid_file (arg0 : string) (rest : list string)
        (movies : list MovieMetric) :
  startswith arg0 "--" = false ->
  extension arg0 <> "csv" ->
  load_movies "imdb_top_1000.csv" (read_file "imdb_top_1000.csv") = Ok movies ->
  run_movie_query read_file write_error float_of_str arg0 rest =
  ([Printed "Invalid file format. Using default data file."],
   Raise (SystemExit
     "Invalid flag. Please start flags with '--' followed by an argument.")).
Proof.
  intros Hflag Hext Hload. unfold run_movie_query. rewrite Hflag.
  destruct (String.eqb_spec (extension arg0) "csv"); [congruence|].
  rewrite Hload. unfold collect_filters. cbn [skipn collect_loop].
  rewrite Hflag. reflexivity.
Qed.

(** An unknown [--top-ten] value ends the commands before anything is
    shown; an unknown [--insights] value ends them only after the
    results have been listed or written. *)
Theorem perform_commands_unknown_value (movies : list MovieMetric)
        (commands : dict string) (value : string) :
  (dict_get "--top-ten" commands = Some value ->
   dict_get value top_ten_map = None ->
   perform_commands write_error movies commands =
   ([], Raise (SystemExit ("Unknown value: " ++ value)))) /\
  (dict_get "--insights" commands = Some value ->
   value <> "genre" -> value <> "year" ->
   forall top shown,
     perform_top_ten movies commands = Ok top ->
     perform_output write_error top commands = (shown, Ok tt) ->
     shown <> [] /\
     perform_commands write_error movies commands =
     (shown, Raise (SystemExit ("Unknown value: " ++ value)))).
Proof.
  split.
  - intros Hv Hnone. unfold perform_commands, perform_top_ten.
    rewrite Hv, Hnone. reflexivity.
  - intros Hv Hg Hy top shown Htop Hout. split.
    + unfold perform_output in Hout.
      destruct (dict_get "--output" commands) as [f|].
      * destruct (print_output write_error top f) as [ev [[]|]];
          [|discriminate]. injection Hout as <-. destruct ev; discriminate.
      * destruct (print_movies top) as [ev [[]|]]; [|discriminate].
        injection Hout as <-. destruct ev; discriminate.
    + unfold perform_commands. rewrite Htop, Hout.
      unfold perform_insights. rewrite Hv.
      destruct (String.eqb_spec value "genre"); [congruence|].
      destruct (String.eqb_spec value "year"); [congruence|].
      rewrite app_nil_r. reflexivity.
Qed.


(** The source is loaded before any argument is classified: when the
    named CSV file cannot be loaded (it is missing or unreadable, a row
    fails validation, or the sort meets a missing rating), the run ends
    with that failure and prints nothing, whatever the other arguments
    are. *)
Theorem run_movie_query_load_failure (arg0 : string) (rest : list string)
        (e : exn) :
  startswith arg0 "--" = false ->
  extension arg0 = "csv" ->
  load_movies arg0 (read_file arg0) = Raise e ->
  run_movie_query read_file write_error float_of_str arg0 rest =
  ([], Raise e).
Proof.
  intros Hflag Hext Hload. unfold run_movie_query.
  rewrite Hflag, Hext. cbn. rewrite Hload. reflexivity.
Qed.

End RunFacts.

(** ** The statements at sample inputs *)

Lemma genre_filter_drama_comedy_witness :
  gem_a.(genre) = Some "Drama, Comedy" /\
  exists pred,
    dict_get "--genre" (flag_map float_of_int_literal) = Some pred /\
    pred gem_a "Drama" = Ok (PyBool true) /\
    pred gem_a "Comedy" = Ok (PyBool false) /\
    pred gem_a "Dra" = Ok (PyBool false).
Proof.
  split; [reflexivity|].
  apply (@genre_filter_drama_comedy float_of_int_literal gem_a).
  reflexivity.
Defined.

Lemma load_movies_unrated_raises_witness :
  (2 <= List.length [rated_8; short_row])%nat /\
  (exists m, In m [rated_8; short_row] /\ m.(imdb_rating) = None) /\
  load_movies "imdb_top_1000.csv" (Rows [rated_8; short_row]) = Raise TypeError.
Proof.
  assert (H1 : (2 <= List.length [rated_8; short_row])%nat) by (cbn; lia).
  assert (H2 : exists m, In m [rated_8; short_row] /\ m.(imdb_rating) = None).
  { exists short_row. split; [right; left; reflexivity|reflexivity]. }
  split; [exact H1|]. split; [exact H2|].
  exact (@load_movies_unrated_raises "imdb_top_1000.csv" _ H1 H2).
Defined.

Lemma genre_insights_multi_genre_no_group_witness :
  gem_a.(genre) = Some "Drama, Comedy" /\
  generate_genre_insights [gem_a] = Ok [].
Proof.
  split; [reflexivity|].
  apply (@genre_insights_multi_genre_no_group gem_a). reflexivity.
Defined.

Lemma top_ten_missing_field_raises_witness :
  In "highest-grossing" (map fst top_ten_map) /\
  exists reduce missing,
    dict_get "highest-grossing" top_ten_map = Some reduce /\
    dict_get "highest-grossing" missing_for = Some missing /\
    missing short_row = true /\
    (exists e, reduce [rated_8; short_row] = Raise e) /\
    reduce [short_row] = Raise TypeError.
Proof.
  assert (Hin : In "highest-grossing" (map fst top_ten_map)).
  { cbn. right. right. left. reflexivity. }
  split; [exact Hin|].
  destruct (@top_ten_missing_field_raises "highest-grossing" Hin)
    as [reduce [missing [Hr [Hm [Hall Hone]]]]].
  exists reduce, missing.
  assert (Hmiss : missing short_row = true).
  { cbn in Hm. injection Hm as <-. reflexivity. }
  split; [exact Hr|]. split; [exact Hm|]. split; [exact Hmiss|]. split.
  - apply (Hall [rated_8; short_row] short_row); [|exact Hmiss].
    right. left. reflexivity.
  - apply Hone, Hmiss.
Defined.

Lemma null_safety_except_actor_witness :
  (exists pred,
      dict_get "--genre" (flag_map float_of_int_literal) = Some pred /\
      exists v, pred short_row "Drama" = Ok v /\ truthy v = false) /\
  (exists pred,
      dict_get "--actor" (flag_map float_of_int_literal) = Some pred /\
      pred short_row "Tom Hanks" = Raise AttributeError).
Proof.
  destruct (null_safety_except_actor float_of_int_literal) as [Hnull Hactor].
  split.
  - destruct (Hnull "--genre") as [pred [ref [Hp [Hr Hall]]]].
    + cbn. do 15 right. left. reflexivity.
    + discriminate.
    + exists pred. split; [exact Hp|]. apply Hall.
      cbn in Hr. injection Hr as <-. reflexivity.
  - destruct Hactor as [pred [Hp [_ Hall]]].
    exists pred. split; [exact Hp|]. apply Hall. reflexivity.
Defined.

Lemma hidden_gems_ranking_witness :
  exists reduce,
    dict_get "hidden-gems" top_ten_map = Some reduce /\
    (forall m, In m [gem_a; gem_b] -> rankable m) /\
    (exists ranked,
        reduce [gem_a; gem_b] = Ok (firstn 10 ranked) /\
        Permutation ranked [gem_a; gem_b] /\
        StronglySorted ratio_ge ranked) /\
    reduce [gem_a; gem_b] = Ok [gem_b; gem_a].
Proof.
  destruct hidden_gems_ranking as [reduce [Hr [Hall Hab]]].
  exists reduce. split; [exact Hr|].
  assert (Hrank : forall m, In m [gem_a; gem_b] -> rankable m).
  { intros m [<-|[<-|[]]]; eexists; (split; [vm_compute; reflexivity|]);
      vm_compute; reflexivity. }
  split; [exact Hrank|]. split.
  - destruct (Hall _ Hrank) as [ranked [H1 [H2 [_ [H4 _]]]]].
    exists ranked. split; [exact H1|]. split; [exact H2|exact H4].
  - apply (Hab gem_a gem_b); reflexivity.
Defined.

Lemma numeric_filters_strict_witness :
  In "--rating-above" numeric_flags /\
  at_threshold float_of_int_literal (FloatField imdb_rating) rated_8 "8" /\
  exists pred,
    dict_get "--rating-above" (flag_map float_of_int_literal) = Some pred /\
    exists v, pred rated_8 "8" = Ok v /\ truthy v = false.
Proof.
  assert (Hin : In "--rating-above" numeric_flags).
  { cbn. right. right. left. reflexivity. }
  assert (Hat : at_threshold float_of_int_literal (FloatField imdb_rating)
                             rated_8 "8").
  { exists 8%float, 8%float. split; [vm_compute; reflexivity|].
    split; [reflexivity|left; reflexivity]. }
  split; [exact Hin|]. split; [exact Hat|].
  destruct (@numeric_filters_strict float_of_int_literal "--rating-above" Hin)
    as [pred [ref [Hp [Hr Hall]]]].
  exists pred. split; [exact Hp|]. apply Hall.
  cbn in Hr. injection Hr as <-. exact Hat.
Defined.

Lemma filter_results_subseq_witness :
  (forall m, In m [gem_a; rated_8; gem_b] ->
             evaluates float_of_int_literal
                       [("--rating-above", "8"); ("--genre", "drama")] m) /\
  filter_results float_of_int_literal [gem_a; rated_8; gem_b]
                 [("--rating-above", "8"); ("--genre", "drama")]
  = ([], Ok [gem_a; gem_b]) /\
  subseq [gem_a; gem_b] [gem_a; rated_8; gem_b].
Proof.
  set (movies := [gem_a; rated_8; gem_b]).
  set (filters := [("--rating-above", "8"); ("--genre", "drama")]).
  assert (He : forall m, In m movies -> evaluates float_of_int_literal filters m).
  { intros m [<-|[<-|[<-|[]]]];
      repeat constructor; eexists; eexists;
      (split; [reflexivity|vm_compute; reflexivity]). }
  destruct (filter_results_subseq float_of_int_literal movies filters)
    as [Hsub [_ [Hret _]]].
  assert (Hrun : filter_results float_of_int_literal movies filters
                 = ([], Ok [gem_a; gem_b])).
  { rewrite (Hret He). vm_compute. reflexivity. }
  split; [exact He|]. split; [exact Hrun|].
  exact (proj2 (Hsub _ _ Hrun)).
Defined.

Lemma collect_filters_repeated_flags_witness :
  let pairs := [("--genre", "Drama"); ("--top-ten", "hidden-gems");
                ("--genre", "Comedy"); ("--top-ten", "most-popular")] in
  Forall (fun fv => well_formed float_of_int_literal fv = true) pairs /\
  exists filters commands,
    collect_filters float_of_int_literal
      (["movies.csv"] ++ flatten pairs)%list 1 =
    (["Duplicate action flag: --top-ten. Ignoring."], Ok (filters, commands)) /\
    dict_get "--genre" filters = Some "Comedy" /\
    dict_get "--top-ten" commands = Some "hidden-gems".
Proof.
  intros pairs.
  assert (Hwf : Forall (fun fv => well_formed float_of_int_literal fv = true)
                       pairs) by (repeat constructor).
  split; [exact Hwf|].
  destruct (@collect_filters_repeated_flags float_of_int_literal
              ["movies.csv"] pairs Hwf)
    as [filters [commands [Hrun [Hf Hc]]]].
  exists filters, commands. split; [exact Hrun|]. split.
  - rewrite Hf; reflexivity.
  - rewrite Hc; reflexivity.
Defined.

Lemma genre_insights_absent_genre_raises_witness :
  (exists m, In m [gem_a; short_row] /\ m.(genre) = None) /\
  generate_genre_insights [gem_a; short_row] = Raise AttributeError.
Proof.
  assert (H : exists m, In m [gem_a; short_row] /\ m.(genre) = None).
  { exists short_row. split; [right; left; reflexivity|reflexivity]. }
  split; [exact H|].
  exact (@genre_insights_absent_genre_raises _ H).
Defined.

(** ** The further properties at sample inputs *)

Lemma float_of_whole_literal_raises :
  float_raises_value_error float_of_whole_literal.
Proof.
  intros s e. unfold float_of_whole_literal.
  destruct (int_of_str s) as [z|e'] eqn:E.
  - destruct (float_of_int z); discriminate.
  - intros [= <-]. exact (int_of_str_raises _ E).
Qed.

Lemma collect_filters_invalid_flag_witness :
  Forall (fun fv => well_formed float_of_int_literal fv = true)
         [("--genre", "Drama")] /\
  startswith "movies.txt" "--" = false /\
  collect_filters float_of_int_literal
    ["movies.csv"; "--genre"; "Drama"; "movies.txt"; "--year-after"; "1990"] 1 =
  ([], Raise (SystemExit
     "Invalid flag. Please start flags with '--' followed by an argument.")).
Proof.
  assert (H1 : Forall (fun fv => well_formed float_of_int_literal fv = true)
                      [("--genre", "Drama")]) by (repeat constructor).
  assert (H2 : startswith "movies.txt" "--" = false) by reflexivity.
  split; [exact H1|]. split; [exact H2|].
  exact (@collect_filters_invalid_flag float_of_int_literal ["movies.csv"]
           [("--genre", "Drama")] "movies.txt" ["--year-after"; "1990"] H1 H2).
Defined.

Lemma collect_filters_missing_value_witness :
  Forall (fun fv => well_formed float_of_int_literal fv = true)
         [("--genre", "Drama")] /\
  startswith "--nonsense" "--" = true /\
  startswith "--top-ten" "--" = true /\
  collect_filters float_of_int_literal
    ["movies.csv"; "--genre"; "Drama"; "--nonsense"; "--top-ten";
     "hidden-gems"] 1 =
  ([], Raise (SystemExit "Missing argument value for flag: --nonsense")).
Proof.
  assert (H1 : Forall (fun fv => well_formed float_of_int_literal fv = true)
                      [("--genre", "Drama")]) by (repeat constructor).
  assert (H2 : startswith "--nonsense" "--" = true) by reflexivity.
  assert (H3 : startswith "--top-ten" "--" = true) by reflexivity.
  split; [exact H1|]. split; [exact H2|]. split; [exact H3|].
  exact (@collect_filters_missing_value float_of_int_literal ["movies.csv"]
           [("--genre", "Drama")] "--nonsense" ["--top-ten"; "hidden-gems"]
           H1 H2 H3).
Defined.

Lemma collect_filters_unknown_flag_witness :
  Forall (fun fv => well_formed float_of_int_literal fv = true)
         [("--genre", "Drama")] /\
  startswith "--nonsense" "--" = true /\ startswith "1" "--" = false /\
  is_filter_flag float_of_int_literal "--nonsense" = false /\
  is_command_flag float_of_int_literal "--nonsense" = false /\
  collect_filters float_of_int_literal
    ["movies.csv"; "--genre"; "Drama"; "--nonsense"; "1"; "oops"] 1 =
  ([], Raise (SystemExit "Unknown flag: --nonsense")).
Proof.
  assert (H1 : Forall (fun fv => well_formed float_of_int_literal fv = true)
                      [("--genre", "Drama")]) by (repeat constructor).
  assert (H2 : startswith "--nonsense" "--" = true) by reflexivity.
  assert (H3 : startswith "1" "--" = false) by reflexivity.
  assert (H4 : is_filter_flag float_of_int_literal "--nonsense" = false)
    by reflexivity.
  assert (H5 : is_command_flag float_of_int_literal "--nonsense" = false)
    by reflexivity.
  split; [exact H1|]. split; [exact H2|]. split; [exact H3|].
  split; [exact H4|]. split; [exact H5|].
  exact (@collect_filters_unknown_flag float_of_int_literal ["movies.csv"]
           [("--genre", "Drama")] "--nonsense" "1" ["oops"] H1 H2 H3 H4 H5).
Defined.

Lemma collect_filters_classified_witness :
  collect_filters float_of_int_literal
    ["movies.csv"; "--genre"; "Drama"; "--top-ten"; "hidden-gems";
     "--genre"; "Comedy"] 1 =
  ([], Ok ([("--genre", "Comedy")], [("--top-ten", "hidden-gems")])) /\
  classified (is_filter_flag float_of_int_literal) [("--genre", "Comedy")] /\
  classified (is_command_flag float_of_int_literal)
             [("--top-ten", "hidden-gems")].
Proof.
  assert (H : collect_filters float_of_int_literal
                ["movies.csv"; "--genre"; "Drama"; "--top-ten"; "hidden-gems";
                 "--genre"; "Comedy"] 1 =
              ([], Ok ([("--genre", "Comedy")],
                       [("--top-ten", "hidden-gems")]))) by reflexivity.
  split; [exact H|].
  exact (@collect_filters_classified float_of_int_literal _ _ _ _ _ H).
Defined.

Lemma filter_results_ends_witness :
  float_raises_value_error float_of_whole_literal /\
  (forall k v, In (k, v) [("--actor", "Tom Hanks")] ->
               is_filter_flag float_of_whole_literal k = true) /\
  filter_results float_of_whole_literal [gem_a; short_row]
                 [("--actor", "Tom Hanks")] = ([], Raise AttributeError) /\
  dict_mem "--actor" [("--actor", "Tom Hanks")] = true /\
  exists m, In m [gem_a; short_row] /\ absent Stars m = true.
Proof.
  assert (H1 : forall k v, In (k, v) [("--actor", "Tom Hanks")] ->
                           is_filter_flag float_of_whole_literal k = true).
  { intros k v [E|[]]. injection E as <- _. reflexivity. }
  assert (H2 : filter_results float_of_whole_literal [gem_a; short_row]
                 [("--actor", "Tom Hanks")] = ([], Raise AttributeError))
    by reflexivity.
  split; [exact float_of_whole_literal_raises|].
  split; [exact H1|]. split; [exact H2|].
  destruct (@filter_results_ends float_of_whole_literal _ _ _ _
              float_of_whole_literal_raises H1 H2) as [[r Hr]|[Hr|[_ Hr]]];
    [discriminate|discriminate|exact Hr].
Defined.

Lemma filter_results_first_filter_rejects_witness :
  (forall m, In m [gem_a; gem_b] ->
             exists pred v,
               dict_get "--genre" (flag_map float_of_int_literal) = Some pred /\
               pred m "Horror" = Ok v /\ truthy v = false) /\
  filter_results float_of_int_literal [gem_a; gem_b]
                 [("--genre", "Horror"); ("--year-after", "abc")] = ([], Ok []).
Proof.
  assert (H : forall m, In m [gem_a; gem_b] ->
               exists pred v,
                 dict_get "--genre" (flag_map float_of_int_literal) = Some pred /\
                 pred m "Horror" = Ok v /\ truthy v = false).
  { intros m [<-|[<-|[]]]; eexists; eexists;
      (split; [reflexivity|split; [vm_compute; reflexivity|reflexivity]]). }
  split; [exact H|].
  exact (@filter_results_first_filter_rejects float_of_int_literal
           [gem_a; gem_b] "--genre" "Horror" [("--year-after", "abc")] H).
Defined.

Lemma filter_results_invalid_value_witness :
  evaluates float_of_int_literal [("--genre", "drama")] gem_a /\
  keeps float_of_int_literal [("--genre", "drama")] gem_a = true /\
  (exists pred,
      dict_get "--year-after" (flag_map float_of_int_literal) = Some pred /\
      pred gem_a "abc" = Raise ValueError) /\
  filter_results float_of_int_literal [gem_a; gem_b]
                 [("--genre", "drama"); ("--year-after", "abc")] =
  (["Error: abc is not a valid argument for flag --year-after."],
   Raise (SystemExit "Please fix the error and try again.")).
Proof.
  assert (H1 : evaluates float_of_int_literal [("--genre", "drama")] gem_a).
  { repeat constructor. eexists; eexists.
    split; [reflexivity|vm_compute; reflexivity]. }
  assert (H2 : keeps float_of_int_literal [("--genre", "drama")] gem_a = true)
    by (vm_compute; reflexivity).
  assert (H3 : exists pred,
             dict_get "--year-after" (flag_map float_of_int_literal) = Some pred /\
             pred gem_a "abc" = Raise ValueError).
  { eexists. split; [reflexivity|vm_compute; reflexivity]. }
  split; [exact H1|]. split; [exact H2|]. split; [exact H3|].
  exact (@filter_results_invalid_value float_of_int_literal gem_a [gem_b]
           [("--genre", "drama")] "--year-after" "abc" H1 H2 H3).
Defined.

Lemma filter_results_app_witness :
  (forall m, In m [gem_a; rated_8; gem_b] ->
             evaluates float_of_int_literal
                       [("--rating-above", "8"); ("--genre", "drama")] m) /\
  exists r1,
    filter_results float_of_int_literal [gem_a; rated_8; gem_b]
                   [("--rating-above", "8")] = ([], Ok r1) /\
    filter_results float_of_int_literal r1 [("--genre", "drama")] =
    filter_results float_of_int_literal [gem_a; rated_8; gem_b]
                   [("--rating-above", "8"); ("--genre", "drama")].
Proof.
  assert (H : forall m, In m [gem_a; rated_8; gem_b] ->
               evaluates float_of_int_literal
                         [("--rating-above", "8"); ("--genre", "drama")] m).
  { intros m [<-|[<-|[<-|[]]]];
      repeat constructor; eexists; eexists;
      (split; [reflexivity|vm_compute; reflexivity]). }
  split; [exact H|].
  exact (@filter_results_app float_of_int_literal [gem_a; rated_8; gem_b]
           [("--rating-above", "8")] [("--genre", "drama")] H).
Defined.

Lemma filter_results_any_order_witness :
  Permutation [("--rating-above", "8"); ("--genre", "drama")]
              [("--genre", "drama"); ("--rating-above", "8")] /\
  (forall m, In m [gem_a; rated_8; gem_b] ->
             evaluates float_of_int_literal
                       [("--rating-above", "8"); ("--genre", "drama")] m) /\
  filter_results float_of_int_literal [gem_a; rated_8; gem_b]
                 [("--rating-above", "8"); ("--genre", "drama")] =
  filter_results float_of_int_literal [gem_a; rated_8; gem_b]
                 [("--genre", "drama"); ("--rating-above", "8")].
Proof.
  assert (H1 : Permutation [("--rating-above", "8"); ("--genre", "drama")]
                           [("--genre", "drama"); ("--rating-above", "8")])
    by apply perm_swap.
  assert (H2 : forall m, In m [gem_a; rated_8; gem_b] ->
               evaluates float_of_int_literal
                         [("--rating-above", "8"); ("--genre", "drama")] m).
  { intros m [<-|[<-|[<-|[]]]];
      repeat constructor; eexists; eexists;
      (split; [reflexivity|vm_compute; reflexivity]). }
  split; [exact H1|]. split; [exact H2|].
  exact (@filter_results_any_order float_of_int_literal _ _ _ H1 H2).
Defined.


Lemma top_ten_at_most_ten_witness :
  (exists reduce,
      dict_get "most-popular" top_ten_map = Some reduce /\
      reduce [gem_a; gem_b; rated_8] = Ok [rated_8; gem_a; gem_b]) /\
  List.length [rated_8; gem_a; gem_b] =
  Nat.min 10 (List.length [gem_a; gem_b; rated_8]) /\
  exists ranked,
    Permutation ranked [gem_a; gem_b; rated_8] /\
    [rated_8; gem_a; gem_b] = firstn 10 ranked.
Proof.
  assert (H : exists reduce,
             dict_get "most-popular" top_ten_map = Some reduce /\
             reduce [gem_a; gem_b; rated_8] = Ok [rated_8; gem_a; gem_b]).
  { eexists. split; [reflexivity|vm_compute; reflexivity]. }
  split; [exact H|].
  exact (@top_ten_at_most_ten "most-popular" _ _ H).
Defined.

Lemma top_ten_by_field_witness :
  dict_get "longest-runtime" ranks_by = Some runtime /\
  exists reduce,
    dict_get "longest-runtime" top_ten_map = Some reduce /\
    (forall m, In m [gem_a; gem_b; rated_8] -> m.(runtime) <> None) /\
    exists ranked,
      reduce [gem_a; gem_b; rated_8] = Ok (firstn 10 ranked) /\
      Permutation ranked [gem_a; gem_b; rated_8] /\
      StronglySorted (field_ge runtime) ranked.
Proof.
  assert (H : dict_get "longest-runtime" ranks_by = Some runtime)
    by reflexivity.
  split; [exact H|].
  destruct (@top_ten_by_field "longest-runtime" runtime H)
    as [reduce [Hr Hall]].
  exists reduce. split; [exact Hr|].
  assert (Hf : forall m, In m [gem_a; gem_b; rated_8] -> m.(runtime) <> None).
  { intros m [<-|[<-|[<-|[]]]]; discriminate. }
  split; [exact Hf|].
  destruct (Hall _ Hf) as [ranked [H1 [H2 [H3 _]]]].
  exists ranked. split; [exact H1|]. split; [exact H2|exact H3].
Defined.

Lemma highest_rated_after_filter_witness :
  StronglySorted rating_ge [gem_a; gem_b; rated_8] /\
  (forall m, In m [gem_a; gem_b; rated_8] -> rated m) /\
  run_filters float_of_int_literal [gem_a; gem_b; rated_8]
              [("--genre", "drama")] =
  (["Found 2 movies matching the filter flags"], Ok [gem_a; gem_b]) /\
  exists reduce,
    dict_get "highest-rated" top_ten_map = Some reduce /\
    reduce [gem_a; gem_b] = Ok (firstn 10 [gem_a; gem_b]).
Proof.
  assert (H1 : StronglySorted rating_ge [gem_a; gem_b; rated_8]).
  { repeat constructor; eexists; eexists;
      (split; [reflexivity|split; [reflexivity|vm_compute; reflexivity]]). }
  assert (H2 : forall m, In m [gem_a; gem_b; rated_8] -> rated m).
  { intros m [<-|[<-|[<-|[]]]]; eexists;
      (split; [reflexivity|vm_compute; reflexivity]). }
  assert (H3 : run_filters float_of_int_literal [gem_a; gem_b; rated_8]
                 [("--genre", "drama")] =
               (["Found 2 movies matching the filter flags"],
                Ok [gem_a; gem_b])) by (vm_compute; reflexivity).
  split; [exact H1|]. split; [exact H2|]. split; [exact H3|].
  exact (@highest_rated_after_filter float_of_int_literal _ _ _ _ H1 H2 H3).
Defined.

Lemma genre_insights_keys_witness :
  exists stats s,
    generate_genre_insights [gem_b; rated_8] = Ok stats /\ In s stats /\
    exists m g,
      In m [gem_b; rated_8] /\ m.(genre) = Some g /\
      s.(stat_genre) = Some g /\ comma_free g.
Proof.
  destruct (generate_genre_insights [gem_b; rated_8]) as [stats|e] eqn:H1;
    [|vm_compute in H1; discriminate].
  assert (E := H1). vm_compute in E.
  destruct stats as [|s t]; [discriminate E|].
  exists (s :: t), s. split; [reflexivity|].
  assert (H2 : In s (s :: t)) by (left; reflexivity).
  split; [exact H2|].
  exact (@genre_insights_keys _ _ _ H1 H2).
Defined.


Lemma year_insights_yearless_raises_witness :
  (exists m, In m [gem_a; in_year None gem_b] /\
             m.(released_year) = None /\ qualifies m = true) /\
  exists e, generate_year_insights [gem_a; in_year None gem_b] = Raise e.
Proof.
  assert (H : exists m, In m [gem_a; in_year None gem_b] /\
                        m.(released_year) = None /\ qualifies m = true).
  { exists (in_year None gem_b).
    split; [right; left; reflexivity|]. split; reflexivity. }
  split; [exact H|].
  exact (@year_insights_yearless_raises _ H).
Defined.

Lemma year_insights_descending_witness :
  exists stats,
    generate_year_insights [gem_a; in_year (Some 2008) rated_8; gem_b]
    = Ok stats /\
    map stat_year stats = [Some 2008; Some 1994] /\
    StronglySorted year_gt stats.
Proof.
  eexists.
  assert (H : generate_year_insights
                [gem_a; in_year (Some 2008) rated_8; gem_b] = Ok _)
    by (vm_compute; reflexivity).
  split; [exact H|]. split; [reflexivity|].
  exact (@year_insights_descending _ _ H).
Defined.

Lemma numeric_validators_never_raise_witness :
  is_ascii "1994" = true /\ (String.length "1994" <= 4300)%nat /\
  format_released_year (Some "1994") = format_meta_score (Some "1994") /\
  (isnumeric "1994" = true ->
   exists n, 0 <= n /\ format_released_year (Some "1994") = Value (Some n)) /\
  (isnumeric "1994" = false -> format_released_year (Some "1994") = Value None).
Proof.
  assert (H1 : is_ascii "1994" = true) by reflexivity.
  assert (H2 : (String.length "1994" <= 4300)%nat) by (cbn; lia).
  split; [exact H1|]. split; [exact H2|].
  exact (@numeric_validators_never_raise "1994" H1 H2).
Defined.

Lemma extract_runtime_first_word_witness :
  "142" <> "" /\ is_ascii "142" = true /\
  all_chars (fun c => negb (is_space c)) "142" = true /\
  in_word " min" = false /\
  extract_runtime (Some "142 min") = of_int_result (int_of_str "142").
Proof.
  assert (H1 : "142" <> "") by discriminate.
  assert (H2 : is_ascii "142" = true) by reflexivity.
  assert (H3 : all_chars (fun c => negb (is_space c)) "142" = true)
    by reflexivity.
  assert (H4 : in_word " min" = false) by reflexivity.
  split; [exact H1|]. split; [exact H2|]. split; [exact H3|].
  split; [exact H4|].
  exact (proj1 extract_runtime_first_word "142" " min" H1 H2 H3 H4).
Defined.

Lemma format_gross_ignores_commas_witness :
  "28" ++ "341" <> "" /\
  format_gross (Some "28,341") = format_gross (Some "28341").
Proof.
  assert (H : "28" ++ "341" <> "") by discriminate.
  split; [exact H|].
  exact (@format_gross_ignores_commas "28" "341" H).
Defined.

Lemma validators_read_back_witness :
  Z.abs (-5) < 10 ^ 4300 /\
  extract_runtime (Some (csv_cell (Some (-5)))) = Value (Some (-5)) /\
  format_gross (Some (csv_cell (Some (-5)))) = Value (Some (-5)) /\
  format_released_year (Some (csv_cell (Some (-5)))) = Value None /\
  format_meta_score (Some (csv_cell (Some (-5)))) =
  format_released_year (Some (csv_cell (Some (-5)))).
Proof.
  assert (H : Z.abs (-5) < 10 ^ 4300)
    by (apply Z.ltb_lt; vm_compute; reflexivity).
  split; [exact H|].
  exact (@validators_read_back (Some (-5)) H).
Defined.

Lemma extension_after_last_dot_witness :
  dot_free "csv" /\
  extension "csv" = "csv" /\
  forall base, extension (base ++ "." ++ "csv") = "csv" /\
               format_of (base ++ "." ++ "csv") = format_of "csv".
Proof.
  assert (H : dot_free "csv").
  { unfold dot_free. cbn. intros [E|[E|[E|[]]]]; discriminate. }
  split; [exact H|].
  exact (@extension_after_last_dot "csv" H).
Defined.

Lemma run_movie_query_invalid_file_witness :
  startswith "movies.txt" "--" = false /\
  extension "movies.txt" <> "csv" /\
  load_movies "imdb_top_1000.csv" (two_rows "imdb_top_1000.csv")
  = Ok [gem_a; rated_8] /\
  run_movie_query two_rows writable float_of_int_literal
                  "movies.txt" ["--genre"; "Drama"] =
  ([Printed "Invalid file format. Using default data file."],
   Raise (SystemExit
     "Invalid flag. Please start flags with '--' followed by an argument.")).
Proof.
  assert (H1 : startswith "movies.txt" "--" = false) by reflexivity.
  assert (H2 : extension "movies.txt" <> "csv") by (vm_compute; discriminate).
  assert (H3 : load_movies "imdb_top_1000.csv" (two_rows "imdb_top_1000.csv")
               = Ok [gem_a; rated_8]) by (vm_compute; reflexivity).
  split; [exact H1|]. split; [exact H2|]. split; [exact H3|].
  exact (@run_movie_query_invalid_file two_rows writable float_of_int_literal
           "movies.txt" ["--genre"; "Drama"] _ H1 H2 H3).
Defined.

Lemma perform_commands_unknown_value_witness :
  dict_get "--top-ten" [("--top-ten", "best")] = Some "best" /\
  dict_get "best" top_ten_map = None /\
  perform_commands writable [gem_a; gem_b] [("--top-ten", "best")] =
  ([], Raise (SystemExit "Unknown value: best")).
Proof.
  assert (H1 : dict_get "--top-ten" [("--top-ten", "best")] = Some "best")
    by reflexivity.
  assert (H2 : dict_get "best" top_ten_map = None) by reflexivity.
  split; [exact H1|]. split; [exact H2|].
  exact (proj1 (@perform_commands_unknown_value writable [gem_a; gem_b]
                  [("--top-ten", "best")] "best") H1 H2).
Defined.


Lemma run_movie_query_load_failure_witness :
  startswith "missing.csv" "--" = false /\
  extension "missing.csv" = "csv" /\
  load_movies "missing.csv" FileNotFound =
  Raise (SystemExit "Error: The csv file 'missing.csv' was not found.") /\
  run_movie_query (fun _ => FileNotFound) writable float_of_int_literal
                  "missing.csv" ["oops"] =
  ([], Raise (SystemExit "Error: The csv file 'missing.csv' was not found.")).
Proof.
  assert (H1 : startswith "missing.csv" "--" = false) by reflexivity.
  assert (H2 : extension "missing.csv" = "csv") by reflexivity.
  assert (H3 : load_movies "missing.csv" FileNotFound =
               Raise (SystemExit
                        "Error: The csv file 'missing.csv' was not found."))
    by reflexivity.
  split; [exact H1|]. split; [exact H2|]. split; [exact H3|].
  exact (@run_movie_query_load_failure (fun _ => FileNotFound) writable
           float_of_int_literal "missing.csv" ["oops"] _ H1 H2 H3).
Defined.

Lemma load_movies_rated_witness :
  (forall m, In m [rated_8; gem_a; gem_b] -> rated m) /\
  exists loaded,
    load_movies "movies.csv" (Rows [rated_8; gem_a; gem_b]) = Ok loaded /\
    Permutation loaded [rated_8; gem_a; gem_b] /\
    StronglySorted rating_ge loaded /\
    forall r, filter (same_rating r) loaded
              = filter (same_rating r) [rated_8; gem_a; gem_b].
Proof.
  assert (H : forall m, In m [rated_8; gem_a; gem_b] -> rated m).
  { intros m [<-|[<-|[<-|[]]]]; eexists;
      (split; [reflexivity|vm_compute; reflexivity]). }
  split; [exact H|].
  exact (@load_movies_rated "movies.csv" _ H).
Defined.

Lemma rankable_of_constraints_witness :
  field_constraints gem_a = true /\
  gem_a.(imdb_rating) = Some 9%float /\ (0 <? 9)%float = true /\
  gem_a.(no_of_votes) = Some 100 /\
  float_of_int 100 <> Raise OverflowError /\
  rankable gem_a.
Proof.
  assert (H1 : field_constraints gem_a = true) by (vm_compute; reflexivity).
  assert (H2 : gem_a.(imdb_rating) = Some 9%float) by reflexivity.
  assert (H3 : (0 <? 9)%float = true) by (vm_compute; reflexivity).
  assert (H4 : gem_a.(no_of_votes) = Some 100) by reflexivity.
  assert (H5 : float_of_int 100 <> Raise OverflowError)
    by (vm_compute; discriminate).
  split; [exact H1|]. split; [exact H2|]. split; [exact H3|].
  split; [exact H4|]. split; [exact H5|].
  exact (@rankable_of_constraints gem_a _ _ H1 H2 H3 H4 H5).
Defined.
